(** * Order lifecycle engine of the Greek Irini operations console

    A shallow embedding of the store services (services/supabaseClient.ts:
    ordersService, driversService) and of the order logic of the admin
    dashboard (AdminDashboard: status controls, print action, new-order
    detection, analytics), with the properties of the design document
    settled against them.

    Conventions of the embedding
    - a timestamp (a JS Date, or the ISO string the store keeps) is the
      number of milliseconds since the epoch, an integer [Z];
    - a JS number holding money is an exact rational [Q]; the rounding of
      binary64 arithmetic is modelled apart ([binary64]) and used where a
      property speaks of floating point;
    - a table of the store is a finite map from the row id to the row;
      [update(..).eq('id', id).select().single()] patches the row with that
      id and returns it, and fails when no row has that id. A failure of
      the transport is not modelled: the call then throws and no table
      changes;
    - [new Date()] is the argument [now] of the operation that reads it, a
      valid date. *)

From Stdlib Require Import ZArith QArith Qround Qabs Lia Lqa.
From stdpp Require Import gmap strings list sorting.

Local Open Scope Z_scope.

(** ** Data model (supabaseClient.ts, interfaces DbOrder and DbDriver) *)

(** DbOrder['status'] *)
Inductive OrderStatus : Set :=
  | Pending | Preparing | Ready | Delivery | Completed | Cancelled.

(** DbOrder['payment_method'] *)
Inductive PaymentMethod : Set := Ideal | Card | Bancontact | Cash.

(** DbOrder['payment_status'] *)
Inductive PaymentStatus : Set := Unpaid | PayPending | Paid | Failed | Refunded.

(** DbOrder['delivery_type'] *)
Inductive DeliveryType : Set := ByDelivery | ByPickup.

(** DbDriver['status'] *)
Inductive DriverStatus : Set := Available | Busy | Offline.

#[global] Instance OrderStatus_eq_dec : EqDecision OrderStatus.
Proof. solve_decision. Defined.
#[global] Instance PaymentMethod_eq_dec : EqDecision PaymentMethod.
Proof. solve_decision. Defined.
#[global] Instance PaymentStatus_eq_dec : EqDecision PaymentStatus.
Proof. solve_decision. Defined.
#[global] Instance DeliveryType_eq_dec : EqDecision DeliveryType.
Proof. solve_decision. Defined.
#[global] Instance DriverStatus_eq_dec : EqDecision DriverStatus.
Proof. solve_decision. Defined.

(** Terminal statuses: the two statuses both the dashboard guards
    ([status !== 'completed' && status !== 'cancelled']) test for. *)
Definition terminal (s : OrderStatus) : bool :=
  match s with
  | Completed | Cancelled => true
  | _ => false
  end.

Module DbOrder.
Record t : Type := mk {
  id : string;
  customer_name : string;
  subtotal : Q;
  delivery_fee : Q;
  total : Q;
  status : OrderStatus;
  payment_method : PaymentMethod;
  payment_status : PaymentStatus;
  delivery_type : DeliveryType;
  assigned_driver_id : option string;
  delivery_departed_at : option Z;
  estimated_delivery_time : option Z;
  created_at : Z;
  updated_at : Z
}.

(** The patches the services send with [update({...})]. *)
Definition set_status (s : OrderStatus) (now : Z) (o : t) : t :=
  mk (id o) (customer_name o) (subtotal o) (delivery_fee o) (total o)
     s (payment_method o) (payment_status o) (delivery_type o)
     (assigned_driver_id o) (delivery_departed_at o)
     (estimated_delivery_time o) (created_at o) now.

Definition set_assigned_driver (d : option string) (now : Z) (o : t) : t :=
  mk (id o) (customer_name o) (subtotal o) (delivery_fee o) (total o)
     (status o) (payment_method o) (payment_status o) (delivery_type o)
     d (delivery_departed_at o)
     (estimated_delivery_time o) (created_at o) now.

Definition set_departure (departed eta : Z) (now : Z) (o : t) : t :=
  mk (id o) (customer_name o) (subtotal o) (delivery_fee o) (total o)
     Delivery (payment_method o) (payment_status o) (delivery_type o)
     (assigned_driver_id o) (Some departed) (Some eta) (created_at o) now.
End DbOrder.

Module DbDriver.
Record t : Type := mk {
  id : string;
  name : string;
  phone : string;
  status : DriverStatus;
  active_deliveries : Z;
  created_at : Z;
  updated_at : Z
}.

Definition set_info (n p : option string) (now : Z) (d : t) : t :=
  mk (id d) (default (name d) n) (default (phone d) p) (status d)
     (active_deliveries d) (created_at d) now.

Definition set_status (s : DriverStatus) (now : Z) (d : t) : t :=
  mk (id d) (name d) (phone d) s (active_deliveries d) (created_at d) now.

Definition set_load (count : Z) (s : DriverStatus) (now : Z) (d : t) : t :=
  mk (id d) (name d) (phone d) s count (created_at d) now.
End DbDriver.

(** ** The store *)

(** Outcome of a call of a service: the row it returns, or the error it
    throws, which is the error the store answers with or the RangeError of
    [Date.prototype.toISOString] on an invalid date. *)
Inductive Result (A : Type) : Type :=
  | Ok (a : A)
  | StoreError
  | RangeError.
Arguments Ok {A} a.
Arguments StoreError {A}.
Arguments RangeError {A}.

Definition is_ok {A} (r : Result A) : bool :=
  match r with Ok _ => true | _ => false end.

(** The time values a Date can hold: at most 8.64e15 ms on either side of
    the epoch. [new Date(t)] with [t] beyond that is an invalid date. *)
Definition maxTime : Z := 8640000000000000.

Definition validTime (t : Z) : bool := (- maxTime <=? t) && (t <=? maxTime).

Record Db : Type := mkDb {
  orders : gmap string DbOrder.t;
  drivers : gmap string DbDriver.t
}.

(** [from(table).update(patch).eq('id', id).select().single()] *)
Definition update_single {Row : Type} (patch : Row → Row) (id : string)
    (tbl : gmap string Row) : gmap string Row * Result Row :=
  match tbl !! id with
  | Some r => (<[id := patch r]> tbl, Ok (patch r))
  | None => (tbl, StoreError)
  end.

Definition on_orders (f : gmap string DbOrder.t → gmap string DbOrder.t * Result DbOrder.t)
    (db : Db) : Db * Result DbOrder.t :=
  let '(tbl, r) := f (orders db) in (mkDb tbl (drivers db), r).

Definition on_drivers (f : gmap string DbDriver.t → gmap string DbDriver.t * Result DbDriver.t)
    (db : Db) : Db * Result DbDriver.t :=
  let '(tbl, r) := f (drivers db) in (mkDb (orders db) tbl, r).

(** [.order('created_at', { ascending: false })]: the later row first. *)
Definition created_desc (a b : DbOrder.t) : Prop :=
  DbOrder.created_at b ≤ DbOrder.created_at a.

#[global] Instance created_desc_dec a b : Decision (created_desc a b).
Proof. unfold created_desc. apply _. Defined.

#[global] Instance created_desc_total : Total created_desc.
Proof. intros a b. unfold created_desc. lia. Qed.

#[global] Instance created_desc_trans : Transitive created_desc.
Proof. intros a b c. unfold created_desc. lia. Qed.

(** The text the store keeps in the [status] column. *)
Definition statusName (s : OrderStatus) : string :=
  match s with
  | Pending => "pending"
  | Preparing => "preparing"
  | Ready => "ready"
  | Delivery => "delivery"
  | Completed => "completed"
  | Cancelled => "cancelled"
  end.

(** The rows of a table, in no particular order. *)
Definition rows {Row : Type} (tbl : gmap string Row) : list Row :=
  snd <$> map_to_list tbl.

(** [.order('active_deliveries', { ascending: true })] *)
Definition load_asc (a b : DbDriver.t) : Prop :=
  DbDriver.active_deliveries a ≤ DbDriver.active_deliveries b.

#[global] Instance load_asc_dec a b : Decision (load_asc a b).
Proof. unfold load_asc. apply _. Defined.

#[global] Instance load_asc_total : Total load_asc.
Proof. intros a b. unfold load_asc. lia. Qed.

#[global] Instance load_asc_trans : Transitive load_asc.
Proof. intros a b c. unfold load_asc. lia. Qed.

(** An order row together with the two payment columns of DbOrder that
    [DbOrder.t] leaves out: paid_at and payment_transaction_id. *)
Module PaidOrder.
Record t : Type := mk {
  order : DbOrder.t;
  paid_at : option Z;
  payment_transaction_id : option string
}.
End PaidOrder.

(** The patch [{ payment_status, updated_at }] on the columns of [DbOrder.t]. *)
Definition set_payment_status (ps : PaymentStatus) (now : Z) (o : DbOrder.t)
    : DbOrder.t :=
  DbOrder.mk (DbOrder.id o) (DbOrder.customer_name o) (DbOrder.subtotal o)
    (DbOrder.delivery_fee o) (DbOrder.total o) (DbOrder.status o)
    (DbOrder.payment_method o) ps (DbOrder.delivery_type o)
    (DbOrder.assigned_driver_id o) (DbOrder.delivery_departed_at o)
    (DbOrder.estimated_delivery_time o) (DbOrder.created_at o) now.

(** A JS string used as a condition: the empty string and [undefined] are
    false. *)
Definition truthy (s : option string) : bool :=
  match s with
  | Some t => negb (bool_decide (t = ""))
  | None => false
  end.

(** The rows of order_items and staff_notes ([OrderItem], [StaffNote]). *)
Module OrderItem.
Record t : Type := mk {
  id : string;
  order_id : string;
  menu_item_id : option string;
  item_name : string;
  item_price : Q;
  quantity : Z;
  subtotal : Q;
  special_instructions : option string
}.
End OrderItem.

Module StaffNote.
Record t : Type := mk {
  id : string;
  order_id : string;
  text : string;
  author : string;
  created_at : Z
}.
End StaffNote.

(** The two tables that refer to an order, each in the order in which the
    store lists its rows. *)
Record Relations : Type := mkRelations {
  order_items : list OrderItem.t;
  staff_notes : list StaffNote.t
}.

(** What a select of all columns with order_items and staff_notes embedded
    gives for one order: its columns and the rows of the two tables that
    refer to it. *)
Module OrderDetails.
Record t : Type := mk {
  columns : DbOrder.t;
  order_items : list OrderItem.t;
  staff_notes : list StaffNote.t
}.
End OrderDetails.

Definition itemsOf (id : string) (rel : Relations) : list OrderItem.t :=
  List.filter (λ i, bool_decide (OrderItem.order_id i = id)) (order_items rel).

Definition notesOf (id : string) (rel : Relations) : list StaffNote.t :=
  List.filter (λ n, bool_decide (StaffNote.order_id n = id)) (staff_notes rel).

(** ** ordersService *)

Module ordersService.

(** getAll: every order, ordered by created_at descending. The store
    leaves the order of rows with equal created_at open; the model takes
    the one a merge sort of the table gives. *)
Definition getAll (db : Db) : list DbOrder.t :=
  merge_sort created_desc (snd <$> map_to_list (orders db)).

(** updateStatus(id, status) *)
Definition updateStatus (id : string) (status : OrderStatus) (now : Z)
    (db : Db) : Db * Result DbOrder.t :=
  on_orders (update_single (DbOrder.set_status status now) id) db.

(** assignDriver(id, driver_id) *)
Definition assignDriver (id : string) (driver_id : option string)
    (now : Z) (db : Db) : Db * Result DbOrder.t :=
  on_orders (update_single (DbOrder.set_assigned_driver driver_id now) id) db.

(** startDelivery(id, estimatedMinutes). [estimatedMinutes] is a whole
    number, which is what [parseInt] gives the dashboard; up to 2^53 the
    product and the sum are exact in binary64, and a sum beyond it is out of
    the range of Date in binary64 as well. When [estimatedDeliveryTime] is
    an invalid date, [estimatedDeliveryTime.toISOString()] throws a
    RangeError while the patch is built, before the store is called. *)
Definition startDelivery (id : string) (estimatedMinutes : Z) (now : Z)
    (db : Db) : Db * Result DbOrder.t :=
  let estimatedDeliveryTime := now + estimatedMinutes * 60000 in
  if validTime estimatedDeliveryTime then
    on_orders
      (update_single (DbOrder.set_departure now estimatedDeliveryTime now) id) db
  else (db, RangeError).

(** getById(id): the order with its items and staff notes embedded. *)
Definition getById (id : string) (rel : Relations) (db : Db)
    : Result OrderDetails.t :=
  match orders db !! id with
  | Some o => Ok (OrderDetails.mk o (itemsOf id rel) (notesOf id rel))
  | None => StoreError
  end.

(** getByStatus(status): the argument is any string. *)
Definition getByStatus (status : string) (db : Db) : list DbOrder.t :=
  merge_sort created_desc
    (List.filter (λ o, bool_decide (statusName (DbOrder.status o) = status))
       (rows (orders db))).

(** getActive() *)
Definition getActive (db : Db) : list DbOrder.t :=
  merge_sort created_desc
    (List.filter
       (λ o, bool_decide (statusName (DbOrder.status o)
                          ∈ ["pending"; "preparing"; "ready"; "delivery"]))
       (rows (orders db))).

(** updatePaymentStatus(id, payment_status, transaction_id?), on the orders
    table with its payment columns. *)
Definition updatePaymentStatus (id : string) (payment_status : PaymentStatus)
    (transaction_id : option string) (now : Z)
    (tbl : gmap string PaidOrder.t) : gmap string PaidOrder.t * Result PaidOrder.t :=
  update_single
    (λ r, PaidOrder.mk
            (set_payment_status payment_status now (PaidOrder.order r))
            (if bool_decide (payment_status = Paid) then Some now
             else PaidOrder.paid_at r)
            (if truthy transaction_id then transaction_id
             else PaidOrder.payment_transaction_id r))
    id tbl.

End ordersService.

(** ** driversService *)

Module driversService.

(** create({ name, phone }); the store chooses the id and stamps the row. *)
Definition create (id name phone : string) (now : Z) (db : Db)
    : Db * Result DbDriver.t :=
  match drivers db !! id with
  | Some _ => (db, StoreError)
  | None =>
      let d := DbDriver.mk id name phone Available 0 now now in
      (mkDb (orders db) (<[id := d]> (drivers db)), Ok d)
  end.

(** update(id, { name?, phone? }) *)
Definition update (id : string) (name phone : option string) (now : Z)
    (db : Db) : Db * Result DbDriver.t :=
  on_drivers (update_single (DbDriver.set_info name phone now) id) db.

(** updateStatus(id, status) *)
Definition updateStatus (id : string) (status : DriverStatus) (now : Z)
    (db : Db) : Db * Result DbDriver.t :=
  on_drivers (update_single (DbDriver.set_status status now) id) db.

(** updateActiveDeliveries(id, count) *)
Definition updateActiveDeliveries (id : string) (count : Z) (now : Z)
    (db : Db) : Db * Result DbDriver.t :=
  on_drivers
    (update_single
       (DbDriver.set_load count (if 0 <? count then Busy else Available) now)
       id) db.

(** delete(id) *)
Definition delete (id : string) (db : Db) : Db :=
  mkDb (orders db) (base.delete id (drivers db)).

(** getAvailable(): the drivers that are not offline, least loaded first. *)
Definition getAvailable (db : Db) : list DbDriver.t :=
  merge_sort load_asc
    (List.filter (λ d, bool_decide (DbDriver.status d ≠ Offline))
       (rows (drivers db))).

End driversService.

(** ** The dashboard's view of an order *)

(** Modelled from the spec: the [Order] type of types.ts, which is not among
    the sources; the record has the fields the dashboard code below reads
    (section 3 of the design document: status, payment {method, status},
    delivery {type, fee}, total, assignedDriver, createdAt).  A field read
    through optional chaining ([o.payment?.status], [o.delivery?.type]) may
    be absent, and so may [deliveryMethod], which the status controls
    read. *)
Module Order.
Record Payment : Type := mkPayment {
  method : PaymentMethod;
  pstatus : PaymentStatus
}.

Record DeliveryInfo : Type := mkDelivery {
  type : DeliveryType;
  fee : Q
}.

Record t : Type := mk {
  id : string;
  status : OrderStatus;
  payment : option Payment;
  delivery : option DeliveryInfo;
  deliveryMethod : option DeliveryType;
  total : Q;
  assignedDriver : option string;
  createdAt : Z
}.
End Order.

(** ** AdminDashboard: status controls and the print action *)

(** What a click in the dashboard asks for. [updateOrderStatus] and
    [startDelivery] are the functions of the orders context. *)
Inductive Request : Type :=
  | UpdateOrderStatus (id : string) (status : OrderStatus)
  | OpenDeliveryModal (id : string) (minutes : Z)
  | StartDelivery (id : string) (estimatedMinutes : Z).

(** The "Status Update Buttons" block of the order detail panel: the
    requests of the buttons it renders for [selectedOrder]. *)
Definition statusButtons (selectedOrder : Order.t) : list Request :=
  let st := Order.status selectedOrder in
  if bool_decide (st ≠ Completed) && bool_decide (st ≠ Cancelled) then
    (if bool_decide (st = Pending)
     then [UpdateOrderStatus (Order.id selectedOrder) Preparing] else [])
    ++ (if bool_decide (st = Preparing)
        then (if bool_decide (Order.deliveryMethod selectedOrder = Some ByDelivery)
              then [OpenDeliveryModal (Order.id selectedOrder) 30]
              else [UpdateOrderStatus (Order.id selectedOrder) Ready])
        else [])
    ++ (if bool_decide (st = Ready) || bool_decide (st = Delivery)
        then [UpdateOrderStatus (Order.id selectedOrder) Completed] else [])
  else [].

(** The minutes field of the delivery modal:
    [setEstimatedDeliveryMinutes(parseInt(e.target.value) || 30)];
    [parseInt] gives NaN ([None]) on text that starts with no number. *)
Definition onMinutesInput (parsed : option Z) : Z :=
  match parsed with
  | Some n => if bool_decide (n = 0) then 30 else n
  | None => 30
  end.



(** Modelled from the spec: the graph of section 4.1 of the design document,
    pending -> preparing -> {ready | delivery} -> completed, where from
    preparing the next status is delivery for a delivery order and ready
    otherwise, and every status that is not terminal may go to cancelled. *)
Definition successors (type : DeliveryType) (s : OrderStatus) : list OrderStatus :=
  match s with
  | Pending => [Preparing; Cancelled]
  | Preparing => [if bool_decide (type = ByDelivery) then Delivery else Ready;
                  Cancelled]
  | Ready | Delivery => [Completed; Cancelled]
  | Completed | Cancelled => []
  end.

(** Modelled from the spec: "reachable from order.status per the graph"
    (section 4.1), by a path of at most [n] edges; no path of the graph has
    more than three. *)
Fixpoint reachableIn (n : nat) (type : DeliveryType) (from target : OrderStatus)
    : bool :=
  match n with
  | O => false
  | S n' =>
      existsb (λ mid, bool_decide (mid = target) || reachableIn n' type mid target)
              (successors type from)
  end.

(** Modelled from the spec: reachable along the graph of section 4.1. *)
Definition reachable : DeliveryType → OrderStatus → OrderStatus → bool :=
  reachableIn 3.

(** Modelled from the spec: the two errors of section 7 that are raised
    before any store call. *)
Inductive Rejection : Set := InvalidTransition | ValidationError.

(** Modelled from the spec: the check of applyTransition(order, targetStatus)
    (section 4.1): InvalidTransition if the target is not reachable from the
    status of the order, or if that status is terminal. *)
Definition applyTransition (order : DbOrder.t) (targetStatus : OrderStatus)
    : option Rejection :=
  if terminal (DbOrder.status order)
     || negb (reachable (DbOrder.delivery_type order) (DbOrder.status order)
                targetStatus)
  then Some InvalidTransition else None.

(** Modelled from the spec: the check of the order in startDelivery(order,
    estimatedMinutes) (section 4.2): valid only for an order with status
    preparing and delivery type delivery. *)
Definition checkDelivery (order : DbOrder.t) : option Rejection :=
  if bool_decide (DbOrder.status order = Preparing)
     && bool_decide (DbOrder.delivery_type order = ByDelivery)
  then None else Some InvalidTransition.

(** Modelled from the spec: the orders context of index.tsx, which is not
    among the sources, hands [updateOrderStatus] and [startDelivery] to the
    dashboard. By the design document a request is checked against the
    order as it is held (sections 4.1, 4.2), estimated minutes that are not
    positive are a ValidationError, and a rejected request is never sent to
    the store (section 7); an accepted one is the store operation
    updateStatus(orderId, status) or startDelivery(orderId,
    estimatedMinutes) (section 6). The order held is the row of the store.
    Opening the modal touches no order. *)
Definition checkRequest (r : Request) (db : Db) : option Rejection :=
  match r with
  | UpdateOrderStatus id status =>
      orders db !! id ≫= λ order, applyTransition order status
  | OpenDeliveryModal _ _ => None
  | StartDelivery id minutes =>
      if bool_decide (minutes ≤ 0) then Some ValidationError
      else orders db !! id ≫= checkDelivery
  end.

(** Modelled from the spec: the orders context carrying out a request (see
    [checkRequest]); the result is the store afterwards. *)
Definition perform (now : Z) (r : Request) (db : Db) : Db :=
  match checkRequest r db with
  | Some _ => db
  | None =>
      match r with
      | UpdateOrderStatus id status =>
          fst (ordersService.updateStatus id status now db)
      | OpenDeliveryModal _ _ => db
      | StartDelivery id minutes =>
          fst (ordersService.startDelivery id minutes now db)
      end
  end.


(** The status the store holds for an order. *)
Definition statusOf (db : Db) (id : string) : option OrderStatus :=
  DbOrder.status <$> orders db !! id.

(** ** AdminDashboard: new-order detection *)

Inductive NotificationPermission : Set := Default | Granted | Denied.

#[global] Instance NotificationPermission_eq_dec : EqDecision NotificationPermission.
Proof. solve_decision. Defined.

(** playNotificationSound(): the tones it starts, as frequency in Hz and
    length in ms: none while audio alerts are switched off, and none when
    the audio API throws ([audioWorks] false; the error is caught and
    dropped). *)
Definition playNotificationSound (audioAlertsEnabled audioWorks : bool)
    : list (Z * Z) :=
  if audioAlertsEnabled && audioWorks then [(880, 600)] else [].

(** What one run of the detection effect does, in program order. *)
Inductive Effect : Type :=
  | StartTone (hz ms : Z)
  | ShowNotification (newOrder : Order.t) (amount : Q)
  | SetToast (newOrder : Order.t)
  | HideToastAfter (ms : Z).

(** How a run of the effect ends: it returns, having set the ref
    [prevOrderCount], or it throws a TypeError and the ref is as it was. *)
Inductive RunEnd : Set :=
  | Returned (prevOrderCount : nat)
  | Thrown.

(** [newOrder.totalAmount]: the order has no property of that name. Its
    amount is [total] (section 3 of the design document), which every
    other place of the dashboard reads ([order.total.toFixed(2)]), so the
    read gives [undefined]. *)
Definition totalAmount (newOrder : Order.t) : option Q := None.

(** One run of the effect: [prevOrderCount] is the value of the ref before
    the run. With permission granted the body of the OS notification is
    built first, and [newOrder.totalAmount.toFixed(2)] throws when
    [totalAmount] is undefined: the run ends there, after the sound. *)
Definition detectNewOrders (orders : list Order.t)
    (notificationPermission : NotificationPermission)
    (audioAlertsEnabled audioWorks : bool) (prevOrderCount : nat)
    : list Effect * RunEnd :=
  if (prevOrderCount <? length orders)%nat then
    match last orders with
    | Some newOrder =>
        let sound :=
          (λ tone, StartTone tone.1 tone.2)
            <$> playNotificationSound audioAlertsEnabled audioWorks in
        if bool_decide (notificationPermission = Granted) then
          match totalAmount newOrder with
          | Some amount =>
              (sound ++ [ShowNotification newOrder amount; SetToast newOrder;
                         HideToastAfter 5000],
               Returned (length orders))
          | None => (sound, Thrown)
          end
        else
          (sound ++ [SetToast newOrder; HideToastAfter 5000],
           Returned (length orders))
    | None => ([], Returned (length orders))
    end
  else ([], Returned (length orders)).

(** A render, as far as the effect reads it: [orders],
    [notificationPermission] and [audioAlertsEnabled]. *)
Record Render : Type := mkRender {
  r_orders : list Order.t;
  r_permission : NotificationPermission;
  r_audio : bool
}.

(** The runs of the effect over time: React runs it after every render in
    which one of its dependencies has changed, each run with the values of
    that render. A run that throws is the last: the error takes the
    component down. *)
Fixpoint observe (audioWorks : bool) (prevOrderCount : nat)
    (renders : list Render) : list Effect :=
  match renders with
  | [] => []
  | render :: rest =>
      match detectNewOrders (r_orders render) (r_permission render)
              (r_audio render) audioWorks prevOrderCount with
      | (effs, Returned count) => effs ++ observe audioWorks count rest
      | (effs, Thrown) => effs
      end
  end.

Definition isToast (e : Effect) : bool :=
  match e with SetToast _ => true | _ => false end.

Definition isOsNotification (e : Effect) : bool :=
  match e with ShowNotification _ _ => true | _ => false end.

(** ** AdminDashboard: analytics ([stats]) *)

Definition msPerDay : Z := 86400000.

(** [Date.prototype.setHours(h, m, s, ms)] on the instant [t], for a local
    time that is [tz] milliseconds ahead of UTC throughout. *)
Definition setHours (tz h m s ms : Z) (t : Z) : Z :=
  ((t + tz) `div` msPerDay) * msPerDay + (((h * 60 + m) * 60 + s) * 1000 + ms) - tz.

Record DateRange : Type := mkRange {
  range_start : option Z;
  range_end : option Z
}.

Record Stats : Type := mkStats {
  revenue : Q;
  activeCount : nat;
  orderCount : nat;
  btwAmount : Q;
  netRevenue : Q;
  avgOrderValue : Q
}.

Section Analytics.
Variable tz : Z.
Variable customDateRange : DateRange.

Definition startDate : option Z :=
  setHours tz 0 0 0 0 <$> range_start customDateRange.

Definition endDate : option Z :=
  setHours tz 23 59 59 999 <$> range_end customDateRange.

Definition isPaid (o : Order.t) : bool :=
  bool_decide (Order.pstatus <$> Order.payment o = Some Paid)
  || bool_decide (Order.method <$> Order.payment o = Some Cash).

Definition paidOrders (orders : list Order.t) : list Order.t :=
  List.filter isPaid orders.

Definition inRange (o : Order.t) : bool :=
  match startDate, endDate with
  | Some s, Some e =>
      bool_decide (Order.status o = Completed)
      && (s <=? Order.createdAt o) && (Order.createdAt o <=? e)
  | _, _ => bool_decide (Order.status o = Completed)
  end.

Definition filteredOrders (orders : list Order.t) : list Order.t :=
  List.filter inRange (paidOrders orders).

Definition computeBtw (revenue : Q) : Q := (revenue * (9 / 109))%Q.

Definition stats (orders : list Order.t) : Stats :=
  let revenue := fold_left (λ acc o, acc + Order.total o)%Q (filteredOrders orders) 0%Q in
  let orderCount := length (filteredOrders orders) in
  let avgOrderValue :=
    if (0 <? orderCount)%nat then (revenue / inject_Z (Z.of_nat orderCount))%Q else 0%Q in
  let btwAmount := computeBtw revenue in
  let netRevenue := (revenue - btwAmount)%Q in
  let activeOrders :=
    List.filter (λ o, negb (bool_decide (Order.status o ∈ [Completed; Cancelled])))
                (paidOrders orders) in
  mkStats revenue (length activeOrders) orderCount btwAmount netRevenue avgOrderValue.
End Analytics.

(** The tax lines of the receipt preview:
    [printingOrder.total * 0.91] and [printingOrder.total * 0.09]. *)
Definition receiptSubtotal (total : Q) : Q := (total * (91 # 100))%Q.
Definition receiptBtw (total : Q) : Q := (total * (9 # 100))%Q.

(** ** Binary64 arithmetic *)

(** The integer nearest to [q], the even one of two that are equally near. *)
Definition roundEven (q : Q) : Z :=
  let f := Qfloor q in
  match ((q - inject_Z f) ?= (1 # 2))%Q with
  | Lt => f
  | Gt => f + 1
  | Eq => if Z.even f then f else f + 1
  end.

(** The exponent [e] with [2^e <= q < 2^(e+1)], for [q > 0]. *)
Definition ilog2 (q : Q) : Z :=
  let e := Z.log2 (Qnum q) - Z.log2 (Zpos (Qden q)) in
  if Qle_bool (Qpower 2 e) q then e else e - 1.

(** The value a JS number takes for the exact result [q] of an operation:
    [q] rounded to the nearest binary64 number, ties to even, with 53
    significant bits and denormals below 2^-1022. Results beyond the
    largest finite number (overflow to Infinity) are outside the model. *)
Definition binary64 (q : Q) : Q :=
  if Qeq_bool q 0 then 0%Q
  else
    let a := Qabs q in
    let ulp := Qpower 2 (Z.max (ilog2 a) (-1022) - 52) in
    let m := inject_Z (roundEven (a / ulp)) in
    Qred (if Qle_bool 0 q then m * ulp else - (m * ulp))%Q.

(** [revenue * (9 / 109)] and [revenue - btwAmount] as the JS engine
    evaluates them, every operation rounded. *)
Definition btwAmount64 (revenue : Q) : Q :=
  binary64 (revenue * binary64 (9 / 109)).

Definition netRevenue64 (revenue : Q) : Q :=
  binary64 (revenue - btwAmount64 revenue).

(** ** Notions the properties are stated with *)

(** What one order adds to the load of a driver: 1 for the driver it is
    assigned to, 0 for every other. *)
Definition contribution (o : DbOrder.t) (driver : string) : Z :=
  if bool_decide (DbOrder.assigned_driver_id o = Some driver) then 1 else 0.

Definition contributions (o : DbOrder.t) (ds : list string) : Z :=
  foldr (λ d acc, contribution o d + acc) 0 ds.

Definition loadOf (db : Db) (driver : string) : option Z :=
  DbDriver.active_deliveries <$> drivers db !! driver.

Definition driverStatusOf (db : Db) (driver : string) : option DriverStatus :=
  DbDriver.status <$> drivers db !! driver.

(** The status rule of the design document for one driver: offline, or
    busy exactly when there are active deliveries. *)
Definition derivedStatus (d : DbDriver.t) : Prop :=
  DbDriver.status d = Offline
  ∨ (DbDriver.status d = Busy ↔ 0 < DbDriver.active_deliveries d).

#[global] Instance derivedStatus_dec d : Decision (derivedStatus d).
Proof. unfold derivedStatus. apply _. Defined.

#[global] Instance created_desc_refl : Reflexive created_desc.
Proof. intros a. unfold created_desc. lia. Qed.

Definition toasts (effs : list Effect) : nat := length (List.filter isToast effs).
Definition osNotifications (effs : list Effect) : nat :=
  length (List.filter isOsNotification effs).

(** The number of observations at which the collection is longer than at
    the one before. *)
Fixpoint growths (prevCount : nat) (renders : list Render) : nat :=
  match renders with
  | [] => 0
  | render :: rest =>
      ((if prevCount <? length (r_orders render) then 1 else 0)
       + growths (length (r_orders render)) rest)%nat
  end.

(** The eligibility rule in the words of the design document. *)
Definition eligible (tz : Z) (range : DateRange) (o : Order.t) : Prop :=
  (Order.pstatus <$> Order.payment o = Some Paid
   ∨ Order.method <$> Order.payment o = Some Cash)
  ∧ Order.status o = Completed
  ∧ match range_start range, range_end range with
    | Some s, Some e =>
        setHours tz 0 0 0 0 s ≤ Order.createdAt o ≤ setHours tz 23 59 59 999 e
    | _, _ => True
    end.

#[global] Instance eligible_dec tz range o : Decision (eligible tz range o).
Proof.
  unfold eligible. destruct (range_start range), (range_end range); apply _.
Defined.

Definition sumQ (l : list Q) : Q := foldr Qplus 0%Q l.

(** ** Sample data *)

Definition sampleOrder (id : string) (st : OrderStatus) (ty : DeliveryType)
    (created : Z) : DbOrder.t :=
  DbOrder.mk id "Eleni" 20 0 20 st Card Paid ty None None None created created.

Definition sampleDriver (id : string) (st : DriverStatus) (load : Z) : DbDriver.t :=
  DbDriver.mk id "Nikos" "0612345678" st load 0 0.

Definition sampleDb : Db :=
  mkDb (<["A1" := sampleOrder "A1" Completed ByDelivery 1000]>
        (<["B2" := sampleOrder "B2" Pending ByPickup 2000]> ∅))
       (<["D1" := sampleDriver "D1" Offline 0]>
        (<["D2" := sampleDriver "D2" Busy 3]> ∅)).

Definition sampleView (id : string) (st : OrderStatus)
    (dm : option DeliveryType) : Order.t :=
  Order.mk id st (Some (Order.mkPayment Card Paid)) None dm 20 None 1000.

Definition paidOrder (id : string) (st : OrderStatus) (total : Q) (created : Z)
    : Order.t :=
  Order.mk id st (Some (Order.mkPayment Ideal Paid))
           (Some (Order.mkDelivery ByPickup 0)) (Some ByPickup) total None created.

Definition cashOrder (id : string) (st : OrderStatus) (total : Q) (created : Z)
    : Order.t :=
  Order.mk id st (Some (Order.mkPayment Cash Unpaid))
           (Some (Order.mkDelivery ByPickup 0)) (Some ByPickup) total None created.

(** Four orders around the day that starts at 86400000 (UTC): one the day
    before, two on the day (the second in its last millisecond), one still
    in preparation. *)
Definition sampleOrders : list Order.t :=
  [ paidOrder "P1" Completed 40 86399999;
    paidOrder "P2" Completed 59 86400000;
    cashOrder "P3" Completed 50 172799999;
    cashOrder "P4" Preparing 70 100000000 ].

Definition sampleDay : DateRange := mkRange (Some 90000000) (Some 90000000).

(** ** Notions for the further properties *)

(** A sequence of calls of updatePaymentStatus for one order, each with its
    status, transaction id and time. *)
Definition paymentUpdates (id : string)
    (calls : list (PaymentStatus * option string * Z))
    (tbl : gmap string PaidOrder.t) : gmap string PaidOrder.t :=
  fold_left (λ t '(ps, txn, now), (ordersService.updatePaymentStatus id ps txn now t).1)
            calls tbl.

(** The time of the last call that set the status to paid, if any. *)
Definition lastPaid (calls : list (PaymentStatus * option string * Z))
    (before : option Z) : option Z :=
  fold_left (λ acc '(ps, _, now), if bool_decide (ps = Paid) then Some now else acc)
            calls before.

(** The last transaction id given that was not empty, if any. *)
Definition lastTransaction (calls : list (PaymentStatus * option string * Z))
    (before : option string) : option string :=
  fold_left (λ acc '(_, txn, _), if truthy txn then txn else acc) calls before.

(** ** settingsService (supabaseClient.ts) *)

(** A row of restaurant_settings. The table is a map from setting_key, the
    column [upsert] names as the unique one ([onConflict: 'setting_key']),
    to the rest of the row. A setting value is a JS object: a finite map
    from property names to values of some type [V]. *)
Module DbSettingRow.
Record t (V : Type) : Type := mk {
  id : string;
  setting_value : gmap string V;
  created_at : Z;
  updated_at : Z
}.
Arguments mk {V} _ _ _ _.
Arguments id {V} _.
Arguments setting_value {V} _.
Arguments created_at {V} _.
Arguments updated_at {V} _.
End DbSettingRow.

Module settingsService.

(** getAll(): the rows folded into one object, key by key. *)
Definition getAll {V : Type} (tbl : gmap string (DbSettingRow.t V))
    : gmap string (gmap string V) :=
  foldl (λ settings row, <[row.1 := DbSettingRow.setting_value row.2]> settings)
        ∅ (map_to_list tbl).

(** get(key): the value, or null ([None]) when no row has the key. *)
Definition get {V : Type} (key : string) (tbl : gmap string (DbSettingRow.t V))
    : option (gmap string V) :=
  DbSettingRow.setting_value <$> tbl !! key.

(** upsert(key, value): [newId] is the id the store gives a row it has to
    insert. *)
Definition upsert {V : Type} (key : string) (value : gmap string V)
    (newId : string) (now : Z) (tbl : gmap string (DbSettingRow.t V))
    : gmap string (DbSettingRow.t V) * Result (DbSettingRow.t V) :=
  let row :=
    match tbl !! key with
    | Some old =>
        DbSettingRow.mk (DbSettingRow.id old) value (DbSettingRow.created_at old) now
    | None => DbSettingRow.mk newId value now now
    end in
  (<[key := row]> tbl, Ok row).

(** The body shared by updateGeneral, updateDeliveryConfig,
    updateDeliveryZones, updateNotifications and updatePayments:
    [upsert(key, { ...current, ...settings })] with
    [current = await this.get(key) || {}]. The object [settings] holds the
    properties the caller gave a value. *)
Definition updateMerged {V : Type} (key : string) (settings : gmap string V)
    (newId : string) (now : Z) (tbl : gmap string (DbSettingRow.t V))
    : gmap string (DbSettingRow.t V) * Result (DbSettingRow.t V) :=
  let current := default ∅ (get key tbl) in
  upsert key (settings ∪ current) newId now tbl.

Definition updateGeneral {V : Type} := @updateMerged V "general".
Definition updateDeliveryConfig {V : Type} := @updateMerged V "delivery_config".
Definition updateDeliveryZones {V : Type} := @updateMerged V "delivery_zones".
Definition updateNotifications {V : Type} := @updateMerged V "notifications".
Definition updatePayments {V : Type} := @updateMerged V "payments".

(** updateOpeningHours(hours) *)
Definition updateOpeningHours {V : Type} (hours : gmap string V) :=
  upsert "opening_hours" hours.

End settingsService.

(** ** AdminDashboard: the chart data of [stats] *)

(** [Date.prototype.getHours()] and [getDay()] (0 = Sunday; 1 January 1970
    was a Thursday) for a local time [tz] milliseconds ahead of UTC. *)
Definition getHours (tz t : Z) : Z := ((t + tz) `mod` msPerDay) `div` 3600000.

Definition getDay (tz t : Z) : Z := (((t + tz) `div` msPerDay) + 4) `mod` 7.

(** [const arr = Array(n).fill(0); l.forEach(o => { arr[bucket(o)]++ })] *)
Definition histogram (n : nat) (bucket : Order.t → Z) (l : list Order.t)
    : list nat :=
  foldl (λ arr o, alter S (Z.to_nat (bucket o)) arr) (replicate n 0%nat) l.

(** [Math.max(...arr)] for an array of counts that is not empty. *)
Definition maxOf (arr : list nat) : nat := foldr Nat.max 0%nat arr.

(** [arr.indexOf(x)]: the first index that holds [x], -1 when none does. *)
Fixpoint indexOf (x : nat) (arr : list nat) : Z :=
  match arr with
  | [] => -1
  | y :: rest =>
      if bool_decide (y = x) then 0
      else let i := indexOf x rest in if i <? 0 then -1 else i + 1
  end.

Record DeliveryMethods : Type := mkDeliveryMethods {
  dm_delivery : nat;
  dm_pickup : nat
}.

Record PaymentMethods : Type := mkPaymentMethods {
  pm_card : nat;
  pm_cash : nat;
  pm_ideal : nat
}.

Section Charts.
Variable tz : Z.
Variable customDateRange : DateRange.

Definition hourlyOrders (orders : list Order.t) : list nat :=
  histogram 24 (λ o, getHours tz (Order.createdAt o))
            (filteredOrders tz customDateRange orders).

Definition dayOfWeek (orders : list Order.t) : list nat :=
  histogram 7 (λ o, getDay tz (Order.createdAt o))
            (filteredOrders tz customDateRange orders).

Definition deliveryMethods (orders : list Order.t) : DeliveryMethods :=
  foldl (λ acc o,
           if bool_decide (Order.type <$> Order.delivery o = Some ByDelivery)
           then mkDeliveryMethods (S (dm_delivery acc)) (dm_pickup acc)
           else mkDeliveryMethods (dm_delivery acc) (S (dm_pickup acc)))
        (mkDeliveryMethods 0 0) (filteredOrders tz customDateRange orders).

Definition paymentMethods (orders : list Order.t) : PaymentMethods :=
  foldl (λ acc o,
           if bool_decide (Order.method <$> Order.payment o = Some Card)
           then mkPaymentMethods (S (pm_card acc)) (pm_cash acc) (pm_ideal acc)
           else if bool_decide (Order.method <$> Order.payment o = Some Cash)
           then mkPaymentMethods (pm_card acc) (S (pm_cash acc)) (pm_ideal acc)
           else if bool_decide (Order.method <$> Order.payment o = Some Ideal)
           then mkPaymentMethods (pm_card acc) (pm_cash acc) (S (pm_ideal acc))
           else acc)
        (mkPaymentMethods 0 0 0) (filteredOrders tz customDateRange orders).

Definition peakHour (orders : list Order.t) : Z :=
  indexOf (maxOf (hourlyOrders orders)) (hourlyOrders orders).

Definition peakOrders (orders : list Order.t) : nat :=
  maxOf (hourlyOrders orders).
End Charts.

(** The number of elements of a list that pass a test. *)
Definition countIf {A : Type} (f : A → bool) (l : list A) : nat :=
  length (List.filter f l).

(** ** AdminDashboard: revenue per day and the date range controls *)

Inductive ReportRange : Set := Daily | Weekly | Monthly.

Definition daysToShow (reportRange : ReportRange) : nat :=
  match reportRange with
  | Daily => 7
  | Weekly => 7
  | Monthly => 30
  end.

(** One entry of [dailyRevenue]; the day is kept as the instant of its
    local midnight (the code formats it as day and month). *)
Record DayRevenue : Type := mkDayRevenue {
  dr_date : Z;
  dr_revenue : Q;
  dr_orders : nat
}.

(** [d.setDate(d.getDate() - n)] for a local time at a fixed offset from
    UTC: the same time of day, [n] days earlier. *)
Definition daysBefore (n : Z) (t : Z) : Z := t - n * msPerDay.

(** The loop [for (let i = daysToShow - 1; i >= 0; i--)] of [stats]; [now]
    is the value of [new Date()]. *)
Definition dailyRevenue (tz now : Z) (reportRange : ReportRange)
    (orders : list Order.t) : list DayRevenue :=
  (λ i : nat,
     let date := setHours tz 0 0 0 0 (daysBefore (Z.of_nat i) now) in
     let dayOrders :=
       List.filter
         (λ o, bool_decide (setHours tz 0 0 0 0 (Order.createdAt o) = date)
               && bool_decide (Order.status o = Completed))
         (paidOrders orders) in
     mkDayRevenue date
       (fold_left (λ acc o, acc + Order.total o)%Q dayOrders 0%Q)
       (length dayOrders))
  <$> reverse (seq 0 (daysToShow reportRange)).

(** The initial value of [customDateRange] and the four quick-select
    buttons (today, 7 days, 30 days, everything). *)
Definition initialDateRange (now : Z) : DateRange :=
  mkRange (Some (daysBefore 7 now)) (Some now).

Definition rangeToday (now : Z) : DateRange := mkRange (Some now) (Some now).
Definition rangeSevenDays (now : Z) : DateRange :=
  mkRange (Some (daysBefore 7 now)) (Some now).
Definition rangeThirtyDays (now : Z) : DateRange :=
  mkRange (Some (daysBefore 30 now)) (Some now).
Definition rangeAll : DateRange := mkRange None None.

(** The date inputs: [new Date(e.target.value)] of a date without a time is
    midnight UTC of that date; [day] counts the days since 1 January
    1970, and an input that was cleared gives null. *)
Definition dateInput (day : option Z) : option Z := (λ d, d * msPerDay) <$> day.

Definition setRangeStart (day : option Z) (prev : DateRange) : DateRange :=
  mkRange (dateInput day) (range_end prev).

Definition setRangeEnd (day : option Z) (prev : DateRange) : DateRange :=
  mkRange (range_start prev) (dateInput day).

(** The local calendar day of an instant, as days since 1 January 1970. *)
Definition localDay (tz t : Z) : Z := (t + tz) `div` msPerDay.

(** The test of one day's bucket, on all orders. *)
Definition onDay (tz D : Z) (o : Order.t) : bool :=
  isPaid o && (bool_decide (localDay tz (Order.createdAt o) = D)
               && bool_decide (Order.status o = Completed)).

(** ** AdminDashboard: the order list ([processedOrders]) *)

Inductive AdminTab : Set :=
  | TabOrders | TabHistory | TabAnalytics | TabMenu | TabReservations
  | TabSettings | TabContent.

Inductive SortKey : Set := ByDate | ByStatus | ByAmount.

Inductive SortOrder : Set := Asc | Desc.

#[global] Instance AdminTab_eq_dec : EqDecision AdminTab.
Proof. solve_decision. Defined.
#[global] Instance SortKey_eq_dec : EqDecision SortKey.
Proof. solve_decision. Defined.
#[global] Instance SortOrder_eq_dec : EqDecision SortOrder.
Proof. solve_decision. Defined.

(** [Array.prototype.sort(compare)]: a stable sort; [x] goes before the
    first element it does not compare greater than. *)
Fixpoint insertBy {A : Type} (compare : A → A → Q) (x : A) (l : list A) : list A :=
  match l with
  | [] => [x]
  | y :: rest =>
      if Qle_bool (compare x y) 0 then x :: y :: rest
      else y :: insertBy compare x rest
  end.

Definition sortBy {A : Type} (compare : A → A → Q) (l : list A) : list A :=
  foldr (insertBy compare) [] l.

Section ProcessedOrders.
(** The search test of the order list,
    [o.customer.name.toLowerCase().includes(searchTerm.toLowerCase())
     || o.id.includes(searchTerm)], for the search term typed. *)
Variable matchesSearch : Order.t → bool.
Variable activeTab : AdminTab.
(** [statusFilter]: a status, or ['all'] ([None]). *)
Variable statusFilter : option OrderStatus.
Variable sortKey : SortKey.
Variable sortDirection : SortOrder.

Definition matchesTab (o : Order.t) : bool :=
  if bool_decide (activeTab = TabOrders)
  then negb (bool_decide (Order.status o ∈ [Completed; Cancelled]))
  else if bool_decide (activeTab = TabHistory)
  then bool_decide (Order.status o ∈ [Completed; Cancelled])
  else true.

Definition matchesStatus (o : Order.t) : bool :=
  match statusFilter with
  | None => true
  | Some s => bool_decide (Order.status o = s)
  end.

Definition compareOrders (a b : Order.t) : Q :=
  let comparison :=
    match sortKey with
    | ByDate => inject_Z (Order.createdAt a - Order.createdAt b)
    | ByAmount => (Order.total a - Order.total b)%Q
    | ByStatus => 0%Q
    end in
  if bool_decide (sortDirection = Desc) then (- comparison)%Q else comparison.

Definition processedOrders (orders : list Order.t) : list Order.t :=
  sortBy compareOrders
    (List.filter (λ o, matchesSearch o && matchesTab o && matchesStatus o)
       (List.filter isPaid orders)).
End ProcessedOrders.




(** ** OrderConfirmationView *)

(** The circle of a step of the timeline: green (done), blue and pulsing
    (current), or grey (not reached). The mark inside has the colour of the
    circle. *)
Inductive StepLook : Set := StepDone | StepCurrent | StepWaiting.

#[global] Instance StepLook_eq_dec : EqDecision StepLook.
Proof. solve_decision. Defined.

(** A step of the timeline as it is drawn: whether its row is dimmed
    ([opacity-50]), the class of its circle, and whether the mark in the
    circle is the tick (the icon of the step otherwise). *)
Record Step : Type := mkStep {
  dimmed : bool;
  circle : StepLook;
  ticked : bool
}.

#[global] Instance Step_eq_dec : EqDecision Step.
Proof. solve_decision. Defined.

(** [['ready', 'delivery', 'completed'].includes(order.status)] *)
Definition prepared (status : OrderStatus) : bool :=
  bool_decide (status ∈ [Ready; Delivery; Completed]).

(** Step 1, "order received", is drawn done for every order. *)
Definition stepReceived : Step := mkStep false StepDone true.

(** Step 2, "preparing". *)
Definition stepPreparing (status : OrderStatus) : Step :=
  mkStep (bool_decide (status ∈ [Pending]))
         (if bool_decide (status = Preparing) then StepCurrent
          else if prepared status then StepDone
          else StepWaiting)
         (prepared status).

(** Step 3, "ready" or "out for delivery". *)
Definition stepHandover (status : OrderStatus) (type : DeliveryType) : Step :=
  mkStep (negb (prepared status))
         (if bool_decide (status = Ready) && bool_decide (type = ByPickup)
             || bool_decide (status = Delivery)
          then StepCurrent
          else if prepared status && bool_decide (type = ByDelivery)
          then StepDone
          else if bool_decide (status = Completed) && bool_decide (type = ByPickup)
          then StepDone
          else StepWaiting)
         (prepared status && negb (bool_decide (status = Delivery))).

(** Step 4, "completed". *)
Definition stepCompleted (status : OrderStatus) : Step :=
  mkStep (bool_decide (status ≠ Completed))
         (if bool_decide (status = Completed) then StepDone else StepWaiting)
         (bool_decide (status = Completed)).

Definition timeline (status : OrderStatus) (type : DeliveryType) : list Step :=
  [stepReceived; stepPreparing status; stepHandover status type;
   stepCompleted status].

(** The effect that follows the order: [order] is the state of the view,
    the result its next state and the status the banner is raised for, if
    it is raised. An order that is not in the collection leaves the state
    as it is. *)
Definition followOrder (orders : list Order.t) (orderId : string)
    (order : option Order.t) : option Order.t * option OrderStatus :=
  match List.find (λ o, bool_decide (Order.id o = orderId)) orders with
  | Some foundOrder =>
      (Some foundOrder,
       match order with
       | Some shown =>
           if bool_decide (Order.status shown ≠ Order.status foundOrder)
           then Some (Order.status shown) else None
       | None => None
       end)
  | None => (order, None)
  end.

(** The state of the view after a run of renders, and the banners raised. *)
Fixpoint followAll (orderId : string) (order : option Order.t)
    (renders : list (list Order.t)) : option Order.t * list OrderStatus :=
  match renders with
  | [] => (order, [])
  | orders :: rest =>
      let '(order', banner) := followOrder orders orderId order in
      let '(final, banners) := followAll orderId order' rest in
      (final, from_option (λ s, [s]) [] banner ++ banners)
  end.



(** ** AdminDashboard: items sold and revenue per category *)

(** An item of an order and an entry of the menu, with the fields [stats]
    reads. *)
Module Item.
Record t : Type := mk {
  id : string;
  name : string;
  price : Q;
  quantity : Z
}.
End Item.

Module MenuEntry.
Record t : Type := mk {
  id : string;
  category : string
}.
End MenuEntry.

(** [obj[key] = (obj[key] || 0) + amount] on an object used as a table of
    sums. The object is the list of its entries in the order
    [Object.entries] gives them, which is the order in which the keys were
    first written (for keys that are not array indices, as the names of
    dishes and categories are). *)
Fixpoint addTo {V : Type} (plus : V → V → V) (zero : V) (key : string)
    (amount : V) (obj : list (string * V)) : list (string * V) :=
  match obj with
  | [] => [(key, plus zero amount)]
  | (k, v) :: rest =>
      if bool_decide (k = key) then (k, plus v amount) :: rest
      else (k, v) :: addTo plus zero key amount rest
  end.

(** The property names every object inherits from Object.prototype. Under
    such a name [itemCounts[i.name]] is not a sum: what is read there is a
    function or an object, and adding a quantity to it gives a string. *)
Definition inheritedNames : list string :=
  ["constructor"; "hasOwnProperty"; "isPrototypeOf"; "propertyIsEnumerable";
   "toLocaleString"; "toString"; "valueOf"; "__proto__"; "__defineGetter__";
   "__defineSetter__"; "__lookupGetter__"; "__lookupSetter__"].

Definition isDigit (c : Ascii.ascii) : bool :=
  (48 <=? Z.of_nat (Ascii.nat_of_ascii c)) && (Z.of_nat (Ascii.nat_of_ascii c) <=? 57).

(** A name written with digits only. The array indices are among these
    names: [Object.entries] lists them first, in numeric order, whenever
    they were written. *)
Fixpoint digitsOnly (s : string) : bool :=
  match s with
  | EmptyString => true
  | String c rest => isDigit c && digitsOnly rest
  end.

(** The names under which an object used as a table behaves as the list of
    its entries in the order of first writing ([addTo]). *)
Definition plainName (name : string) : bool :=
  negb (digitsOnly name) && negb (bool_decide (name ∈ inheritedNames)).

(** The sums [addTo] keeps by name while it goes through the items. *)
Definition sumsByName (items : list Item.t) : list (string * Z) :=
  foldl (λ counts i, addTo Z.add 0 (Item.name i) (Item.quantity i) counts) [] items.

(** [filteredOrders.forEach(o => o.items.forEach(i => ...))]: [items] are
    the items of the counted orders, order after order. The table is given
    for items with plain names; for other names (see [plainName]) it is
    not modelled, which is [None]. *)
Definition itemCounts (items : list Item.t) : option (list (string * Z)) :=
  if forallb (λ i, plainName (Item.name i)) items then Some (sumsByName items)
  else None.

Definition categoryRevenue (menuItems : list MenuEntry.t) (items : list Item.t)
    : list (string * Q) :=
  foldl (λ revenue i,
           match List.find (λ m, bool_decide (MenuEntry.id m = Item.id i)) menuItems with
           | Some menuItem =>
               addTo Qplus 0%Q (MenuEntry.category menuItem)
                     (Item.price i * inject_Z (Item.quantity i))%Q revenue
           | None => revenue
           end) [] items.

(** [Object.entries(itemCounts).sort((a, b) => b[1] - a[1]).slice(0, 5)] *)
Definition topItems (items : list Item.t) : option (list (string * Z)) :=
  (λ counts, take 5 (sortBy (λ a b, inject_Z (b.2 - a.2)) counts))
    <$> itemCounts items.

(** [Object.values(itemCounts).reduce((a, b) => a + b, 0)] *)
Definition totalDishes (items : list Item.t) : option Z :=
  (λ counts, foldl Z.add 0 (snd <$> counts)) <$> itemCounts items.

(** The names in the order in which they first occur; [seen] are the names
    met before. *)
Fixpoint firstSeen (seen names : list string) : list string :=
  match names with
  | [] => []
  | name :: rest =>
      if bool_decide (name ∈ seen) then firstSeen seen rest
      else name :: firstSeen (seen ++ [name]) rest
  end.

(** The quantity sold under a name, and the sum kept under a key. *)
Definition soldOf (name : string) (items : list Item.t) : Z :=
  foldr (λ i acc, if bool_decide (Item.name i = name) then Item.quantity i + acc else acc)
        0 items.

Definition keptFor (key : string) (obj : list (string * Z)) : Z :=
  foldr (λ e acc, if bool_decide (e.1 = key) then e.2 + acc else acc) 0 obj.

(** The items whose id the menu still has. *)
Definition onMenu (menuItems : list MenuEntry.t) (i : Item.t) : bool :=
  bool_decide (Item.id i ∈ MenuEntry.id <$> menuItems).

Definition sampleItems : list Item.t :=
  [ Item.mk "m1" "Gyros" (25 # 2) 2; Item.mk "m2" "Souvlaki" 14 1;
    Item.mk "m1" "Gyros" (25 # 2) 1; Item.mk "gone" "Moussaka" 16 4 ].

Definition sampleMenu : list MenuEntry.t :=
  [ MenuEntry.mk "m1" "grill"; MenuEntry.mk "m2" "grill" ].

(** ** contactService (supabaseClient.ts) *)

Inductive MessageStatus : Set := Unread | Read | Replied | Archived.

#[global] Instance MessageStatus_eq_dec : EqDecision MessageStatus.
Proof. solve_decision. Defined.

Module ContactMessage.
Record t : Type := mk {
  id : string;
  name : string;
  email : string;
  message : string;
  status : MessageStatus;
  admin_notes : option string;
  created_at : Z;
  updated_at : Z
}.
End ContactMessage.

Module contactService.

(** submit({ name, email, message }); the store chooses the id and stamps
    the row. *)
Definition submit (id name email message : string) (now : Z)
    (tbl : gmap string ContactMessage.t)
    : gmap string ContactMessage.t * Result ContactMessage.t :=
  match tbl !! id with
  | Some _ => (tbl, StoreError)
  | None =>
      let row := ContactMessage.mk id name email message Unread None now now in
      (<[id := row]> tbl, Ok row)
  end.

(** getUnreadCount(): [count || 0] *)
Definition getUnreadCount (tbl : gmap string ContactMessage.t) : nat :=
  length (List.filter (λ m, bool_decide (ContactMessage.status m = Unread)) (rows tbl)).

(** updateStatus(id, status) *)
Definition updateStatus (id : string) (status : MessageStatus) (now : Z)
    (tbl : gmap string ContactMessage.t)
    : gmap string ContactMessage.t * Result ContactMessage.t :=
  update_single
    (λ m, ContactMessage.mk (ContactMessage.id m) (ContactMessage.name m)
            (ContactMessage.email m) (ContactMessage.message m) status
            (ContactMessage.admin_notes m) (ContactMessage.created_at m) now)
    id tbl.

(** addNotes(id, notes) *)
Definition addNotes (id : string) (notes : string) (now : Z)
    (tbl : gmap string ContactMessage.t)
    : gmap string ContactMessage.t * Result ContactMessage.t :=
  update_single
    (λ m, ContactMessage.mk (ContactMessage.id m) (ContactMessage.name m)
            (ContactMessage.email m) (ContactMessage.message m)
            (ContactMessage.status m) (Some notes)
            (ContactMessage.created_at m) now)
    id tbl.

(** delete(id) *)
Definition delete (id : string) (tbl : gmap string ContactMessage.t)
    : gmap string ContactMessage.t :=
  base.delete id tbl.

End contactService.

Definition sampleMessages : gmap string ContactMessage.t :=
  <["c1" := ContactMessage.mk "c1" "Anna" "anna@example.org" "Open on Monday?"
              Unread None 10 10]>
  (<["c2" := ContactMessage.mk "c2" "Piet" "piet@example.org" "Thanks!"
               Read None 20 25]> ∅).

(** Four drivers: one offline without load, three that are not offline
    with loads 3, 0 and 1. *)
Definition sampleFleet : Db :=
  mkDb ∅
       (<["D1" := sampleDriver "D1" Offline 0]>
        (<["D2" := sampleDriver "D2" Busy 3]>
         (<["D3" := sampleDriver "D3" Available 0]>
          (<["D4" := sampleDriver "D4" Busy 1]> ∅)))).

(** Items and notes of the two orders of [sampleDb]. *)
Definition sampleRelations : Relations :=
  mkRelations
    [ OrderItem.mk "i1" "A1" (Some "m1") "Gyros" (25 # 2) 2 25 None;
      OrderItem.mk "i2" "B2" (Some "m2") "Souvlaki" 14 1 14 (Some "no onions");
      OrderItem.mk "i3" "B2" None "Moussaka" 16 1 16 None ]
    [ StaffNote.mk "n1" "B2" "called the customer" "Maria" 2500 ].

(** A settings table for the examples. *)
Definition sampleSettings : gmap string (DbSettingRow.t string) :=
  <["general" := DbSettingRow.mk "s1"
       (<["name" := "Greek Irini"]> (<["phone" := "0615869325"]> ∅)) 10 10]>
  (<["opening_hours" := DbSettingRow.mk "s2"
       (<["monday" := "closed"]> (<["tuesday" := "12-22"]> ∅)) 10 10]> ∅).

(** * Properties *)

(** ** The store primitive *)

Section UpdateSingle.
Context {Row : Type}.
Implicit Types (patch : Row → Row) (tbl : gmap string Row).

Lemma update_single_hit patch id tbl r :
  tbl !! id = Some r →
  update_single patch id tbl = (<[id := patch r]> tbl, Ok (patch r)).
Proof. intros Hr. unfold update_single. by rewrite Hr. Qed.

Lemma update_single_miss patch id tbl :
  tbl !! id = None → update_single patch id tbl = (tbl, StoreError).
Proof. intros Hr. unfold update_single. by rewrite Hr. Qed.

Lemma update_single_other patch id id' tbl :
  id ≠ id' → (update_single patch id tbl).1 !! id' = tbl !! id'.
Proof.
  intros Hne. unfold update_single.
  destruct (tbl !! id); simpl; [by rewrite lookup_insert_ne | done].
Qed.

Lemma update_single_ok_iff patch id tbl :
  is_ok (update_single patch id tbl).2 = true ↔ is_Some (tbl !! id).
Proof.
  unfold update_single. destruct (tbl !! id) as [r|]; simpl.
  - split; [eauto | done].
  - split; [done | by intros [? ?]].
Qed.
End UpdateSingle.

(** ** Order status: store operation and dashboard controls *)

Lemma updateStatus_hit id target now db row :
  orders db !! id = Some row →
  ordersService.updateStatus id target now db
  = (mkDb (<[id := DbOrder.set_status target now row]> (orders db)) (drivers db),
     Ok (DbOrder.set_status target now row)).
Proof.
  intros Hrow. unfold ordersService.updateStatus, on_orders.
  by rewrite (update_single_hit _ _ _ _ Hrow).
Qed.

Lemma updateStatus_miss id target now db :
  orders db !! id = None →
  ordersService.updateStatus id target now db = (db, StoreError).
Proof.
  intros Hrow. unfold ordersService.updateStatus, on_orders.
  rewrite (update_single_miss _ _ _ Hrow). by destruct db.
Qed.

Lemma statusButtons_terminal selectedOrder :
  terminal (Order.status selectedOrder) = true → statusButtons selectedOrder = [].
Proof.
  unfold statusButtons. by destruct (Order.status selectedOrder).
Qed.

(** The controls follow the graph of the design document: from a status
    that is not terminal exactly one button is rendered. *)
Lemma statusButtons_live selectedOrder :
  terminal (Order.status selectedOrder) = false →
  statusButtons selectedOrder =
    [match Order.status selectedOrder with
     | Pending => UpdateOrderStatus (Order.id selectedOrder) Preparing
     | Preparing =>
         if bool_decide (Order.deliveryMethod selectedOrder = Some ByDelivery)
         then OpenDeliveryModal (Order.id selectedOrder) 30
         else UpdateOrderStatus (Order.id selectedOrder) Ready
     | _ => UpdateOrderStatus (Order.id selectedOrder) Completed
     end].
Proof.
  unfold statusButtons.
  destruct (Order.status selectedOrder); simpl; try done.
  by case_bool_decide.
Qed.

(** C1, as the code has it: ordersService.updateStatus checks nothing. On an
    order the store holds it writes the requested status whatever the
    current one is, a terminal one included, and returns the row; no
    InvalidTransition exists. What keeps a terminal order where it is, is
    the dashboard: for an order that shows a terminal status the status
    controls render no button. *)
Theorem updateStatus_unchecked_terminal_guard_in_dashboard
    (db : Db) (id : string) (row : DbOrder.t) (selectedOrder : Order.t)
    (target : OrderStatus) (now : Z)
    (Hrow : orders db !! id = Some row)
    (Hterm : terminal (DbOrder.status row) = true)
    (Hview : Order.status selectedOrder = DbOrder.status row) :
  statusButtons selectedOrder = []
  ∧ (ordersService.updateStatus id target now db).2
    = Ok (DbOrder.set_status target now row)
  ∧ statusOf (ordersService.updateStatus id target now db).1 id = Some target
  ∧ ∀ id', id' ≠ id →
      orders (ordersService.updateStatus id target now db).1 !! id'
      = orders db !! id'.
Proof.
  split.
  { apply statusButtons_terminal. by rewrite Hview. }
  rewrite (updateStatus_hit _ _ _ _ _ Hrow). simpl.
  split; [done|]. split.
  - unfold statusOf. simpl. by rewrite lookup_insert_eq.
  - intros id' Hne. by rewrite lookup_insert_ne.
Qed.

Lemma updateStatus_unchecked_terminal_guard_in_dashboard_witness :
  statusButtons (sampleView "A1" Completed (Some ByDelivery)) = []
  ∧ statusOf (ordersService.updateStatus "A1" Ready 5000 sampleDb).1 "A1"
    = Some Ready.
Proof.
  pose proof (updateStatus_unchecked_terminal_guard_in_dashboard
                sampleDb "A1" (sampleOrder "A1" Completed ByDelivery 1000)
                (sampleView "A1" Completed (Some ByDelivery)) Ready 5000
                eq_refl eq_refl eq_refl) as (Hb & _ & Hs & _).
  exact (conj Hb Hs).
Defined.

(** C1 as stated fails: the transition completed -> preparing is accepted
    and changes the status of the completed order. *)
Lemma updateStatus_completed_to_preparing_accepted :
  statusOf sampleDb "A1" = Some Completed
  ∧ is_ok (ordersService.updateStatus "A1" Preparing 5000 sampleDb).2 = true
  ∧ statusOf (ordersService.updateStatus "A1" Preparing 5000 sampleDb).1 "A1"
    = Some Preparing.
Proof. vm_compute. done. Qed.

(** ** Start of a delivery *)

Lemma startDelivery_hit id estimatedMinutes now db row :
  orders db !! id = Some row →
  validTime (now + estimatedMinutes * 60000) = true →
  ordersService.startDelivery id estimatedMinutes now db
  = (mkDb (<[id := DbOrder.set_departure now (now + estimatedMinutes * 60000) now row]>
             (orders db)) (drivers db),
     Ok (DbOrder.set_departure now (now + estimatedMinutes * 60000) now row)).
Proof.
  intros Hrow Hvalid. unfold ordersService.startDelivery, on_orders.
  cbv zeta. rewrite Hvalid. by rewrite (update_single_hit _ _ _ _ Hrow).
Qed.

Lemma startDelivery_miss id estimatedMinutes now db :
  orders db !! id = None →
  validTime (now + estimatedMinutes * 60000) = true →
  ordersService.startDelivery id estimatedMinutes now db = (db, StoreError).
Proof.
  intros Hrow Hvalid. unfold ordersService.startDelivery, on_orders.
  cbv zeta. rewrite Hvalid, (update_single_miss _ _ _ Hrow). by destruct db.
Qed.

Lemma startDelivery_out_of_range id estimatedMinutes now db :
  validTime (now + estimatedMinutes * 60000) = false →
  ordersService.startDelivery id estimatedMinutes now db = (db, RangeError).
Proof.
  intros Hvalid. unfold ordersService.startDelivery. cbv zeta. by rewrite Hvalid.
Qed.

Lemma startDelivery_ok_iff id estimatedMinutes now db :
  is_ok (ordersService.startDelivery id estimatedMinutes now db).2 = true
  ↔ is_Some (orders db !! id) ∧ validTime (now + estimatedMinutes * 60000) = true.
Proof.
  destruct (validTime (now + estimatedMinutes * 60000)) eqn:Hvalid.
  - destruct (orders db !! id) as [row|] eqn:Hrow.
    + rewrite (startDelivery_hit _ _ _ _ _ Hrow Hvalid). simpl. by eauto.
    + rewrite (startDelivery_miss _ _ _ _ Hrow Hvalid). simpl.
      split; [done|]. by intros [[? ?] _].
  - rewrite (startDelivery_out_of_range _ _ _ _ Hvalid). simpl.
    split; [done|]. by intros [_ ?].
Qed.

Lemma modal_offered_iff selectedOrder r :
  r ∈ statusButtons selectedOrder →
  (∃ id m, r = OpenDeliveryModal id m) →
  Order.status selectedOrder = Preparing
  ∧ Order.deliveryMethod selectedOrder = Some ByDelivery
  ∧ r = OpenDeliveryModal (Order.id selectedOrder) 30.
Proof.
  intros Hin (id & m & ->).
  destruct (terminal (Order.status selectedOrder)) eqn:Ht.
  - rewrite (statusButtons_terminal _ Ht) in Hin. by apply elem_of_nil in Hin.
  - rewrite (statusButtons_live _ Ht) in Hin.
    apply list_elem_of_singleton in Hin.
    destruct (Order.status selectedOrder); try done.
    case_bool_decide; [|done]. by rewrite Hin.
Qed.

(** C2, as the code has it: ordersService.startDelivery checks neither the
    status, nor the delivery type, nor the sign of estimatedMinutes. It
    succeeds exactly when the store holds the order and the estimated time,
    now plus estimatedMinutes minutes (60000 ms each), is a valid date; it
    then sets delivery_departed_at to now, estimated_delivery_time to the
    estimated time and the status to delivery. When the estimated time is
    not a valid date the call throws a RangeError and the store is as it
    was. The condition on the order is the dashboard's: the delivery modal
    opens only from an order that shows status preparing and delivery
    method delivery, with 30 minutes proposed. *)
Theorem startDelivery_sets_departure_and_eta
    (db : Db) (id : string) (row : DbOrder.t) (estimatedMinutes now : Z)
    (Hrow : orders db !! id = Some row) :
  (validTime (now + estimatedMinutes * 60000) = true →
   ∃ row',
      ordersService.startDelivery id estimatedMinutes now db
      = (mkDb (<[id := row']> (orders db)) (drivers db), Ok row')
      ∧ DbOrder.status row' = Delivery
      ∧ DbOrder.delivery_departed_at row' = Some now
      ∧ DbOrder.estimated_delivery_time row'
        = Some (now + estimatedMinutes * 60000)
      ∧ DbOrder.delivery_type row' = DbOrder.delivery_type row)
  ∧ (∀ db', validTime (now + estimatedMinutes * 60000) = false →
            ordersService.startDelivery id estimatedMinutes now db'
            = (db', RangeError))
  ∧ (∀ db', is_ok (ordersService.startDelivery id estimatedMinutes now db').2
            = true
            ↔ is_Some (orders db' !! id)
              ∧ validTime (now + estimatedMinutes * 60000) = true)
  ∧ (∀ selectedOrder oid m,
        OpenDeliveryModal oid m ∈ statusButtons selectedOrder →
        Order.status selectedOrder = Preparing
        ∧ Order.deliveryMethod selectedOrder = Some ByDelivery
        ∧ oid = Order.id selectedOrder ∧ m = 30).
Proof.
  split; [|split; [|split]].
  - intros Hvalid. eexists. split; [by apply startDelivery_hit|]. done.
  - intros db'. apply startDelivery_out_of_range.
  - intros db'. apply startDelivery_ok_iff.
  - intros o oid m Hin.
    destruct (modal_offered_iff o _ Hin) as (Hs & Hd & Heq); [by eauto|].
    by injection Heq as -> ->.
Qed.

Lemma startDelivery_sets_departure_and_eta_witness :
  (∃ row',
    ordersService.startDelivery "B2" 30 7000 sampleDb
    = (mkDb (<["B2" := row']> (orders sampleDb)) (drivers sampleDb), Ok row')
    ∧ DbOrder.status row' = Delivery
    ∧ DbOrder.delivery_departed_at row' = Some 7000
    ∧ DbOrder.estimated_delivery_time row' = Some (7000 + 30 * 60000)
    ∧ DbOrder.delivery_type row' = ByPickup)
  ∧ onMinutesInput (Some 144000000000) = 144000000000
  ∧ ordersService.startDelivery "B2" 144000000000 7000 sampleDb
    = (sampleDb, RangeError).
Proof.
  split; [|split; [reflexivity|]].
  - exact (proj1 (startDelivery_sets_departure_and_eta
                    sampleDb "B2" (sampleOrder "B2" Pending ByPickup 2000)
                    30 7000 eq_refl) eq_refl).
  - exact (proj1 (proj2 (startDelivery_sets_departure_and_eta
                           sampleDb "B2" (sampleOrder "B2" Pending ByPickup 2000)
                           144000000000 7000 eq_refl)) sampleDb eq_refl).
Defined.

(** C2 as stated fails: a pending pickup order and a negative number of
    minutes are accepted; the order becomes a delivery whose estimated
    arrival lies before its departure. *)
Lemma startDelivery_pending_pickup_negative_accepted :
  statusOf sampleDb "B2" = Some Pending
  ∧ (DbOrder.delivery_type <$> orders sampleDb !! "B2") = Some ByPickup
  ∧ is_ok (ordersService.startDelivery "B2" (-5) 7000000 sampleDb).2 = true
  ∧ statusOf (ordersService.startDelivery "B2" (-5) 7000000 sampleDb).1 "B2"
    = Some Delivery
  ∧ (DbOrder.estimated_delivery_time
       <$> orders (ordersService.startDelivery "B2" (-5) 7000000 sampleDb).1 !! "B2")
    = Some (Some 6700000)
  ∧ onMinutesInput (Some (-5)) = -5.
Proof. vm_compute. done. Qed.

(** ** The print action *)








(** ** Driver assignment *)

Lemma assignDriver_hit id driver_id now db row :
  orders db !! id = Some row →
  ordersService.assignDriver id driver_id now db
  = (mkDb (<[id := DbOrder.set_assigned_driver driver_id now row]> (orders db))
          (drivers db),
     Ok (DbOrder.set_assigned_driver driver_id now row)).
Proof.
  intros Hrow. unfold ordersService.assignDriver, on_orders.
  by rewrite (update_single_hit _ _ _ _ Hrow).
Qed.

Lemma assignDriver_drivers id driver_id now db :
  drivers (ordersService.assignDriver id driver_id now db).1 = drivers db.
Proof.
  unfold ordersService.assignDriver, on_orders.
  by destruct (update_single _ id (orders db)).
Qed.

Lemma updateActiveDeliveries_hit id count now db d :
  drivers db !! id = Some d →
  driversService.updateActiveDeliveries id count now db
  = (mkDb (orders db)
          (<[id := DbDriver.set_load count (if 0 <? count then Busy else Available) now d]>
             (drivers db)),
     Ok (DbDriver.set_load count (if 0 <? count then Busy else Available) now d)).
Proof.
  intros Hd. unfold driversService.updateActiveDeliveries, on_drivers.
  by rewrite (update_single_hit _ _ _ _ Hd).
Qed.

Lemma updateActiveDeliveries_orders id count now db :
  orders (driversService.updateActiveDeliveries id count now db).1 = orders db.
Proof.
  unfold driversService.updateActiveDeliveries, on_drivers.
  by destruct (update_single _ id (drivers db)).
Qed.

Lemma contributions_nonneg o ds : 0 ≤ contributions o ds.
Proof.
  induction ds as [|d ds IH]; simpl; [lia|].
  unfold contribution. case_bool_decide; lia.
Qed.

Lemma contributions_absent o ds :
  (∀ d, d ∈ ds → DbOrder.assigned_driver_id o ≠ Some d) →
  contributions o ds = 0.
Proof.
  induction ds as [|d ds IH]; intros Hno; simpl; [done|].
  rewrite IH by (intros d' Hd'; apply Hno; by right).
  unfold contribution. case_bool_decide as Hd; [|done].
  exfalso. by apply (Hno d); [left|].
Qed.

Lemma contributions_le_1 o ds : NoDup ds → contributions o ds ≤ 1.
Proof.
  induction 1 as [|d ds Hnotin Hnd IH]; simpl; [lia|].
  unfold contribution at 1. case_bool_decide as Hd; [|lia].
  rewrite contributions_absent; [lia|].
  intros d' Hd' Heq. rewrite Hd in Heq. injection Heq as ->. done.
Qed.

(** C3, as the code has it: ordersService.assignDriver only records the
    driver (or null) on the order. It leaves the status of the order as it
    was and leaves the drivers table, so every activeDeliveries, as it was:
    it increments and decrements nothing. A load changes only through
    driversService.updateActiveDeliveries(id, count), which stores the count
    it is given and touches no order. An order names at most one driver, so
    over any set of drivers its contributions sum to at most 1. *)
Theorem assignDriver_records_driver_only
    (db : Db) (id : string) (row : DbOrder.t) (driver_id : option string)
    (driver : string) (d : DbDriver.t) (count now : Z)
    (Hrow : orders db !! id = Some row)
    (Hdrv : drivers db !! driver = Some d) :
  (∃ row',
      ordersService.assignDriver id driver_id now db
      = (mkDb (<[id := row']> (orders db)) (drivers db), Ok row')
      ∧ DbOrder.assigned_driver_id row' = driver_id
      ∧ DbOrder.status row' = DbOrder.status row
      ∧ ∀ ds, NoDup ds → contributions row' ds ≤ 1)
  ∧ drivers (ordersService.assignDriver id driver_id now db).1 = drivers db
  ∧ loadOf (driversService.updateActiveDeliveries driver count now db).1 driver
    = Some count
  ∧ orders (driversService.updateActiveDeliveries driver count now db).1
    = orders db.
Proof.
  split; [|split; [|split]].
  - eexists. split; [by apply assignDriver_hit|].
    repeat split. intros ds Hnd. by apply contributions_le_1.
  - apply assignDriver_drivers.
  - rewrite (updateActiveDeliveries_hit _ _ _ _ _ Hdrv).
    unfold loadOf. simpl. by rewrite lookup_insert_eq.
  - apply updateActiveDeliveries_orders.
Qed.

Lemma assignDriver_records_driver_only_witness :
  drivers (ordersService.assignDriver "B2" (Some "D2") 3000 sampleDb).1
  = drivers sampleDb
  ∧ loadOf (driversService.updateActiveDeliveries "D2" 4 3000 sampleDb).1 "D2"
    = Some 4.
Proof.
  pose proof (assignDriver_records_driver_only sampleDb "B2"
                (sampleOrder "B2" Pending ByPickup 2000) (Some "D2")
                "D2" (sampleDriver "D2" Busy 3) 4 3000 eq_refl eq_refl)
    as (_ & Hd & Hl & _).
  exact (conj Hd Hl).
Defined.

(** C3 as stated fails: assigning driver D2, who has 3 active deliveries,
    leaves the count at 3; moving the order to D1 and unassigning it
    decrement and increment nothing either. *)
Lemma assignDriver_changes_no_load :
  let db1 := (ordersService.assignDriver "B2" (Some "D2") 3000 sampleDb).1 in
  let db2 := (ordersService.assignDriver "B2" (Some "D1") 4000 db1).1 in
  let db3 := (ordersService.assignDriver "B2" None 5000 db2).1 in
  loadOf sampleDb "D2" = Some 3
  ∧ (DbOrder.assigned_driver_id <$> orders db1 !! "B2") = Some (Some "D2")
  ∧ loadOf db1 "D2" = Some 3
  ∧ (DbOrder.assigned_driver_id <$> orders db2 !! "B2") = Some (Some "D1")
  ∧ loadOf db2 "D2" = Some 3 ∧ loadOf db2 "D1" = Some 0
  ∧ (DbOrder.assigned_driver_id <$> orders db3 !! "B2") = Some None
  ∧ loadOf db3 "D1" = Some 0.
Proof. vm_compute. done. Qed.

(** ** Driver registry *)

Lemma driver_updateStatus_hit id status now db d :
  drivers db !! id = Some d →
  driversService.updateStatus id status now db
  = (mkDb (orders db) (<[id := DbDriver.set_status status now d]> (drivers db)),
     Ok (DbDriver.set_status status now d)).
Proof.
  intros Hd. unfold driversService.updateStatus, on_drivers.
  by rewrite (update_single_hit _ _ _ _ Hd).
Qed.

Lemma driver_update_hit id name phone now db d :
  drivers db !! id = Some d →
  driversService.update id name phone now db
  = (mkDb (orders db) (<[id := DbDriver.set_info name phone now d]> (drivers db)),
     Ok (DbDriver.set_info name phone now d)).
Proof.
  intros Hd. unfold driversService.update, on_drivers.
  by rewrite (update_single_hit _ _ _ _ Hd).
Qed.

Lemma set_load_derived count now d :
  let d' := DbDriver.set_load count (if 0 <? count then Busy else Available) now d in
  (DbDriver.status d' = Busy ↔ 0 < count)
  ∧ (DbDriver.status d' = Available ↔ count ≤ 0)
  ∧ DbDriver.status d' ≠ Offline
  ∧ DbDriver.active_deliveries d' = count.
Proof.
  simpl. destruct (Z.ltb_spec 0 count); repeat split; try done; try lia.
Qed.

(** C9, as the code has it: the status is one stored field and the last
    write wins. driversService.updateActiveDeliveries sets it from the count
    alone: afterwards the driver is busy exactly when the count is positive
    and available otherwise, whatever the status was before, offline
    included, so the rule of the design document holds after it.
    driversService.updateStatus stores the status the operator picks and
    keeps activeDeliveries; driversService.update keeps both; a driver is
    created available with no active delivery. *)
Theorem driver_status_last_write_wins
    (db : Db) (id : string) (d : DbDriver.t) (count now : Z)
    (status : DriverStatus) (name phone : option string)
    (fresh nm ph : string)
    (Hd : drivers db !! id = Some d)
    (Hfresh : drivers db !! fresh = None) :
  (∃ d', (driversService.updateActiveDeliveries id count now db).2 = Ok d'
         ∧ drivers (driversService.updateActiveDeliveries id count now db).1 !! id
           = Some d'
         ∧ (DbDriver.status d' = Busy ↔ 0 < count)
         ∧ (DbDriver.status d' = Available ↔ count ≤ 0)
         ∧ DbDriver.status d' ≠ Offline
         ∧ DbDriver.active_deliveries d' = count
         ∧ derivedStatus d')
  ∧ (∃ d', (driversService.updateStatus id status now db).2 = Ok d'
           ∧ drivers (driversService.updateStatus id status now db).1 !! id
             = Some d'
           ∧ DbDriver.status d' = status
           ∧ DbDriver.active_deliveries d' = DbDriver.active_deliveries d)
  ∧ (∃ d', (driversService.update id name phone now db).2 = Ok d'
           ∧ DbDriver.status d' = DbDriver.status d
           ∧ DbDriver.active_deliveries d' = DbDriver.active_deliveries d)
  ∧ (∃ d', (driversService.create fresh nm ph now db).2 = Ok d'
           ∧ drivers (driversService.create fresh nm ph now db).1 !! fresh
             = Some d'
           ∧ DbDriver.status d' = Available
           ∧ DbDriver.active_deliveries d' = 0
           ∧ derivedStatus d').
Proof.
  split; [|split; [|split]].
  - rewrite (updateActiveDeliveries_hit _ _ _ _ _ Hd). simpl.
    eexists. split; [done|]. split; [by rewrite lookup_insert_eq|].
    destruct (set_load_derived count now d) as (Hb & Ha & Ho & Hc).
    repeat split; try apply Hb; try apply Ha; try done.
    right. simpl. apply Hb.
  - rewrite (driver_updateStatus_hit _ _ _ _ _ Hd). simpl.
    eexists. split; [done|]. split; [by rewrite lookup_insert_eq|]. done.
  - rewrite (driver_update_hit _ _ _ _ _ _ Hd). simpl. by eexists.
  - unfold driversService.create. rewrite Hfresh. simpl.
    eexists. split; [done|]. split; [by rewrite lookup_insert_eq|].
    repeat split. right. simpl. split; [done | lia].
Qed.

Lemma driver_status_last_write_wins_witness :
  ∃ d', (driversService.updateActiveDeliveries "D2" 0 3000 sampleDb).2 = Ok d'
        ∧ DbDriver.status d' = Available ∧ derivedStatus d'.
Proof.
  destruct (driver_status_last_write_wins sampleDb "D2"
              (sampleDriver "D2" Busy 3) 0 3000 Offline None None
              "D9" "Maria" "0687654321" eq_refl eq_refl)
    as ((d' & Hr & _ & _ & Ha & _ & _ & Hder) & _).
  exists d'. split; [exact Hr|]. split; [apply Ha; lia | exact Hder].
Defined.

(** C9 as stated fails twice over: a load update replaces the offline
    status the operator set on D1 by busy, and a status update makes D2,
    busy with 3 active deliveries, available with 3 active deliveries. *)
Lemma driver_offline_override_lost :
  driverStatusOf sampleDb "D1" = Some Offline
  ∧ derivedStatus (sampleDriver "D2" Busy 3)
  ∧ driverStatusOf
      (driversService.updateActiveDeliveries "D1" 1 3000 sampleDb).1 "D1"
    = Some Busy
  ∧ driverStatusOf
      (driversService.updateActiveDeliveries "D1" 0 3000 sampleDb).1 "D1"
    = Some Available
  ∧ (∃ d', drivers (driversService.updateStatus "D2" Available 3000 sampleDb).1
             !! "D2" = Some d'
           ∧ DbDriver.active_deliveries d' = 3
           ∧ ¬ derivedStatus d').
Proof.
  split; [vm_compute; done|]. split; [right; simpl; split; [lia | done]|].
  split; [vm_compute; done|]. split; [vm_compute; done|].
  eexists. split; [vm_compute; reflexivity|]. split; [done|].
  intros [Hoff | Hbusy]; [done|]. simpl in Hbusy.
  assert (Available = Busy) by (apply Hbusy; lia). done.
Qed.

(** ** Listing the orders *)

Lemma sorted_head_bounds {A} (R : relation A) (x : A) (l : list A) :
  StronglySorted R (x :: l) → ∀ y, y ∈ l → R x y.
Proof.
  intros Hs y Hy. apply StronglySorted_inv in Hs as [_ Hall].
  by eapply (proj1 (Forall_forall _ _) Hall).
Qed.

Lemma sorted_last_bounds {A} (R : relation A) `{!Reflexive R} (l : list A) (z : A) :
  StronglySorted R l → last l = Some z → ∀ y, y ∈ l → R y z.
Proof.
  induction 1 as [|x l Hs IH Hall]; intros Hlast y Hy.
  - by apply elem_of_nil in Hy.
  - destruct l as [|x' l'].
    + simpl in Hlast. injection Hlast as <-.
      apply list_elem_of_singleton in Hy as ->. reflexivity.
    + assert (last (x' :: l') = Some z) as Hl by exact Hlast.
      apply elem_of_cons in Hy as [-> | Hy]; [|by apply IH].
      eapply (proj1 (Forall_forall _ _) Hall).
      rewrite last_lookup in Hl. by eapply list_elem_of_lookup_2.
Qed.

Lemma getAll_sorted db : StronglySorted created_desc (ordersService.getAll db).
Proof. unfold ordersService.getAll. apply StronglySorted_merge_sort; apply _. Qed.

Lemma getAll_rows db : ordersService.getAll db ≡ₚ snd <$> map_to_list (orders db).
Proof. unfold ordersService.getAll. apply merge_sort_Permutation. Qed.

Lemma getAll_elem db o :
  o ∈ ordersService.getAll db ↔ ∃ id, orders db !! id = Some o.
Proof.
  rewrite (getAll_rows db). rewrite list_elem_of_fmap. split.
  - intros ([id o'] & -> & Hin). exists id. by apply elem_of_map_to_list.
  - intros (id & Hid). exists (id, o). split; [done|]. by apply elem_of_map_to_list.
Qed.

(** C8, as the code has it: getAll asks for [created_at] descending, so the
    sequence it returns holds exactly the orders of the store, newest
    first: its first element is the most recently created order and its
    last element the oldest one. *)
Theorem getAll_newest_first (db : Db) :
  (∀ o, o ∈ ordersService.getAll db ↔ ∃ id, orders db !! id = Some o)
  ∧ length (ordersService.getAll db) = size (orders db)
  ∧ StronglySorted (λ a b, DbOrder.created_at b ≤ DbOrder.created_at a)
      (ordersService.getAll db)
  ∧ (∀ first, head (ordersService.getAll db) = Some first →
       ∀ o, o ∈ ordersService.getAll db →
            DbOrder.created_at o ≤ DbOrder.created_at first)
  ∧ (∀ oldest, last (ordersService.getAll db) = Some oldest →
       ∀ o, o ∈ ordersService.getAll db →
            DbOrder.created_at oldest ≤ DbOrder.created_at o).
Proof.
  split; [apply getAll_elem|]. split.
  { rewrite (getAll_rows db), length_fmap. apply length_map_to_list. }
  split; [apply getAll_sorted|]. split.
  - intros first Hhd o Hin. pose proof (getAll_sorted db) as Hs.
    destruct (ordersService.getAll db) as [|x l]; [done|].
    injection Hhd as ->. apply elem_of_cons in Hin as [-> | Hin]; [lia|].
    by apply (sorted_head_bounds created_desc first l).
  - intros oldest Hlast o Hin.
    by apply (sorted_last_bounds created_desc _ oldest (getAll_sorted db)).
Qed.

Lemma getAll_newest_first_witness :
  head (ordersService.getAll sampleDb) = Some (sampleOrder "B2" Pending ByPickup 2000)
  ∧ DbOrder.created_at (sampleOrder "A1" Completed ByDelivery 1000)
    ≤ DbOrder.created_at (sampleOrder "B2" Pending ByPickup 2000).
Proof.
  pose proof (getAll_newest_first sampleDb) as (Hel & _ & _ & Hfirst & _).
  split; [reflexivity|].
  apply Hfirst; [reflexivity|].
  apply Hel. exists "A1". reflexivity.
Defined.

(** C8 as stated fails: of the two orders of the sample store the later one
    (B2, created at 2000) comes first and the earlier one (A1, created at
    1000) last, so the sequence is not ascending and its last element is
    not the most recent order. *)
Lemma getAll_last_is_not_newest :
  DbOrder.id <$> ordersService.getAll sampleDb = ["B2"; "A1"]
  ∧ (DbOrder.created_at <$> last (ordersService.getAll sampleDb)) = Some 1000
  ∧ (DbOrder.created_at <$> head (ordersService.getAll sampleDb)) = Some 2000
  ∧ ¬ Sorted (λ a b, DbOrder.created_at a ≤ DbOrder.created_at b)
        (ordersService.getAll sampleDb).
Proof.
  split; [vm_compute; done|]. split; [vm_compute; done|].
  split; [vm_compute; done|].
  intros Hs.
  assert (ordersService.getAll sampleDb
          = [sampleOrder "B2" Pending ByPickup 2000;
             sampleOrder "A1" Completed ByDelivery 1000]) as Heq
    by (vm_compute; reflexivity).
  rewrite Heq in Hs. apply Sorted_inv in Hs as [_ Hhd].
  apply HdRel_inv in Hhd. simpl in Hhd. lia.
Qed.

(** ** New-order detection *)

Lemma detect_quiet orders perm audio works prev :
  (length orders ≤ prev)%nat →
  detectNewOrders orders perm audio works prev = ([], Returned (length orders)).
Proof.
  intros Hle. unfold detectNewOrders.
  destruct (Nat.ltb_spec prev (length orders)); [lia | done].
Qed.

Lemma last_of_longer {A} (l : list A) (n : nat) :
  (n < length l)%nat → ∃ x, last l = Some x.
Proof.
  intros Hlt. destruct (last l) as [x|] eqn:Hl; [by eauto|].
  apply last_None in Hl. subst l. simpl in Hlt. lia.
Qed.

Lemma detect_fires orders perm audio works prev newOrder :
  (prev < length orders)%nat → last orders = Some newOrder → perm ≠ Granted →
  detectNewOrders orders perm audio works prev
  = ((if audio && works then [StartTone 880 600] else [])
     ++ [SetToast newOrder; HideToastAfter 5000],
     Returned (length orders)).
Proof.
  intros Hlt Hlast Hperm. unfold detectNewOrders, playNotificationSound.
  destruct (Nat.ltb_spec prev (length orders)); [|lia].
  rewrite Hlast, bool_decide_false by done. by destruct (audio && works).
Qed.

Lemma detect_throws orders audio works prev :
  (prev < length orders)%nat →
  detectNewOrders orders Granted audio works prev
  = ((if audio && works then [StartTone 880 600] else []), Thrown).
Proof.
  intros Hlt. destruct (last_of_longer orders prev Hlt) as [newOrder Hlast].
  unfold detectNewOrders, playNotificationSound, totalAmount.
  destruct (Nat.ltb_spec prev (length orders)); [|lia].
  rewrite Hlast, bool_decide_true by done. by destruct (audio && works).
Qed.

Lemma toasts_app e1 e2 : toasts (e1 ++ e2) = (toasts e1 + toasts e2)%nat.
Proof. unfold toasts. by rewrite List.filter_app, length_app. Qed.

Lemma osNotifications_app e1 e2 :
  osNotifications (e1 ++ e2) = (osNotifications e1 + osNotifications e2)%nat.
Proof. unfold osNotifications. by rewrite List.filter_app, length_app. Qed.

Lemma detect_osNotifications orders perm audio works prev :
  osNotifications (detectNewOrders orders perm audio works prev).1 = 0%nat.
Proof.
  unfold detectNewOrders, playNotificationSound, totalAmount.
  by destruct (prev <? length orders)%nat, (last orders),
       (bool_decide (perm = Granted)), (audio && works).
Qed.

Lemma detect_toasts orders perm audio works prev :
  perm ≠ Granted →
  ∃ effs, detectNewOrders orders perm audio works prev
          = (effs, Returned (length orders))
          ∧ toasts effs = if (prev <? length orders)%nat then 1%nat else 0%nat.
Proof.
  intros Hperm. destruct (Nat.ltb_spec prev (length orders)) as [Hlt|Hle].
  - destruct (last_of_longer orders prev Hlt) as [x Hx].
    rewrite (detect_fires _ _ _ _ _ _ Hlt Hx Hperm).
    eexists. split; [done|]. by destruct (audio && works).
  - rewrite (detect_quiet _ _ _ _ _ Hle). by eexists.
Qed.

Lemma observe_osNotifications works renders :
  ∀ prev, osNotifications (observe works prev renders) = 0%nat.
Proof.
  induction renders as [|render rest IH]; intros prev; [done|]. simpl.
  pose proof (detect_osNotifications (r_orders render) (r_permission render)
                (r_audio render) works prev) as Hos.
  destruct (detectNewOrders _ _ _ _ _) as [effs [count|]]; simpl in Hos.
  - by rewrite osNotifications_app, Hos, IH.
  - done.
Qed.

Lemma observe_toasts works renders :
  Forall (λ render, r_permission render ≠ Granted) renders →
  ∀ prev, toasts (observe works prev renders) = growths prev renders.
Proof.
  induction 1 as [|render rest Hperm _ IH]; intros prev; [done|]. simpl.
  destruct (detect_toasts (r_orders render) (r_permission render)
              (r_audio render) works prev Hperm) as (effs & -> & Ht).
  by rewrite toasts_app, Ht, IH.
Qed.

(** C6, as the code has it. The monitor keeps one number, the length of the
    collection at the previous run. A run with a collection of the same or
    a smaller length does nothing. A run with a longer collection starts
    the tone (880 Hz for 0.6 s) when audio alerts are on and the audio API
    works; then, while permission for OS notifications is not granted, it
    sets one toast (hidden after 5 s) for the last element of the
    collection, however many orders were added, and keeps the new length.
    With permission granted the run throws after the sound, at
    [newOrder.totalAmount.toFixed(2)]: no OS notification is created, no
    toast is set, and the length is not kept. So no sequence of
    observations ever shows an OS notification; without permission the
    number of toasts is the number of observations at which the length
    grew. *)
Theorem detectNewOrders_throws_when_permission_granted
    (orders : list Order.t) (perm : NotificationPermission)
    (audio works : bool) (prev : nat) :
  let sound := if audio && works then [StartTone 880 600] else [] in
  ((length orders ≤ prev)%nat →
   detectNewOrders orders perm audio works prev = ([], Returned (length orders)))
  ∧ ((prev < length orders)%nat → perm ≠ Granted →
     ∃ newOrder,
       last orders = Some newOrder
       ∧ detectNewOrders orders perm audio works prev
         = (sound ++ [SetToast newOrder; HideToastAfter 5000],
            Returned (length orders)))
  ∧ ((prev < length orders)%nat → perm = Granted →
     detectNewOrders orders perm audio works prev = (sound, Thrown)
     ∧ toasts (detectNewOrders orders perm audio works prev).1 = 0%nat
     ∧ osNotifications (detectNewOrders orders perm audio works prev).1 = 0%nat)
  ∧ (∀ renders, osNotifications (observe works prev renders) = 0%nat)
  ∧ (∀ renders,
       Forall (λ render, r_permission render ≠ Granted) renders →
       toasts (observe works prev renders) = growths prev renders).
Proof.
  intros sound. split; [|split; [|split; [|split]]].
  - apply detect_quiet.
  - intros Hlt Hperm. destruct (last_of_longer orders prev Hlt) as [x Hx].
    exists x. split; [done|]. by apply detect_fires.
  - intros Hlt ->. rewrite (detect_throws _ _ _ _ Hlt).
    split; [done|]. unfold sound. by destruct (audio && works).
  - intros renders. apply observe_osNotifications.
  - intros renders Hperm. by apply observe_toasts.
Qed.

Lemma detectNewOrders_throws_when_permission_granted_witness :
  let o1 := sampleView "A1" Completed None in
  let o2 := sampleView "B2" Pending None in
  let o3 := sampleView "C3" Pending None in
  detectNewOrders [o1] Granted true true 0 = ([StartTone 880 600], Thrown)
  ∧ (∃ newOrder,
       last [o1; o2; o3] = Some newOrder
       ∧ detectNewOrders [o1; o2; o3] Denied true true 1
         = ([StartTone 880 600; SetToast newOrder; HideToastAfter 5000],
            Returned 3))
  ∧ detectNewOrders [o1; o2] Denied true true 2 = ([], Returned 2).
Proof.
  intros o1 o2 o3. split; [|split].
  - assert (0 < length [o1])%nat as Hlt by (simpl; lia).
    exact (proj1 (proj1 (proj2 (proj2
             (detectNewOrders_throws_when_permission_granted [o1] Granted true true 0)))
             Hlt eq_refl)).
  - assert (1 < length [o1; o2; o3])%nat as Hlt by (simpl; lia).
    assert (Denied ≠ Granted) as Hperm by discriminate.
    exact (proj1 (proj2
             (detectNewOrders_throws_when_permission_granted
                [o1; o2; o3] Denied true true 1)) Hlt Hperm).
  - assert (length [o1; o2] ≤ 2)%nat as Hle by (simpl; lia).
    exact (proj1 (detectNewOrders_throws_when_permission_granted
                    [o1; o2] Denied true true 2) Hle).
Defined.

(** ** Analytics *)

(** [setHours(0,0,0,0)] and [setHours(23,59,59,999)] are the first and the
    last millisecond of the local day of their argument. *)
Lemma setHours_day_bounds tz t :
  setHours tz 0 0 0 0 t ≤ t ≤ setHours tz 23 59 59 999 t
  ∧ setHours tz 23 59 59 999 t = setHours tz 0 0 0 0 t + (msPerDay - 1).
Proof.
  unfold setHours, msPerDay.
  pose proof (Z.div_mod (t + tz) 86400000 ltac:(lia)) as Hdm.
  pose proof (Z.mod_pos_bound (t + tz) 86400000 ltac:(lia)) as Hb.
  lia.
Qed.

Lemma isPaid_spec o :
  isPaid o = true
  ↔ Order.pstatus <$> Order.payment o = Some Paid
    ∨ Order.method <$> Order.payment o = Some Cash.
Proof.
  unfold isPaid. rewrite orb_true_iff.
  by rewrite !bool_decide_eq_true.
Qed.

Lemma inRange_spec tz range o :
  inRange tz range o = true
  ↔ Order.status o = Completed
    ∧ match range_start range, range_end range with
      | Some s, Some e =>
          setHours tz 0 0 0 0 s ≤ Order.createdAt o ≤ setHours tz 23 59 59 999 e
      | _, _ => True
      end.
Proof.
  unfold inRange, startDate, endDate.
  destruct (range_start range) as [s|], (range_end range) as [e|]; simpl;
    rewrite ?andb_true_iff, ?bool_decide_eq_true, ?Z.leb_le; tauto.
Qed.

Lemma filter_filter_decide {A} (f g : A → bool) (P : A → Prop)
    `{∀ x, Decision (P x)} (l : list A) :
  (∀ x, P x ↔ f x = true ∧ g x = true) →
  List.filter g (List.filter f l) = filter P l.
Proof.
  intros HP. induction l as [|x l IH]; [done|].
  rewrite filter_cons. simpl.
  destruct (f x) eqn:Hf; simpl.
  - destruct (g x) eqn:Hg.
    + rewrite decide_True by (by apply HP). by rewrite IH.
    + rewrite decide_False; [done|]. rewrite HP. intros [_ ?]. congruence.
  - rewrite decide_False; [done|]. rewrite HP. intros [? _]. congruence.
Qed.

Lemma filteredOrders_eligible tz range orders :
  filteredOrders tz range orders = filter (eligible tz range) orders.
Proof.
  unfold filteredOrders, paidOrders. apply filter_filter_decide.
  intros o. unfold eligible. rewrite isPaid_spec, inRange_spec. tauto.
Qed.

Lemma fold_left_total (l : list Order.t) (a : Q) :
  (fold_left (λ acc o, acc + Order.total o) l a
   == a + sumQ (Order.total <$> l))%Q.
Proof.
  revert a. induction l as [|o l IH]; intros a.
  - unfold sumQ. simpl. ring.
  - simpl fold_left. rewrite IH. rewrite fmap_cons. unfold sumQ. simpl.
    ring.
Qed.

(** C4: an order is part of the set the aggregator counts exactly when it
    is paid or paid in cash, and completed, and, when both ends of the range
    are set, created between the first millisecond of the start day and
    the last millisecond (23:59:59.999) of the end day. The order count is
    the size of that set, the revenue the sum of its totals, and the
    average the revenue divided by the count, 0 for the empty set. *)
Theorem stats_counts_eligible_orders
    (tz : Z) (range : DateRange) (orders : list Order.t) :
  let counted := filter (eligible tz range) orders in
  filteredOrders tz range orders = counted
  ∧ (∀ o, o ∈ filteredOrders tz range orders ↔ o ∈ orders ∧ eligible tz range o)
  ∧ orderCount (stats tz range orders) = length counted
  ∧ (revenue (stats tz range orders) == sumQ (Order.total <$> counted))%Q
  ∧ (counted = [] → avgOrderValue (stats tz range orders) = 0%Q)
  ∧ (counted ≠ [] →
     (avgOrderValue (stats tz range orders)
      == revenue (stats tz range orders)
         / inject_Z (Z.of_nat (orderCount (stats tz range orders))))%Q).
Proof.
  intros counted. pose proof (filteredOrders_eligible tz range orders) as Heq.
  fold counted in Heq.
  split; [done|]. split.
  { intros o. rewrite Heq. unfold counted. rewrite list_elem_of_filter. tauto. }
  split; [simpl; by rewrite Heq|]. split.
  { simpl. rewrite Heq, fold_left_total. ring. }
  split.
  - intros Hnil. simpl. by rewrite Heq, Hnil.
  - intros Hne. simpl. rewrite Heq.
    destruct counted as [|o l]; [done|]. simpl. reflexivity.
Qed.

Lemma stats_counts_eligible_orders_witness :
  filter (eligible 0 sampleDay) sampleOrders ≠ []
  ∧ (avgOrderValue (stats 0 sampleDay sampleOrders)
     == revenue (stats 0 sampleDay sampleOrders)
        / inject_Z (Z.of_nat (orderCount (stats 0 sampleDay sampleOrders))))%Q.
Proof.
  assert (filter (eligible 0 sampleDay) sampleOrders ≠ []) as Hne
    by (vm_compute; discriminate).
  split; [exact Hne|].
  exact (proj2 (proj2 (proj2 (proj2 (proj2
           (stats_counts_eligible_orders 0 sampleDay sampleOrders))))) Hne).
Defined.

Example stats_sample :
  orderCount (stats 0 sampleDay sampleOrders) = 2%nat
  ∧ (revenue (stats 0 sampleDay sampleOrders) == 109)%Q
  ∧ activeCount (stats 0 sampleDay sampleOrders) = 1%nat
  ∧ orderCount (stats 0 (mkRange None (Some 90000000)) sampleOrders) = 3%nat.
Proof. vm_compute. done. Qed.

Lemma stats_btw tz range orders :
  btwAmount (stats tz range orders) = computeBtw (revenue (stats tz range orders))
  ∧ netRevenue (stats tz range orders)
    = (revenue (stats tz range orders) - btwAmount (stats tz range orders))%Q.
Proof. done. Qed.

Lemma computeBtw_eq r : (computeBtw r * 109 == r * 9)%Q.
Proof. unfold computeBtw. field. Qed.

(** C5: the aggregator takes the tax out of a revenue that contains it:
    tax = revenue * 9/109 and net = revenue - tax, so that the tax is 9% of
    the net amount and not 9% of the revenue. For a revenue of 109 the tax
    is 9 and the net revenue 100: exactly so on rationals, and exactly so
    again when every operation is rounded to binary64. *)
Theorem btw_inclusive_split
    (tz : Z) (range : DateRange) (orders : list Order.t) :
  let s := stats tz range orders in
  (btwAmount s == revenue s * (9 / 109))%Q
  ∧ (netRevenue s == revenue s - btwAmount s)%Q
  ∧ (btwAmount s == (9 # 100) * netRevenue s)%Q
  ∧ ((revenue s == 109)%Q →
     (btwAmount s == 9)%Q ∧ (netRevenue s == 100)%Q
     ∧ ¬ (btwAmount s == revenue s * (9 # 100))%Q)
  ∧ (btwAmount64 109 == 9)%Q ∧ (netRevenue64 109 == 100)%Q.
Proof.
  intros s. destruct (stats_btw tz range orders) as [Hb Hn]. fold s in Hb, Hn.
  rewrite Hn, Hb. generalize (revenue s). intros r.
  pose proof (computeBtw_eq r) as Hr.
  split; [unfold computeBtw; reflexivity|]. split; [reflexivity|].
  split; [lra|]. split.
  - intros H109. repeat split; lra.
  - split; vm_compute; reflexivity.
Qed.

Lemma btw_inclusive_split_witness :
  (btwAmount (stats 0 sampleDay sampleOrders) == 9)%Q
  ∧ (netRevenue (stats 0 sampleDay sampleOrders) == 100)%Q.
Proof.
  destruct (proj1 (proj2 (proj2 (proj2
              (btw_inclusive_split 0 sampleDay sampleOrders)))))
    as (Hb & Hn & _); [vm_compute; reflexivity|].
  exact (conj Hb Hn).
Defined.

(** C10: the receipt preview takes 9% of the total as BTW and 91% as the
    amount without BTW, the aggregator 9/109 and 100/109 of the same
    amount. For every positive amount the two differ: the receipt shows the
    larger tax and the smaller net amount. *)
Theorem receipt_btw_differs_from_analytics (total : Q) (Hpos : (0 < total)%Q) :
  (receiptBtw total == total * (9 # 100))%Q
  ∧ (receiptSubtotal total == total * (91 # 100))%Q
  ∧ (computeBtw total == total * (9 # 109))%Q
  ∧ (total - computeBtw total == total * (100 # 109))%Q
  ∧ ¬ (receiptBtw total == computeBtw total)%Q
  ∧ ¬ (receiptSubtotal total == total - computeBtw total)%Q
  ∧ (computeBtw total < receiptBtw total)%Q
  ∧ (receiptSubtotal total < total - computeBtw total)%Q
  ∧ ∀ tz range orders,
      (revenue (stats tz range orders) == total)%Q →
      ¬ (btwAmount (stats tz range orders) == receiptBtw total)%Q
      ∧ ¬ (netRevenue (stats tz range orders) == receiptSubtotal total)%Q.
Proof.
  pose proof (computeBtw_eq total) as Hc.
  unfold receiptBtw, receiptSubtotal.
  repeat match goal with |- _ ∧ _ => split end; try lra.
  intros tz range orders Hrev.
  destruct (stats_btw tz range orders) as [Hb Hn]. rewrite Hn, Hb.
  pose proof (computeBtw_eq (revenue (stats tz range orders))) as Hr.
  split; lra.
Qed.

Lemma receipt_btw_differs_from_analytics_witness :
  (0 < 109)%Q
  ∧ ¬ (receiptBtw 109 == computeBtw 109)%Q
  ∧ ¬ (btwAmount (stats 0 sampleDay sampleOrders) == receiptBtw 109)%Q.
Proof.
  assert (0 < 109)%Q as Hpos by reflexivity.
  destruct (receipt_btw_differs_from_analytics 109 Hpos)
    as (_ & _ & _ & _ & Hne & _ & _ & _ & Hst).
  split; [exact Hpos|]. split; [exact Hne|].
  apply (Hst 0 sampleDay sampleOrders). vm_compute. reflexivity.
Defined.

Example playNotificationSound_sample :
  playNotificationSound true true = [(880, 600)]
  ∧ playNotificationSound false true = []
  ∧ playNotificationSound true false = [].
Proof. done. Qed.

Example observe_sample :
  let o1 := sampleView "A1" Completed None in
  let o2 := sampleView "B2" Pending None in
  let o3 := sampleView "C3" Pending None in
  observe true 1
    [mkRender [o1] Default true; mkRender [o1; o2; o3] Denied true;
     mkRender [o2; o3] Denied true; mkRender [o1; o2; o3] Granted false;
     mkRender [o1; o2; o3; o1] Denied true]
  = [StartTone 880 600; SetToast o3; HideToastAfter 5000].
Proof. reflexivity. Qed.

(** The orders context on an order in preparation that is to be delivered:
    a start of delivery with 30 minutes is carried out, one with minutes
    that are not positive and a step back to pending are rejected. *)
Example perform_sample :
  let db := mkDb (<["C3" := sampleOrder "C3" Preparing ByDelivery 3000]> ∅) ∅ in
  statusOf (perform 9000 (StartDelivery "C3" 30) db) "C3" = Some Delivery
  ∧ perform 9000 (StartDelivery "C3" (-5)) db = db
  ∧ perform 9000 (UpdateOrderStatus "C3" Pending) db = db
  ∧ perform 9000 (UpdateOrderStatus "C3" Ready) db = db
  ∧ statusOf (perform 9000 (UpdateOrderStatus "C3" Cancelled) db) "C3"
    = Some Cancelled
  ∧ perform 9000 (StartDelivery "B2" 30) sampleDb = sampleDb.
Proof. vm_compute. done. Qed.

Example receipt_sample :
  (receiptBtw 109 == 981 # 100)%Q ∧ (receiptSubtotal 109 == 9919 # 100)%Q
  ∧ (computeBtw 109 == 9)%Q.
Proof. vm_compute. done. Qed.

(** The model of binary64 on known values: 0.1, 9/109 and 109 * 0.09. *)
Example binary64_sample :
  binary64 (1 # 10) = (3602879701896397 # 36028797018963968)%Q
  ∧ binary64 (9 / 109) = (1487427399865485 # 18014398509481984)%Q
  ∧ binary64 (109 * binary64 (9 # 100))
    = (5522539043063071 # 562949953421312)%Q
  ∧ binary64 (Qpower 2 (-1075)) = 0%Q.
Proof. vm_compute. done. Qed.

(** * Further properties of the store services *)

(** ** Reading and updating orders *)

Lemma on_orders_hit patch id db row :
  orders db !! id = Some row →
  on_orders (update_single patch id) db
  = (mkDb (<[id := patch row]> (orders db)) (drivers db), Ok (patch row)).
Proof. intros Hrow. unfold on_orders. by rewrite (update_single_hit _ _ _ _ Hrow). Qed.

Lemma on_orders_miss patch id db :
  orders db !! id = None → on_orders (update_single patch id) db = (db, StoreError).
Proof.
  intros Hrow. unfold on_orders. rewrite (update_single_miss _ _ _ Hrow).
  by destruct db.
Qed.

Lemma on_drivers_hit patch id db d :
  drivers db !! id = Some d →
  on_drivers (update_single patch id) db
  = (mkDb (orders db) (<[id := patch d]> (drivers db)), Ok (patch d)).
Proof. intros Hd. unfold on_drivers. by rewrite (update_single_hit _ _ _ _ Hd). Qed.

Lemma on_drivers_miss patch id db :
  drivers db !! id = None → on_drivers (update_single patch id) db = (db, StoreError).
Proof.
  intros Hd. unfold on_drivers. rewrite (update_single_miss _ _ _ Hd).
  by destruct db.
Qed.

(** X1: an update of an order or of a driver the store does not hold fails
    and leaves the whole store as it was; reading such an order fails
    too. startDelivery fails with the error of the store when its estimated
    time is a valid date, and with a RangeError otherwise. *)
Theorem update_of_missing_row_changes_nothing
    (db : Db) (rel : Relations) (id : string) (status : OrderStatus)
    (driver_id : option string)
    (estimatedMinutes : Z) (dstatus : DriverStatus) (count : Z)
    (name phone : option string) (now : Z)
    (Horder : orders db !! id = None) (Hdriver : drivers db !! id = None) :
  ordersService.getById id rel db = StoreError
  ∧ ordersService.updateStatus id status now db = (db, StoreError)
  ∧ ordersService.assignDriver id driver_id now db = (db, StoreError)
  ∧ ordersService.startDelivery id estimatedMinutes now db
    = (db, if validTime (now + estimatedMinutes * 60000)
           then StoreError else RangeError)
  ∧ driversService.update id name phone now db = (db, StoreError)
  ∧ driversService.updateStatus id dstatus now db = (db, StoreError)
  ∧ driversService.updateActiveDeliveries id count now db = (db, StoreError)
  ∧ driversService.delete id db = db.
Proof.
  unfold ordersService.getById. rewrite Horder.
  repeat split;
    try (by apply on_orders_miss); try (by apply on_drivers_miss).
  - destruct (validTime (now + estimatedMinutes * 60000)) eqn:Hvalid.
    + by apply startDelivery_miss.
    + by apply startDelivery_out_of_range.
  - unfold driversService.delete. rewrite delete_id by done. by destruct db.
Qed.

Lemma update_of_missing_row_changes_nothing_witness :
  ordersService.startDelivery "Z9" 30 5000 sampleDb = (sampleDb, StoreError)
  ∧ driversService.updateActiveDeliveries "Z9" 2 5000 sampleDb
    = (sampleDb, StoreError).
Proof.
  pose proof (update_of_missing_row_changes_nothing sampleDb sampleRelations
                "Z9" Ready None 30 Busy 2 None None 5000 eq_refl eq_refl)
    as (_ & _ & _ & Hs & _ & _ & Hl & _).
  exact (conj Hs Hl).
Defined.

(** X2: getById gives the columns of an order together with the items and
    the staff notes that refer to it. After an update of the order
    (updateStatus, assignDriver, or startDelivery with a valid estimated
    time) the columns it gives are the row the update returned, which has
    no items or notes embedded; the items and notes are those of before,
    and so is everything getById gives for another order. *)
Theorem getById_reads_what_an_update_returned
    (db : Db) (rel : Relations) (id other : string) (row : DbOrder.t)
    (status : OrderStatus) (driver_id : option string) (estimatedMinutes now : Z)
    (Hrow : orders db !! id = Some row) (Hother : other ≠ id) :
  let after (result : Db * Result DbOrder.t) :=
    ∃ row',
      result.2 = Ok row'
      ∧ ordersService.getById id rel result.1
        = Ok (OrderDetails.mk row' (itemsOf id rel) (notesOf id rel))
      ∧ ordersService.getById other rel result.1
        = ordersService.getById other rel db in
  ordersService.getById id rel db
  = Ok (OrderDetails.mk row (itemsOf id rel) (notesOf id rel))
  ∧ after (ordersService.updateStatus id status now db)
  ∧ after (ordersService.assignDriver id driver_id now db)
  ∧ (validTime (now + estimatedMinutes * 60000) = true →
     after (ordersService.startDelivery id estimatedMinutes now db))
  ∧ (∀ i, i ∈ itemsOf id rel ↔ i ∈ order_items rel ∧ OrderItem.order_id i = id)
  ∧ (∀ n, n ∈ notesOf id rel ↔ n ∈ staff_notes rel ∧ StaffNote.order_id n = id).
Proof.
  intros after.
  assert (∀ patch, after (on_orders (update_single patch id) db)) as Hafter.
  { intros patch. rewrite (on_orders_hit _ _ _ _ Hrow). exists (patch row).
    unfold ordersService.getById. simpl.
    rewrite lookup_insert_eq. by rewrite lookup_insert_ne. }
  split; [|split; [|split; [|split; [|split]]]].
  - unfold ordersService.getById. by rewrite Hrow.
  - apply Hafter.
  - apply Hafter.
  - intros Hvalid. unfold ordersService.startDelivery. cbv zeta.
    rewrite Hvalid. apply Hafter.
  - intros i. unfold itemsOf.
    by rewrite list_elem_of_In, filter_In, <- list_elem_of_In, bool_decide_eq_true.
  - intros n. unfold notesOf.
    by rewrite list_elem_of_In, filter_In, <- list_elem_of_In, bool_decide_eq_true.
Qed.

Lemma getById_reads_what_an_update_returned_witness :
  ∃ row',
    (ordersService.startDelivery "B2" 30 7000 sampleDb).2 = Ok row'
    ∧ ordersService.getById "B2" sampleRelations
        (ordersService.startDelivery "B2" 30 7000 sampleDb).1
      = Ok (OrderDetails.mk row' (itemsOf "B2" sampleRelations)
              (notesOf "B2" sampleRelations))
    ∧ ordersService.getById "A1" sampleRelations
        (ordersService.startDelivery "B2" 30 7000 sampleDb).1
      = ordersService.getById "A1" sampleRelations sampleDb.
Proof.
  assert ("A1" ≠ "B2") as Hne by discriminate.
  exact (proj1 (proj2 (proj2 (proj2
           (getById_reads_what_an_update_returned sampleDb sampleRelations
              "B2" "A1" (sampleOrder "B2" Pending ByPickup 2000) Ready None
              30 7000 eq_refl Hne)))) eq_refl).
Defined.

Example getById_sample :
  OrderDetails.order_items <$>
    (match ordersService.getById "B2" sampleRelations sampleDb with
     | Ok d => Some d
     | _ => None
     end)
  = Some [ OrderItem.mk "i2" "B2" (Some "m2") "Souvlaki" 14 1 14 (Some "no onions");
           OrderItem.mk "i3" "B2" None "Moussaka" 16 1 16 None ].
Proof. reflexivity. Qed.

(** X3: a status update keeps the dispatch data of the order (driver,
    departure, estimated arrival): moving an order to delivery with
    updateStatus records no departure, and completing a delivery keeps its
    driver and times. An assignment keeps status and times, a start of
    delivery (with a valid estimated time) keeps the driver. None of the
    three changes the id, the
    amounts, the payment, the delivery type or created_at; each sets
    updated_at to the time of the call. *)
Theorem order_updates_keep_the_other_columns
    (db : Db) (id : string) (row : DbOrder.t) (status : OrderStatus)
    (driver_id : option string) (estimatedMinutes now : Z)
    (Hrow : orders db !! id = Some row) :
  let same (r : DbOrder.t) :=
    DbOrder.id r = DbOrder.id row
    ∧ DbOrder.customer_name r = DbOrder.customer_name row
    ∧ DbOrder.subtotal r = DbOrder.subtotal row
    ∧ DbOrder.delivery_fee r = DbOrder.delivery_fee row
    ∧ DbOrder.total r = DbOrder.total row
    ∧ DbOrder.payment_method r = DbOrder.payment_method row
    ∧ DbOrder.payment_status r = DbOrder.payment_status row
    ∧ DbOrder.delivery_type r = DbOrder.delivery_type row
    ∧ DbOrder.created_at r = DbOrder.created_at row
    ∧ DbOrder.updated_at r = now in
  (∃ r, (ordersService.updateStatus id status now db).2 = Ok r ∧ same r
        ∧ DbOrder.assigned_driver_id r = DbOrder.assigned_driver_id row
        ∧ DbOrder.delivery_departed_at r = DbOrder.delivery_departed_at row
        ∧ DbOrder.estimated_delivery_time r = DbOrder.estimated_delivery_time row)
  ∧ (∃ r, (ordersService.assignDriver id driver_id now db).2 = Ok r ∧ same r
          ∧ DbOrder.status r = DbOrder.status row
          ∧ DbOrder.delivery_departed_at r = DbOrder.delivery_departed_at row
          ∧ DbOrder.estimated_delivery_time r = DbOrder.estimated_delivery_time row)
  ∧ (validTime (now + estimatedMinutes * 60000) = true →
     ∃ r, (ordersService.startDelivery id estimatedMinutes now db).2 = Ok r
          ∧ same r
          ∧ DbOrder.assigned_driver_id r = DbOrder.assigned_driver_id row).
Proof.
  intros same. unfold ordersService.updateStatus, ordersService.assignDriver.
  rewrite !(on_orders_hit _ _ _ _ Hrow). simpl.
  split; [|split]; [| |intros Hvalid; rewrite (startDelivery_hit _ _ _ _ _ Hrow Hvalid)];
    eexists; (split; [reflexivity|]); unfold same; simpl; done.
Qed.

Lemma order_updates_keep_the_other_columns_witness :
  ∃ r, (ordersService.updateStatus "B2" Delivery 7000 sampleDb).2 = Ok r
       ∧ DbOrder.delivery_departed_at r = None
       ∧ DbOrder.estimated_delivery_time r = None.
Proof.
  destruct (proj1 (order_updates_keep_the_other_columns sampleDb "B2"
                     (sampleOrder "B2" Pending ByPickup 2000) Delivery None 30 7000
                     eq_refl))
    as (r & Hr & _ & _ & Hd & He).
  exists r. exact (conj Hr (conj Hd He)).
Defined.

(** X4: assigning a driver and starting the delivery can be done in either
    order: at one instant the two orders of calls give the same store
    (also when the start fails on an estimated time that is no valid
    date), and at different instants, the estimated time being valid, the
    order row differs in updated_at only. *)
Theorem assign_and_start_commute
    (db : Db) (id : string) (row : DbOrder.t) (driver_id : option string)
    (estimatedMinutes t1 t2 t3 : Z)
    (Hrow : orders db !! id = Some row) :
  (ordersService.startDelivery id estimatedMinutes t2
     (ordersService.assignDriver id driver_id t2 db).1).1
  = (ordersService.assignDriver id driver_id t2
       (ordersService.startDelivery id estimatedMinutes t2 db).1).1
  ∧ (validTime (t2 + estimatedMinutes * 60000) = true →
     ∃ r1 r2,
      (ordersService.startDelivery id estimatedMinutes t2
         (ordersService.assignDriver id driver_id t1 db).1).2 = Ok r1
      ∧ (ordersService.assignDriver id driver_id t3
           (ordersService.startDelivery id estimatedMinutes t2 db).1).2 = Ok r2
      ∧ DbOrder.set_status Delivery 0 r1 = DbOrder.set_status Delivery 0 r2
      ∧ DbOrder.status r1 = Delivery ∧ DbOrder.status r2 = Delivery
      ∧ DbOrder.updated_at r1 = t2 ∧ DbOrder.updated_at r2 = t3).
Proof.
  assert (∀ r, (<[id := r]> (orders db)) !! id = Some r) as Hl
    by (intros r; apply lookup_insert_eq).
  destruct (validTime (t2 + estimatedMinutes * 60000)) eqn:Hvalid.
  - rewrite (startDelivery_hit _ _ _ _ _ Hrow Hvalid).
    rewrite !(assignDriver_hit _ _ _ _ _ Hrow). simpl.
    rewrite !(startDelivery_hit _ _ _ (mkDb _ _) _ (Hl _) Hvalid).
    rewrite !(assignDriver_hit _ _ _ (mkDb _ _) _ (Hl _)). simpl.
    split; [by rewrite !insert_insert_eq|].
    intros _. eexists _, _. done.
  - rewrite !(startDelivery_out_of_range _ _ _ _ Hvalid). simpl.
    split; [done | done].
Qed.

Lemma assign_and_start_commute_witness :
  (ordersService.startDelivery "B2" 30 8000
     (ordersService.assignDriver "B2" (Some "D2") 8000 sampleDb).1).1
  = (ordersService.assignDriver "B2" (Some "D2") 8000
       (ordersService.startDelivery "B2" 30 8000 sampleDb).1).1.
Proof.
  exact (proj1 (assign_and_start_commute sampleDb "B2"
                  (sampleOrder "B2" Pending ByPickup 2000) (Some "D2")
                  30 1 8000 3 eq_refl)).
Defined.

(** ** Listing orders by status *)

Lemma elem_of_rows {Row : Type} (tbl : gmap string Row) (r : Row) :
  r ∈ rows tbl ↔ ∃ id, tbl !! id = Some r.
Proof.
  unfold rows. rewrite list_elem_of_fmap. split.
  - intros ([id r'] & -> & Hin). exists id. by apply elem_of_map_to_list.
  - intros (id & Hid). exists (id, r). split; [done|]. by apply elem_of_map_to_list.
Qed.

Lemma elem_of_sorted_filter {Row : Type} (R : relation Row)
    `{∀ x y, Decision (R x y)} (f : Row → bool) (tbl : gmap string Row) (r : Row) :
  r ∈ merge_sort R (List.filter f (rows tbl))
  ↔ (∃ id, tbl !! id = Some r) ∧ f r = true.
Proof.
  rewrite merge_sort_Permutation, list_elem_of_In, filter_In,
    <- list_elem_of_In, elem_of_rows. done.
Qed.

Lemma length_sorted_filter {Row : Type} (R : relation Row)
    `{∀ x y, Decision (R x y)} (f : Row → bool) (l : list Row) :
  length (merge_sort R (List.filter f l)) = length (List.filter f l).
Proof. by rewrite merge_sort_Permutation. Qed.

Lemma statusName_inj s1 s2 : statusName s1 = statusName s2 → s1 = s2.
Proof. by destruct s1, s2. Qed.

Lemma active_iff_not_terminal s :
  bool_decide (statusName s ∈ ["pending"; "preparing"; "ready"; "delivery"])
  = negb (terminal s).
Proof. by destruct s. Qed.

Lemma filter_split_by_status (l : list DbOrder.t) :
  length l
  = (length (List.filter
       (λ o, bool_decide (statusName (DbOrder.status o)
                          ∈ ["pending"; "preparing"; "ready"; "delivery"])) l)
     + length (List.filter
         (λ o, bool_decide (statusName (DbOrder.status o) = "completed")) l)
     + length (List.filter
         (λ o, bool_decide (statusName (DbOrder.status o) = "cancelled")) l))%nat.
Proof.
  induction l as [|o l IH]; [done|].
  simpl. destruct (DbOrder.status o); simpl; lia.
Qed.

(** X5: getActive returns exactly the orders of the store whose status is
    not terminal, the newest first; together with the completed and the
    cancelled orders they make up all orders of getAll. *)
Theorem getActive_is_the_non_terminal_orders (db : Db) :
  (∀ o, o ∈ ordersService.getActive db
        ↔ (∃ id, orders db !! id = Some o) ∧ terminal (DbOrder.status o) = false)
  ∧ StronglySorted (λ a b, DbOrder.created_at b ≤ DbOrder.created_at a)
      (ordersService.getActive db)
  ∧ length (ordersService.getAll db)
    = (length (ordersService.getActive db)
       + length (ordersService.getByStatus "completed" db)
       + length (ordersService.getByStatus "cancelled" db))%nat.
Proof.
  split; [|split].
  - intros o. unfold ordersService.getActive.
    rewrite elem_of_sorted_filter, active_iff_not_terminal, negb_true_iff. done.
  - unfold ordersService.getActive. apply StronglySorted_merge_sort; apply _.
  - unfold ordersService.getAll, ordersService.getActive, ordersService.getByStatus.
    rewrite !length_sorted_filter, merge_sort_Permutation.
    apply (filter_split_by_status (rows (orders db))).
Qed.

(** X6: getByStatus returns exactly the orders with the status named, the
    newest first; the name of a status is matched as a whole, so a string
    that names no status gives the empty list. *)
Theorem getByStatus_matches_the_name (db : Db) (status : string) :
  (∀ o, o ∈ ordersService.getByStatus status db
        ↔ (∃ id, orders db !! id = Some o) ∧ statusName (DbOrder.status o) = status)
  ∧ StronglySorted (λ a b, DbOrder.created_at b ≤ DbOrder.created_at a)
      (ordersService.getByStatus status db)
  ∧ (∀ s, ordersService.getByStatus (statusName s) db
          = merge_sort created_desc
              (List.filter (λ o, bool_decide (DbOrder.status o = s))
                 (rows (orders db))))
  ∧ ((∀ s, statusName s ≠ status) → ordersService.getByStatus status db = []).
Proof.
  split; [|split; [|split]].
  - intros o. unfold ordersService.getByStatus.
    by rewrite elem_of_sorted_filter, bool_decide_eq_true.
  - unfold ordersService.getByStatus. apply StronglySorted_merge_sort; apply _.
  - intros s. unfold ordersService.getByStatus. f_equal.
    apply filter_ext. intros o. apply bool_decide_ext. split.
    + apply statusName_inj.
    + by intros ->.
  - intros Hno. unfold ordersService.getByStatus.
    replace (List.filter _ (rows (orders db))) with (@nil DbOrder.t); [done|].
    symmetry. induction (rows (orders db)) as [|o l IH]; [done|].
    simpl. rewrite bool_decide_false by apply Hno. done.
Qed.

Lemma getByStatus_matches_the_name_witness :
  ordersService.getByStatus "Completed" sampleDb = []
  ∧ DbOrder.id <$> ordersService.getByStatus "completed" sampleDb = ["A1"].
Proof.
  split; [|vm_compute; reflexivity].
  apply (getByStatus_matches_the_name sampleDb "Completed").
  intros s. by destruct s.
Defined.

(** ** Payment status *)

Lemma updatePaymentStatus_hit id ps txn now tbl r :
  tbl !! id = Some r →
  ordersService.updatePaymentStatus id ps txn now tbl
  = (<[id := PaidOrder.mk (set_payment_status ps now (PaidOrder.order r))
             (if bool_decide (ps = Paid) then Some now else PaidOrder.paid_at r)
             (if truthy txn then txn else PaidOrder.payment_transaction_id r)]> tbl,
     Ok (PaidOrder.mk (set_payment_status ps now (PaidOrder.order r))
           (if bool_decide (ps = Paid) then Some now else PaidOrder.paid_at r)
           (if truthy txn then txn else PaidOrder.payment_transaction_id r))).
Proof.
  intros Hr. unfold ordersService.updatePaymentStatus.
  by rewrite (update_single_hit _ _ _ _ Hr).
Qed.

Lemma lastPaid_is_Some calls before :
  is_Some before → is_Some (lastPaid calls before).
Proof.
  revert before. induction calls as [|[[ps txn] now] calls IH]; intros before Hb;
    [done|].
  simpl. apply IH. by case_bool_decide.
Qed.

Lemma paymentUpdates_lookup id calls :
  ∀ tbl r, tbl !! id = Some r →
    ∃ r', paymentUpdates id calls tbl !! id = Some r'
          ∧ PaidOrder.paid_at r' = lastPaid calls (PaidOrder.paid_at r)
          ∧ PaidOrder.payment_transaction_id r'
            = lastTransaction calls (PaidOrder.payment_transaction_id r)
          ∧ DbOrder.status (PaidOrder.order r') = DbOrder.status (PaidOrder.order r)
          ∧ DbOrder.total (PaidOrder.order r') = DbOrder.total (PaidOrder.order r)
          ∧ DbOrder.payment_method (PaidOrder.order r')
            = DbOrder.payment_method (PaidOrder.order r).
Proof.
  induction calls as [|[[ps txn] now] calls IH]; intros tbl r Hr.
  - exists r. by simpl.
  - simpl. rewrite (updatePaymentStatus_hit _ _ _ _ _ _ Hr). simpl.
    set (r1 := PaidOrder.mk _ _ _).
    destruct (IH (<[id := r1]> tbl) r1 (lookup_insert_eq _ _ _))
      as (r' & Hr' & Hp & Ht & Hs & Hto & Hm).
    exists r'. split; [exact Hr'|]. by rewrite Hp, Ht, Hs, Hto, Hm.
Qed.

(** X7: updatePaymentStatus stamps paid_at when the new status is paid and
    otherwise keeps it, and stores a transaction id only when one that is
    not empty is given. So over any sequence of calls for an order paid_at
    is the time of the last call that marked it paid (a later refund or
    failure does not clear it), the transaction id is the last one given,
    and the order status, total and payment method stay as they were. *)
Theorem payment_updates_never_clear_paid_at
    (id : string) (calls : list (PaymentStatus * option string * Z))
    (tbl : gmap string PaidOrder.t) (r : PaidOrder.t)
    (Hr : tbl !! id = Some r) :
  ∃ r', paymentUpdates id calls tbl !! id = Some r'
        ∧ PaidOrder.paid_at r' = lastPaid calls (PaidOrder.paid_at r)
        ∧ (is_Some (PaidOrder.paid_at r) → is_Some (PaidOrder.paid_at r'))
        ∧ PaidOrder.payment_transaction_id r'
          = lastTransaction calls (PaidOrder.payment_transaction_id r)
        ∧ DbOrder.status (PaidOrder.order r') = DbOrder.status (PaidOrder.order r)
        ∧ DbOrder.total (PaidOrder.order r') = DbOrder.total (PaidOrder.order r)
        ∧ DbOrder.payment_method (PaidOrder.order r')
          = DbOrder.payment_method (PaidOrder.order r).
Proof.
  destruct (paymentUpdates_lookup id calls tbl r Hr)
    as (r' & Hr' & Hp & Ht & Hs & Hto & Hm).
  exists r'. repeat split; try done.
  rewrite Hp. apply lastPaid_is_Some.
Qed.

Lemma payment_updates_never_clear_paid_at_witness :
  ∃ r', paymentUpdates "B2"
          [(Paid, Some "tr_1", 100); (Refunded, Some "", 200); (Failed, None, 300)]
          (<["B2" := PaidOrder.mk (sampleOrder "B2" Pending ByPickup 2000) None None]> ∅)
        !! "B2" = Some r'
        ∧ PaidOrder.paid_at r' = Some 100
        ∧ PaidOrder.payment_transaction_id r' = Some "tr_1".
Proof.
  destruct (payment_updates_never_clear_paid_at "B2"
              [(Paid, Some "tr_1", 100); (Refunded, Some "", 200); (Failed, None, 300)]
              (<["B2" := PaidOrder.mk (sampleOrder "B2" Pending ByPickup 2000) None None]> ∅)
              (PaidOrder.mk (sampleOrder "B2" Pending ByPickup 2000) None None)
              (lookup_insert_eq _ _ _))
    as (r' & Hr' & Hp & _ & Ht & _).
  exists r'. split; [exact Hr'|]. split; [exact Hp | exact Ht].
Defined.

(** ** Drivers *)

Lemma NoDup_fmap_filter {A B : Type} (g : A → B) (f : A → bool) (l : list A) :
  NoDup (g <$> l) → NoDup (g <$> List.filter f l).
Proof.
  induction l as [|x l IH]; [done|]. rewrite fmap_cons.
  intros [Hnotin Hnd]%NoDup_cons. simpl. destruct (f x); [|by apply IH].
  rewrite fmap_cons. apply NoDup_cons. split; [|by apply IH].
  intros (y & Hy & Hin)%list_elem_of_fmap. apply Hnotin.
  apply list_elem_of_fmap. exists y. split; [done|].
  apply list_elem_of_In in Hin. apply filter_In in Hin as [Hin _].
  by apply list_elem_of_In.
Qed.

Lemma rows_ids (tbl : gmap string DbDriver.t) :
  (∀ id d, tbl !! id = Some d → DbDriver.id d = id) →
  DbDriver.id <$> rows tbl = (map_to_list tbl).*1.
Proof.
  intros Hkey. unfold rows. rewrite <- list_fmap_compose.
  apply list_fmap_ext. intros i [id d] Hin. simpl.
  apply Hkey. apply elem_of_map_to_list. by apply list_elem_of_lookup_2 in Hin.
Qed.

(** X8: getAvailable returns exactly the drivers of the store that are not
    offline, each of them once, ordered by active deliveries: no offline
    driver is ever listed, no driver is listed twice (the table being keyed
    by the id of its rows), and the first driver listed has the smallest
    load of all drivers that are not offline. *)
Theorem getAvailable_lists_least_loaded_first (db : Db) :
  (∀ d, d ∈ driversService.getAvailable db
        ↔ (∃ id, drivers db !! id = Some d) ∧ DbDriver.status d ≠ Offline)
  ∧ ((∀ id d, drivers db !! id = Some d → DbDriver.id d = id) →
     NoDup (DbDriver.id <$> driversService.getAvailable db))
  ∧ StronglySorted (λ a b, DbDriver.active_deliveries a ≤ DbDriver.active_deliveries b)
      (driversService.getAvailable db)
  ∧ (∀ first, head (driversService.getAvailable db) = Some first →
       ∀ id d, drivers db !! id = Some d → DbDriver.status d ≠ Offline →
               DbDriver.active_deliveries first ≤ DbDriver.active_deliveries d)
  ∧ ((∀ id d, drivers db !! id = Some d → DbDriver.status d = Offline) →
     driversService.getAvailable db = []).
Proof.
  assert (∀ d, d ∈ driversService.getAvailable db
               ↔ (∃ id, drivers db !! id = Some d) ∧ DbDriver.status d ≠ Offline)
    as Hel.
  { intros d. unfold driversService.getAvailable.
    by rewrite elem_of_sorted_filter, bool_decide_eq_true. }
  assert (StronglySorted load_asc (driversService.getAvailable db)) as Hs.
  { unfold driversService.getAvailable. apply StronglySorted_merge_sort; apply _. }
  split; [exact Hel|]. split; [|split; [exact Hs|split]].
  - intros Hkey. unfold driversService.getAvailable.
    rewrite merge_sort_Permutation. apply NoDup_fmap_filter.
    rewrite (rows_ids _ Hkey). apply NoDup_fst_map_to_list.
  - intros first Hhd id d Hd Hon.
    assert (d ∈ driversService.getAvailable db) as Hin by (apply Hel; eauto).
    destruct (driversService.getAvailable db) as [|x l]; [done|].
    injection Hhd as ->. apply elem_of_cons in Hin as [-> | Hin]; [lia|].
    by apply (sorted_head_bounds load_asc first l).
  - intros Hoff.
    destruct (driversService.getAvailable db) as [|x l] eqn:Heq; [done|].
    assert (x ∈ x :: l) as Hin by left.
    apply Hel in Hin as [[id Hid] Hon]. by apply Hoff in Hid.
Qed.

Lemma getAvailable_lists_least_loaded_first_witness :
  driversService.getAvailable sampleFleet
  = [sampleDriver "D3" Available 0; sampleDriver "D4" Busy 1;
     sampleDriver "D2" Busy 3]
  ∧ DbDriver.active_deliveries (sampleDriver "D3" Available 0)
    ≤ DbDriver.active_deliveries (sampleDriver "D2" Busy 3).
Proof.
  split; [vm_compute; reflexivity|].
  assert (head (driversService.getAvailable sampleFleet)
          = Some (sampleDriver "D3" Available 0)) as Hhead
    by (vm_compute; reflexivity).
  assert (drivers sampleFleet !! "D2" = Some (sampleDriver "D2" Busy 3)) as Hd
    by (vm_compute; reflexivity).
  assert (DbDriver.status (sampleDriver "D2" Busy 3) ≠ Offline) as Hon
    by discriminate.
  exact (proj1 (proj2 (proj2 (proj2 (getAvailable_lists_least_loaded_first sampleFleet))))
           (sampleDriver "D3" Available 0) Hhead "D2" (sampleDriver "D2" Busy 3)
           Hd Hon).
Defined.

(** X9: a driver that has been created is read back as created, available
    and without active deliveries, and deleting it again gives the store
    from before the creation; creating touches neither the orders nor the
    other drivers. *)
Theorem driver_create_then_delete
    (db : Db) (id name phone : string) (now : Z) (other : string)
    (Hfresh : drivers db !! id = None) (Hother : other ≠ id) :
  (driversService.create id name phone now db).2
  = Ok (DbDriver.mk id name phone Available 0 now now)
  ∧ drivers (driversService.create id name phone now db).1 !! id
    = Some (DbDriver.mk id name phone Available 0 now now)
  ∧ drivers (driversService.create id name phone now db).1 !! other
    = drivers db !! other
  ∧ orders (driversService.create id name phone now db).1 = orders db
  ∧ driversService.delete id (driversService.create id name phone now db).1 = db.
Proof.
  unfold driversService.create. rewrite Hfresh. simpl.
  rewrite lookup_insert_eq, lookup_insert_ne by done.
  repeat split.
  unfold driversService.delete. simpl.
  rewrite delete_insert_eq, delete_id by done. by destruct db.
Qed.

Lemma driver_create_then_delete_witness :
  driversService.delete "D9"
    (driversService.create "D9" "Maria" "0687654321" 4000 sampleDb).1 = sampleDb.
Proof.
  assert ("D1" ≠ "D9") as Hne by discriminate.
  exact (proj2 (proj2 (proj2 (proj2
           (driver_create_then_delete sampleDb "D9" "Maria" "0687654321" 4000 "D1"
              eq_refl Hne))))).
Defined.

(** X10: of two updates of a driver the later one decides the status. A
    load update after a status update gives the store the load update
    alone gives: the status the operator chose is gone. A status update
    after a load update keeps the count and sets the chosen status. Two
    load updates give what the second alone gives. *)
Theorem driver_updates_compose
    (db : Db) (id : string) (d : DbDriver.t) (status : DriverStatus)
    (count count' earlier now : Z)
    (Hd : drivers db !! id = Some d) :
  (driversService.updateActiveDeliveries id count now
     (driversService.updateStatus id status earlier db).1
   = driversService.updateActiveDeliveries id count now db)
  ∧ (driversService.updateActiveDeliveries id count now
       (driversService.updateActiveDeliveries id count' earlier db).1
     = driversService.updateActiveDeliveries id count now db)
  ∧ (∃ d', (driversService.updateStatus id status now
              (driversService.updateActiveDeliveries id count earlier db).1).2 = Ok d'
           ∧ DbDriver.status d' = status
           ∧ DbDriver.active_deliveries d' = count).
Proof.
  unfold driversService.updateActiveDeliveries, driversService.updateStatus.
  assert (∀ r, (<[id := r]> (drivers db)) !! id = Some r) as Hl
    by (intros r; apply lookup_insert_eq).
  rewrite !(on_drivers_hit _ _ _ _ Hd). simpl.
  split; [|split].
  - rewrite (on_drivers_hit _ id (mkDb _ _) _ (Hl _)). simpl.
    by rewrite insert_insert_eq.
  - rewrite (on_drivers_hit _ id (mkDb _ _) _ (Hl _)). simpl.
    by rewrite insert_insert_eq.
  - rewrite (on_drivers_hit _ id (mkDb _ _) _ (Hl _)). simpl. by eexists.
Qed.

Lemma driver_updates_compose_witness :
  driversService.updateActiveDeliveries "D2" 0 6000
    (driversService.updateStatus "D2" Offline 5000 sampleDb).1
  = driversService.updateActiveDeliveries "D2" 0 6000 sampleDb.
Proof.
  exact (proj1 (driver_updates_compose sampleDb "D2" (sampleDriver "D2" Busy 3)
                  Offline 0 5 5000 6000 eq_refl)).
Defined.

(** ** Settings *)

Section Settings.
Context {V : Type}.
Implicit Types (tbl : gmap string (DbSettingRow.t V)) (value : gmap string V).



Lemma settings_get_upsert tbl (key : string) value (newId : string) (now : Z) :
  settingsService.get key (settingsService.upsert key value newId now tbl).1
  = Some value.
Proof.
  unfold settingsService.get, settingsService.upsert. simpl.
  rewrite lookup_insert_eq. by destruct (tbl !! key).
Qed.

Lemma settings_get_upsert_other tbl (key other : string) value
    (newId : string) (now : Z) :
  other ≠ key →
  settingsService.get other (settingsService.upsert key value newId now tbl).1
  = settingsService.get other tbl.
Proof.
  intros Hother. unfold settingsService.get, settingsService.upsert. simpl.
  by rewrite lookup_insert_ne.
Qed.


(** X12: the five merging updates (updateGeneral and its siblings) change
    the properties they are given and keep the other properties of the
    setting; on a setting without a row they store the given properties;
    they leave every other setting alone; and two of them in a row give the
    value of one update with both sets of properties, the later winning. *)
Theorem settings_update_merges
    tbl (key other : string) (settings later : gmap string V)
    (newId newId' : string) (now now' : Z)
    (Hother : other ≠ key) :
  let tbl1 := (settingsService.updateMerged key settings newId now tbl).1 in
  (∀ p, default ∅ (settingsService.get key tbl1) !! p
        = match settings !! p with
          | Some v => Some v
          | None => default ∅ (settingsService.get key tbl) !! p
          end)
  ∧ (settingsService.get key tbl = None →
     settingsService.get key tbl1 = Some settings)
  ∧ settingsService.get other tbl1 = settingsService.get other tbl
  ∧ settingsService.get key
      (settingsService.updateMerged key later newId' now' tbl1).1
    = settingsService.get key
        (settingsService.updateMerged key (later ∪ settings) newId now' tbl).1.
Proof.
  intros tbl1. unfold tbl1, settingsService.updateMerged.
  pose proof (settings_get_upsert tbl key
                (settings ∪ default ∅ (settingsService.get key tbl)) newId now)
    as Hget.
  pose proof (settings_get_upsert_other tbl key other
                (settings ∪ default ∅ (settingsService.get key tbl)) newId now Hother)
    as Hoth.
  split; [|split; [|split]].
  - intros p. rewrite Hget. simpl. rewrite lookup_union.
    destruct (settings !! p) as [v|]; simpl.
    + by destruct (default ∅ (settingsService.get key tbl) !! p).
    + by destruct (default ∅ (settingsService.get key tbl) !! p).
  - intros Hnone. rewrite Hget, Hnone. simpl. by rewrite (right_id_L ∅ (∪)).
  - exact Hoth.
  - rewrite Hget.
    rewrite !settings_get_upsert.
    simpl. by rewrite (assoc_L (∪)).
Qed.

(** X13: updateOpeningHours does not merge: whatever was stored before,
    the opening hours read afterwards are exactly the ones given, so a day
    the caller leaves out is gone; the merging updates keep such a
    property. *)
Theorem opening_hours_are_replaced
    tbl (hours : gmap string V) (day : string) (newId : string) (now : Z)
    (Hout : hours !! day = None) :
  settingsService.get "opening_hours"
    (settingsService.updateOpeningHours hours newId now tbl).1 = Some hours
  ∧ default ∅ (settingsService.get "opening_hours"
                 (settingsService.updateOpeningHours hours newId now tbl).1) !! day
    = None
  ∧ default ∅ (settingsService.get "opening_hours"
                 (settingsService.updateMerged "opening_hours" hours newId now tbl).1)
      !! day
    = default ∅ (settingsService.get "opening_hours" tbl) !! day.
Proof.
  unfold settingsService.updateOpeningHours, settingsService.updateMerged.
  rewrite !settings_get_upsert.
  simpl. split; [done|]. split; [done|].
  rewrite lookup_union, Hout. by destruct (default ∅ _ !! day).
Qed.

End Settings.


Lemma settings_update_merges_witness :
  default ∅ (settingsService.get "general"
               (settingsService.updateGeneral (<["phone" := "070"]> ∅) "s3" 20
                  sampleSettings).1) !! "name"
  = Some "Greek Irini"
  ∧ settingsService.get "opening_hours"
      (settingsService.updateGeneral (<["phone" := "070"]> ∅) "s3" 20
         sampleSettings).1
    = settingsService.get "opening_hours" sampleSettings.
Proof.
  assert ("opening_hours" ≠ "general") as Hne by discriminate.
  pose proof (settings_update_merges sampleSettings "general" "opening_hours"
                (<["phone" := "070"]> ∅) ∅ "s3" "s4" 20 30 Hne) as H.
  cbv zeta in H. destruct H as (H1 & _ & H3 & _).
  unfold settingsService.updateGeneral. split; [|exact H3].
  rewrite (H1 "name"). vm_compute. reflexivity.
Defined.

Lemma opening_hours_are_replaced_witness :
  default ∅ (settingsService.get "opening_hours"
               (settingsService.updateOpeningHours (<["tuesday" := "10-20"]> ∅)
                  "s3" 20 sampleSettings).1) !! "monday"
  = None
  ∧ default ∅ (settingsService.get "opening_hours" sampleSettings) !! "monday"
    = Some "closed".
Proof.
  assert ((<["tuesday" := "10-20"]> ∅ : gmap string string) !! "monday" = None)
    as Hout by (vm_compute; reflexivity).
  split; [|vm_compute; reflexivity].
  exact (proj1 (proj2 (opening_hours_are_replaced sampleSettings
                         (<["tuesday" := "10-20"]> ∅) "monday" "s3" 20 Hout))).
Defined.

(** * Further properties of the dashboard *)

(** ** Active orders *)

Lemma filteredOrders_terminal tz range orders o :
  o ∈ filteredOrders tz range orders → Order.status o = Completed.
Proof.
  rewrite filteredOrders_eligible, list_elem_of_filter. by intros [(_ & Hc & _) _].
Qed.

Lemma paid_split (l : list Order.t) :
  length l
  = (countIf (λ o, bool_decide (Order.status o = Completed)) l
     + countIf (λ o, negb (bool_decide (Order.status o ∈ [Completed; Cancelled]))) l
     + countIf (λ o, bool_decide (Order.status o = Cancelled)) l)%nat.
Proof.
  unfold countIf. induction l as [|o l IH]; [done|].
  simpl. destruct (Order.status o); simpl; lia.
Qed.

(** X14: the count of active orders does not depend on the date range: it
    is the number of paid-or-cash orders whose status is not terminal. No
    order is both active and counted in the revenue, and with no range set
    every paid-or-cash order is counted in the revenue, or active, or
    cancelled. *)
Theorem activeCount_ignores_the_range
    (tz : Z) (range range' : DateRange) (orders : list Order.t) :
  activeCount (stats tz range orders) = activeCount (stats tz range' orders)
  ∧ activeCount (stats tz range orders)
    = countIf (λ o, isPaid o && negb (terminal (Order.status o))) orders
  ∧ (∀ o, o ∈ filteredOrders tz range orders → terminal (Order.status o) = true)
  ∧ length (paidOrders orders)
    = (orderCount (stats tz (mkRange None None) orders)
       + activeCount (stats tz range orders)
       + countIf (λ o, bool_decide (Order.status o = Cancelled)) (paidOrders orders))%nat.
Proof.
  split; [done|]. split; [|split].
  - simpl. unfold countIf, paidOrders.
    induction orders as [|o l IH]; [done|].
    simpl. destruct (isPaid o); simpl; [|done].
    destruct (Order.status o); simpl; by rewrite ?IH.
  - intros o Hin. by rewrite (filteredOrders_terminal _ _ _ _ Hin).
  - simpl. rewrite (paid_split (paidOrders orders)). unfold countIf.
    reflexivity.
Qed.

(** ** Distributions *)

Lemma histogram_acc_length (bucket : Order.t → Z) (l : list Order.t) :
  ∀ arr : list nat,
    length (foldl (λ arr o, alter S (Z.to_nat (bucket o)) arr) arr l) = length arr.
Proof.
  induction l as [|o l IH]; intros arr; [done|].
  simpl. by rewrite IH, length_alter.
Qed.

Lemma sum_list_alter_S (arr : list nat) (i : nat) :
  (i < length arr)%nat → sum_list (alter S i arr) = S (sum_list arr).
Proof.
  revert i. induction arr as [|x arr IH]; intros i Hi; simpl in *; [lia|].
  destruct i as [|i]; [done|].
  change (sum_list (alter S (S i) (x :: arr)))
    with (x + sum_list (alter S i arr))%nat.
  rewrite IH by lia. lia.
Qed.

Lemma histogram_acc_sum (bucket : Order.t → Z) (l : list Order.t) :
  ∀ arr : list nat, (∀ o, o ∈ l → (Z.to_nat (bucket o) < length arr)%nat) →
    sum_list (foldl (λ arr o, alter S (Z.to_nat (bucket o)) arr) arr l)
    = (sum_list arr + length l)%nat.
Proof.
  induction l as [|o l IH]; intros arr Hin; simpl; [lia|].
  rewrite IH.
  - rewrite sum_list_alter_S by (apply Hin; left). lia.
  - intros o' Ho'. rewrite length_alter. apply Hin. by right.
Qed.

Lemma histogram_acc_lookup (bucket : Order.t → Z) (l : list Order.t) (k : nat) :
  ∀ arr : list nat,
    foldl (λ arr o, alter S (Z.to_nat (bucket o)) arr) arr l !! k
    = (λ c, c + countIf (λ o, bool_decide (Z.to_nat (bucket o) = k)) l)%nat
      <$> arr !! k.
Proof.
  unfold countIf. induction l as [|o l IH]; intros arr; simpl.
  - destruct (arr !! k); simpl; [f_equal; lia | done].
  - rewrite IH. case_bool_decide as Hk.
    + rewrite <- Hk, list_lookup_alter_eq.
      destruct (arr !! Z.to_nat (bucket o)); simpl; [f_equal; lia | done].
    + rewrite list_lookup_alter_ne by done. done.
Qed.

Lemma sum_list_replicate_0 n : sum_list (replicate n 0%nat) = 0%nat.
Proof. induction n; simpl; lia. Qed.

Lemma getHours_range tz t : 0 ≤ getHours tz t < 24.
Proof.
  unfold getHours, msPerDay.
  pose proof (Z.mod_pos_bound (t + tz) 86400000 ltac:(lia)) as Hb.
  split; [apply Z.div_pos; lia|].
  apply Z.div_lt_upper_bound; lia.
Qed.

Lemma getDay_range tz t : 0 ≤ getDay tz t < 7.
Proof. unfold getDay. apply Z.mod_pos_bound. lia. Qed.

(** X15: the hour and weekday distributions have 24 and 7 buckets; bucket
    [h] holds the number of counted orders created in local hour [h] (on
    local weekday [h]), and the buckets of each add up to the order
    count: every counted order is in exactly one bucket of each. *)
Theorem hour_and_weekday_buckets_add_up
    (tz : Z) (range : DateRange) (orders : list Order.t) :
  length (hourlyOrders tz range orders) = 24%nat
  ∧ length (dayOfWeek tz range orders) = 7%nat
  ∧ sum_list (hourlyOrders tz range orders) = orderCount (stats tz range orders)
  ∧ sum_list (dayOfWeek tz range orders) = orderCount (stats tz range orders)
  ∧ (∀ h : nat, (h < 24)%nat →
       hourlyOrders tz range orders !! h
       = Some (countIf (λ o, bool_decide (getHours tz (Order.createdAt o) = Z.of_nat h))
                 (filteredOrders tz range orders)))
  ∧ (∀ d : nat, (d < 7)%nat →
       dayOfWeek tz range orders !! d
       = Some (countIf (λ o, bool_decide (getDay tz (Order.createdAt o) = Z.of_nat d))
                 (filteredOrders tz range orders))).
Proof.
  unfold hourlyOrders, dayOfWeek, histogram.
  rewrite !histogram_acc_length, !length_replicate.
  split; [done|]. split; [done|]. split; [|split; [|split]].
  - rewrite histogram_acc_sum, sum_list_replicate_0; [done|].
    intros o _. rewrite length_replicate.
    pose proof (getHours_range tz (Order.createdAt o)). lia.
  - rewrite histogram_acc_sum, sum_list_replicate_0; [done|].
    intros o _. rewrite length_replicate.
    pose proof (getDay_range tz (Order.createdAt o)). lia.
  - intros h Hh. rewrite histogram_acc_lookup, lookup_replicate_2 by done.
    simpl. f_equal. unfold countIf. f_equal. apply filter_ext. intros o.
    apply bool_decide_ext.
    pose proof (getHours_range tz (Order.createdAt o)). lia.
  - intros d Hd. rewrite histogram_acc_lookup, lookup_replicate_2 by done.
    simpl. f_equal. unfold countIf. f_equal. apply filter_ext. intros o.
    apply bool_decide_ext.
    pose proof (getDay_range tz (Order.createdAt o)). lia.
Qed.

Lemma hour_and_weekday_buckets_add_up_witness :
  hourlyOrders 0 sampleDay sampleOrders !! 23%nat = Some 1%nat
  ∧ dayOfWeek 0 sampleDay sampleOrders !! 5%nat = Some 2%nat.
Proof.
  pose proof (hour_and_weekday_buckets_add_up 0 sampleDay sampleOrders)
    as (_ & _ & _ & _ & Hh & Hd).
  split.
  - rewrite (Hh 23%nat) by lia. vm_compute. reflexivity.
  - rewrite (Hd 5%nat) by lia. vm_compute. reflexivity.
Defined.

Lemma activeCount_ignores_the_range_witness :
  terminal (Order.status (paidOrder "P2" Completed 59 86400000)) = true.
Proof.
  apply (proj1 (proj2 (proj2 (activeCount_ignores_the_range 0 sampleDay sampleDay
                                sampleOrders)))).
  apply list_elem_of_In. vm_compute. left. reflexivity.
Defined.

Lemma deliveryMethods_acc (l : list Order.t) :
  ∀ acc,
    let r := foldl (λ acc o,
               if bool_decide (Order.type <$> Order.delivery o = Some ByDelivery)
               then mkDeliveryMethods (S (dm_delivery acc)) (dm_pickup acc)
               else mkDeliveryMethods (dm_delivery acc) (S (dm_pickup acc)))
             acc l in
    dm_delivery r
    = (dm_delivery acc
       + countIf (λ o, bool_decide (Order.type <$> Order.delivery o = Some ByDelivery)) l)%nat
    ∧ dm_pickup r
      = (dm_pickup acc
         + countIf (λ o, negb (bool_decide (Order.type <$> Order.delivery o
                                            = Some ByDelivery))) l)%nat.
Proof.
  unfold countIf. induction l as [|o l IH]; intros acc; simpl; [lia|].
  destruct (IH (if bool_decide (Order.type <$> Order.delivery o = Some ByDelivery)
                then mkDeliveryMethods (S (dm_delivery acc)) (dm_pickup acc)
                else mkDeliveryMethods (dm_delivery acc) (S (dm_pickup acc))))
    as [Hd Hp].
  simpl in Hd, Hp. rewrite Hd, Hp.
  case_bool_decide; simpl; lia.
Qed.

Lemma paymentMethods_acc (l : list Order.t) :
  ∀ acc,
    let r := foldl (λ acc o,
               if bool_decide (Order.method <$> Order.payment o = Some Card)
               then mkPaymentMethods (S (pm_card acc)) (pm_cash acc) (pm_ideal acc)
               else if bool_decide (Order.method <$> Order.payment o = Some Cash)
               then mkPaymentMethods (pm_card acc) (S (pm_cash acc)) (pm_ideal acc)
               else if bool_decide (Order.method <$> Order.payment o = Some Ideal)
               then mkPaymentMethods (pm_card acc) (pm_cash acc) (S (pm_ideal acc))
               else acc)
             acc l in
    pm_card r
    = (pm_card acc
       + countIf (λ o, bool_decide (Order.method <$> Order.payment o = Some Card)) l)%nat
    ∧ pm_cash r
      = (pm_cash acc
         + countIf (λ o, bool_decide (Order.method <$> Order.payment o = Some Cash)) l)%nat
    ∧ pm_ideal r
      = (pm_ideal acc
         + countIf (λ o, bool_decide (Order.method <$> Order.payment o = Some Ideal)) l)%nat.
Proof.
  unfold countIf. induction l as [|o l IH]; intros acc; simpl; [lia|].
  edestruct IH as (Hc & Hca & Hi). rewrite Hc, Hca, Hi. clear IH Hc Hca Hi.
  destruct (Order.payment o) as [[m ps]|]; [destruct m|]; simpl; lia.
Qed.

Lemma count_by_method (l : list Order.t) :
  (∀ o, o ∈ l → is_Some (Order.payment o)) →
  length l
  = (countIf (λ o, bool_decide (Order.method <$> Order.payment o = Some Card)) l
     + countIf (λ o, bool_decide (Order.method <$> Order.payment o = Some Cash)) l
     + countIf (λ o, bool_decide (Order.method <$> Order.payment o = Some Ideal)) l
     + countIf (λ o, bool_decide (Order.method <$> Order.payment o = Some Bancontact)) l)%nat.
Proof.
  unfold countIf. induction l as [|o l IH]; intros Hpay; [done|].
  simpl. rewrite IH by (intros o' Ho'; apply Hpay; by right).
  destruct (Hpay o ltac:(left)) as [[m ps] Hp]. rewrite Hp.
  destruct m; simpl; lia.
Qed.

Lemma count_split {A : Type} (f : A → bool) (l : list A) :
  length l = (countIf f l + countIf (λ x, negb (f x)) l)%nat.
Proof.
  unfold countIf. induction l as [|x l IH]; [done|].
  simpl. destruct (f x); simpl; lia.
Qed.

(** X16: every counted order is a delivery or a pickup, an order without
    delivery data counting as a pickup, so the two delivery counts add up
    to the order count. The payment counts cover card, cash and iDEAL only:
    they add up to the order count less the counted orders paid with
    Bancontact, which are in the revenue but in none of the three
    counts. *)
Theorem delivery_and_payment_counts
    (tz : Z) (range : DateRange) (orders : list Order.t) :
  let counted := filteredOrders tz range orders in
  (dm_delivery (deliveryMethods tz range orders)
   + dm_pickup (deliveryMethods tz range orders)
   = orderCount (stats tz range orders))%nat
  ∧ dm_delivery (deliveryMethods tz range orders)
    = countIf (λ o, bool_decide (Order.type <$> Order.delivery o = Some ByDelivery))
        counted
  ∧ (pm_card (paymentMethods tz range orders)
     + pm_cash (paymentMethods tz range orders)
     + pm_ideal (paymentMethods tz range orders)
     + countIf (λ o, bool_decide (Order.method <$> Order.payment o = Some Bancontact))
         counted
     = orderCount (stats tz range orders))%nat
  ∧ pm_cash (paymentMethods tz range orders)
    = countIf (λ o, bool_decide (Order.method <$> Order.payment o = Some Cash)) counted.
Proof.
  intros counted.
  destruct (deliveryMethods_acc counted (mkDeliveryMethods 0 0)) as [Hd Hp].
  destruct (paymentMethods_acc counted (mkPaymentMethods 0 0 0)) as (Hc & Hca & Hi).
  unfold deliveryMethods, paymentMethods. fold counted.
  rewrite Hd, Hp, Hc, Hca, Hi. simpl. fold counted.
  split; [|split; [done|split; [|done]]].
  - symmetry. apply count_split.
  - symmetry. apply count_by_method. intros o Ho.
    unfold counted in Ho. rewrite filteredOrders_eligible in Ho.
    apply list_elem_of_filter in Ho as [([Hpaid | Hcash] & _) _].
    + by destruct (Order.payment o).
    + by destruct (Order.payment o).
Qed.

Example delivery_and_payment_counts_sample :
  let bc := Order.mk "P5" Completed (Some (Order.mkPayment Bancontact Paid)) None None
              10 None 86400001 in
  deliveryMethods 0 sampleDay (bc :: sampleOrders) = mkDeliveryMethods 0 3
  ∧ paymentMethods 0 sampleDay (bc :: sampleOrders) = mkPaymentMethods 0 1 1
  ∧ orderCount (stats 0 sampleDay (bc :: sampleOrders)) = 3%nat.
Proof. vm_compute. done. Qed.

(** ** Peak hour *)

Lemma maxOf_bounds (arr : list nat) (x : nat) : x ∈ arr → (x ≤ maxOf arr)%nat.
Proof.
  induction arr as [|y arr IH]; intros Hin; [by apply elem_of_nil in Hin|].
  simpl. apply elem_of_cons in Hin as [-> | Hin]; [lia|].
  specialize (IH Hin). lia.
Qed.

Lemma maxOf_elem (arr : list nat) : arr ≠ [] → maxOf arr ∈ arr.
Proof.
  induction arr as [|y arr IH]; intros Hne; [done|]. simpl.
  destruct arr as [|z arr].
  - simpl. rewrite Nat.max_0_r. left.
  - destruct (Nat.max_spec y (maxOf (z :: arr))) as [[_ ->] | [_ ->]].
    + right. by apply IH.
    + left.
Qed.

Lemma indexOf_spec (x : nat) (arr : list nat) :
  x ∈ arr →
  ∃ i : nat, indexOf x arr = Z.of_nat i ∧ arr !! i = Some x
             ∧ ∀ j y, (j < i)%nat → arr !! j = Some y → y ≠ x.
Proof.
  induction arr as [|y arr IH]; intros Hin; [by apply elem_of_nil in Hin|].
  simpl. case_bool_decide as Hy.
  - exists 0%nat. repeat split; [by rewrite Hy|]. intros j y' Hj. lia.
  - apply elem_of_cons in Hin as [-> | Hin]; [done|].
    destruct (IH Hin) as (i & Hi & Hl & Hfirst). rewrite Hi.
    destruct (Z.ltb_spec (Z.of_nat i) 0); [lia|].
    exists (S i). split; [lia|]. split; [done|].
    intros [|j] y' Hj Hy'.
    + simpl in Hy'. by injection Hy' as <-.
    + simpl in Hy'. apply (Hfirst j); [lia | done].
Qed.

Lemma indexOf_absent (x : nat) (arr : list nat) : x ∉ arr → indexOf x arr = -1.
Proof.
  induction arr as [|y arr IH]; intros Hnot; [done|].
  simpl. rewrite bool_decide_false by (intros ->; apply Hnot; left).
  rewrite IH by (intros Hin; apply Hnot; by right). done.
Qed.

(** X17: the peak hour is an hour of the day, its bucket holds the peak
    count, no hour has more orders than the peak count and every earlier
    hour has fewer: of several hours with the maximum the first is
    reported. With no counted order the peak is hour 0 with 0 orders. *)
Theorem peakHour_is_the_first_maximum
    (tz : Z) (range : DateRange) (orders : list Order.t) :
  ∃ h : nat,
    peakHour tz range orders = Z.of_nat h ∧ (h < 24)%nat
    ∧ hourlyOrders tz range orders !! h = Some (peakOrders tz range orders)
    ∧ (∀ j n, hourlyOrders tz range orders !! j = Some n →
              (n ≤ peakOrders tz range orders)%nat)
    ∧ (∀ j n, (j < h)%nat → hourlyOrders tz range orders !! j = Some n →
              (n < peakOrders tz range orders)%nat)
    ∧ (filteredOrders tz range orders = [] →
       h = 0%nat ∧ peakOrders tz range orders = 0%nat).
Proof.
  assert (length (hourlyOrders tz range orders) = 24%nat) as Hlen.
  { unfold hourlyOrders, histogram.
    by rewrite histogram_acc_length, length_replicate. }
  assert (hourlyOrders tz range orders ≠ []) as Hne.
  { intros Heq. by rewrite Heq in Hlen. }
  assert (∀ j n, hourlyOrders tz range orders !! j = Some n →
                 (n ≤ peakOrders tz range orders)%nat) as Hmax.
  { intros j n Hj. apply maxOf_bounds. by eapply list_elem_of_lookup_2. }
  destruct (indexOf_spec _ _ (maxOf_elem _ Hne)) as (h & Hh & Hl & Hfirst).
  exists h. split; [exact Hh|]. split.
  { apply lookup_lt_Some in Hl. lia. }
  split; [exact Hl|]. split; [exact Hmax|]. split.
  - intros j n Hj Hn. specialize (Hmax j n Hn).
    specialize (Hfirst j n Hj Hn). unfold peakOrders in *. lia.
  - intros Hnil. unfold peakHour, peakOrders, hourlyOrders in *.
    rewrite Hnil in *. simpl in *. split; [|done].
    change (indexOf 0 (replicate 24 0%nat)) with 0 in Hh. lia.
Qed.

Lemma peakHour_is_the_first_maximum_witness :
  ∃ h : nat, peakHour 0 sampleDay sampleOrders = Z.of_nat h ∧ (h < 24)%nat.
Proof.
  destruct (peakHour_is_the_first_maximum 0 sampleDay sampleOrders)
    as (h & Hh & Hlt & _).
  exists h. exact (conj Hh Hlt).
Defined.

Example peakHour_sample :
  hourlyOrders 0 sampleDay sampleOrders
  = [1; 0; 0; 0; 0; 0; 0; 0; 0; 0; 0; 0; 0; 0; 0; 0; 0; 0; 0; 0; 0; 0; 0; 1]%nat
  ∧ peakHour 0 sampleDay sampleOrders = 0
  ∧ peakOrders 0 sampleDay sampleOrders = 1%nat.
Proof. vm_compute. done. Qed.

(** ** Days *)

Lemma setHours_midnight tz t : setHours tz 0 0 0 0 t = localDay tz t * msPerDay - tz.
Proof. unfold setHours, localDay. lia. Qed.

Lemma setHours_last_ms tz t :
  setHours tz 23 59 59 999 t = localDay tz t * msPerDay + (msPerDay - 1) - tz.
Proof. unfold setHours, localDay, msPerDay. lia. Qed.

Lemma localDay_daysBefore tz n t : localDay tz (daysBefore n t) = localDay tz t - n.
Proof.
  unfold localDay, daysBefore, msPerDay.
  replace (t - n * 86400000 + tz) with (t + tz + (- n) * 86400000) by lia.
  rewrite Z.div_add by lia. lia.
Qed.

Lemma localDay_bounds tz t (d : Z) :
  d * msPerDay - tz ≤ t ↔ d ≤ localDay tz t.
Proof.
  unfold localDay, msPerDay.
  pose proof (Z.div_mod (t + tz) 86400000 ltac:(lia)) as Hdm.
  pose proof (Z.mod_pos_bound (t + tz) 86400000 ltac:(lia)) as Hb.
  split; intros H; nia.
Qed.

Lemma localDay_bounds_upper tz t (d : Z) :
  t ≤ d * msPerDay + (msPerDay - 1) - tz ↔ localDay tz t ≤ d.
Proof.
  unfold localDay, msPerDay.
  pose proof (Z.div_mod (t + tz) 86400000 ltac:(lia)) as Hdm.
  pose proof (Z.mod_pos_bound (t + tz) 86400000 ltac:(lia)) as Hb.
  split; intros H; nia.
Qed.

Lemma inRange_days tz (s e : Z) (o : Order.t) :
  inRange tz (mkRange (Some s) (Some e)) o = true
  ↔ Order.status o = Completed
    ∧ localDay tz s ≤ localDay tz (Order.createdAt o) ≤ localDay tz e.
Proof.
  rewrite inRange_spec. simpl.
  rewrite setHours_midnight, setHours_last_ms.
  rewrite localDay_bounds, localDay_bounds_upper. tauto.
Qed.

(** X18: a date range counts whole local days: an order is in the range
    exactly when it is completed and its local day of creation lies between
    the local day of the start and that of the end. The initial range and
    the "7 days" button therefore take in eight days, today and the seven
    days before it; "30 days" takes in thirty-one, "today" one, and
    "everything" sets no range, so every completed order passes. *)
Theorem date_ranges_count_whole_days
    (tz now : Z) (o : Order.t) :
  let today := localDay tz now in
  let day := localDay tz (Order.createdAt o) in
  (inRange tz (initialDateRange now) o = true
   ↔ Order.status o = Completed ∧ today - 7 ≤ day ≤ today)
  ∧ (inRange tz (rangeSevenDays now) o = true
     ↔ Order.status o = Completed ∧ today - 7 ≤ day ≤ today)
  ∧ (inRange tz (rangeThirtyDays now) o = true
     ↔ Order.status o = Completed ∧ today - 30 ≤ day ≤ today)
  ∧ (inRange tz (rangeToday now) o = true
     ↔ Order.status o = Completed ∧ day = today)
  ∧ (inRange tz rangeAll o = true ↔ Order.status o = Completed)
  ∧ (∀ s e, inRange tz (mkRange (Some s) (Some e)) o = true
            ↔ Order.status o = Completed ∧ localDay tz s ≤ day ≤ localDay tz e).
Proof.
  intros today day.
  unfold initialDateRange, rangeSevenDays, rangeThirtyDays, rangeToday.
  rewrite !inRange_days, !localDay_daysBefore. fold today day.
  split; [done|]. split; [done|]. split; [done|].
  split; [split; intros [Hc Hd]; (split; [done | lia])|].
  split; [rewrite inRange_spec; simpl; tauto|].
  intros s e. by rewrite inRange_days.
Qed.

(** X19: a date typed into a date input is read as midnight UTC and then
    moved to the local midnight before it. East of UTC (and at UTC) the
    range starts and ends on the chosen dates; west of UTC both ends fall
    on the day before the chosen one, so choosing one date for both ends
    counts the orders of the previous local day and none of the chosen
    day. *)
Theorem date_input_shifts_west_of_utc
    (tz : Z) (first last : Z) (prev : DateRange) (o : Order.t) :
  let range := setRangeEnd (Some last) (setRangeStart (Some first) prev) in
  let day := localDay tz (Order.createdAt o) in
  (0 ≤ tz < msPerDay →
   (inRange tz range o = true ↔ Order.status o = Completed ∧ first ≤ day ≤ last))
  ∧ (- msPerDay ≤ tz < 0 →
     (inRange tz range o = true
      ↔ Order.status o = Completed ∧ first - 1 ≤ day ≤ last - 1))
  ∧ (∀ end_, range_start (setRangeStart None (mkRange (Some first) end_)) = None)
  ∧ (inRange tz (setRangeStart None range) o = true ↔ Order.status o = Completed).
Proof.
  intros range day. unfold range, setRangeEnd, setRangeStart, dateInput. simpl.
  assert (∀ d, 0 ≤ tz < msPerDay → localDay tz (d * msPerDay) = d) as Heast.
  { intros d Htz. unfold localDay, msPerDay in *.
    rewrite Z.add_comm, Z.div_add by lia. rewrite Z.div_small by lia. lia. }
  assert (∀ d, - msPerDay ≤ tz < 0 → localDay tz (d * msPerDay) = d - 1) as Hwest.
  { intros d Htz. unfold localDay, msPerDay in *.
    replace (d * 86400000 + tz) with (tz + 86400000 + (d - 1) * 86400000) by lia.
    rewrite Z.div_add by lia. rewrite Z.div_small by lia. lia. }
  split; [|split; [|split]].
  - intros Htz. by rewrite inRange_days, !Heast.
  - intros Htz. by rewrite inRange_days, !Hwest.
  - done.
  - rewrite inRange_spec. simpl. tauto.
Qed.

Lemma date_input_shifts_west_of_utc_witness :
  inRange (-18000000) (setRangeEnd (Some 1) (setRangeStart (Some 1) rangeAll))
    (paidOrder "P2" Completed 59 86400000) = true
  ∧ inRange (-18000000) (setRangeEnd (Some 1) (setRangeStart (Some 1) rangeAll))
      (paidOrder "P6" Completed 59 (86400000 + 18000000)) = false.
Proof.
  assert (- msPerDay ≤ -18000000 < 0) as Htz by (unfold msPerDay; lia).
  pose proof (proj1 (proj2 (date_input_shifts_west_of_utc (-18000000) 1 1 rangeAll
                              (paidOrder "P2" Completed 59 86400000))) Htz) as H.
  cbv zeta in H. split; [|vm_compute; reflexivity].
  apply H. vm_compute. split; [reflexivity|]. split; discriminate.
Defined.

(** ** Revenue per day *)

Lemma countIf_filter {A : Type} (f g : A → bool) (l : list A) :
  length (List.filter g (List.filter f l)) = countIf (λ x, f x && g x) l.
Proof.
  unfold countIf. induction l as [|x l IH]; [done|].
  simpl. destruct (f x); simpl; [|done].
  destruct (g x); simpl; by rewrite IH.
Qed.

Lemma countIf_ext {A : Type} (f g : A → bool) (l : list A) :
  (∀ x, f x = g x) → countIf f l = countIf g l.
Proof. intros Hfg. unfold countIf. by rewrite (filter_ext f g Hfg). Qed.

Lemma countIf_disjoint {A : Type} (f g h : A → bool) (l : list A) :
  (∀ x, h x = f x || g x) → (∀ x, f x && g x = false) →
  countIf h l = (countIf f l + countIf g l)%nat.
Proof.
  intros Hh Hd. unfold countIf. induction l as [|x l IH]; [done|].
  simpl. rewrite (Hh x). specialize (Hd x).
  destruct (f x), (g x); simpl in *; try done; lia.
Qed.

Lemma sum_list_snoc (l : list nat) (x : nat) :
  sum_list (l ++ [x]) = (sum_list l + x)%nat.
Proof. induction l as [|y l IH]; simpl; lia. Qed.

Lemma sum_list_reverse (l : list nat) : sum_list (reverse l) = sum_list l.
Proof.
  induction l as [|y l IH]; [done|].
  rewrite reverse_cons, sum_list_snoc. simpl. lia.
Qed.

Lemma dayOrders_count tz now (i : nat) orders :
  length (List.filter
            (λ o, bool_decide (setHours tz 0 0 0 0 (Order.createdAt o)
                               = setHours tz 0 0 0 0 (daysBefore (Z.of_nat i) now))
                  && bool_decide (Order.status o = Completed))
            (paidOrders orders))
  = countIf (onDay tz (localDay tz now - Z.of_nat i)) orders.
Proof.
  unfold paidOrders. rewrite countIf_filter. apply countIf_ext. intros o.
  unfold onDay. f_equal. f_equal. apply bool_decide_ext.
  rewrite !setHours_midnight, localDay_daysBefore. unfold msPerDay. lia.
Qed.

Lemma days_sum tz D orders (n : nat) :
  sum_list ((λ i : nat, countIf (onDay tz (D - Z.of_nat i)) orders) <$> seq 0 n)
  = countIf (λ o, isPaid o && bool_decide (Order.status o = Completed)
                  && bool_decide (D - Z.of_nat n < localDay tz (Order.createdAt o) ≤ D))
      orders.
Proof.
  induction n as [|n IH].
  - simpl. unfold countIf. symmetry.
    induction orders as [|o l IHl]; [done|]. simpl.
    rewrite (bool_decide_false (_ < _ ≤ _)) by lia.
    by rewrite andb_false_r.
  - rewrite seq_S, fmap_app, fmap_cons, fmap_nil, sum_list_snoc, IH. simpl. symmetry.
    apply countIf_disjoint.
    + intros o. unfold onDay.
      destruct (isPaid o), (bool_decide (Order.status o = Completed)); simpl;
        try done; rewrite ?orb_false_r; try done.
      * repeat case_bool_decide; simpl; try done; lia.
      * by rewrite andb_false_r.
    + intros o. unfold onDay.
      destruct (isPaid o), (bool_decide (Order.status o = Completed)); simpl;
        try done; rewrite ?andb_false_r; try done.
      repeat case_bool_decide; simpl; try done; lia.
Qed.

(** X20: the revenue trend has one entry per local day, 7 for the daily and
    for the weekly report alike and 30 for the monthly one, the oldest day
    first and today last. The entry of a day counts the paid-or-cash,
    completed orders created on that local day and sums their totals, so
    the entries together count every such order of the last 7 (30) local
    days once. The selected date range plays no part. *)
Theorem dailyRevenue_covers_the_trailing_days
    (tz now : Z) (reportRange : ReportRange) (orders : list Order.t) :
  let n := daysToShow reportRange in
  let today := localDay tz now in
  length (dailyRevenue tz now reportRange orders) = n
  ∧ dailyRevenue tz now Daily orders = dailyRevenue tz now Weekly orders
  ∧ (∀ k : nat, (k < n)%nat →
       ∃ e, dailyRevenue tz now reportRange orders !! k = Some e
            ∧ dr_date e = (today - Z.of_nat (n - 1 - k)) * msPerDay - tz
            ∧ dr_orders e = countIf (onDay tz (today - Z.of_nat (n - 1 - k))) orders
            ∧ (dr_revenue e
               == sumQ (Order.total
                        <$> List.filter
                              (λ o, bool_decide
                                      (setHours tz 0 0 0 0 (Order.createdAt o)
                                       = dr_date e)
                                    && bool_decide (Order.status o = Completed))
                              (paidOrders orders)))%Q)
  ∧ sum_list (dr_orders <$> dailyRevenue tz now reportRange orders)
    = countIf (λ o, isPaid o && bool_decide (Order.status o = Completed)
                    && bool_decide (today - Z.of_nat n
                                    < localDay tz (Order.createdAt o) ≤ today))
        orders.
Proof.
  intros n today. unfold dailyRevenue. fold n.
  split; [by rewrite length_fmap, length_reverse, length_seq|].
  split; [done|]. split.
  - intros k Hk.
    assert (reverse (seq 0 n) !! k = Some (n - 1 - k)%nat) as Hrev.
    { rewrite reverse_lookup by (rewrite length_seq; lia).
      rewrite length_seq, lookup_seq. split; [f_equal|]; lia. }
    rewrite list_lookup_fmap, Hrev. simpl.
    eexists. split; [reflexivity|]. simpl.
    split; [by rewrite setHours_midnight, localDay_daysBefore|].
    split; [apply dayOrders_count|].
    rewrite fold_left_total. ring.
  - rewrite <- list_fmap_compose, fmap_reverse, sum_list_reverse.
    rewrite <- (days_sum tz today orders n). f_equal.
    apply list_fmap_ext. intros _ i _. simpl. apply dayOrders_count.
Qed.

Lemma dailyRevenue_covers_the_trailing_days_witness :
  ∃ e, dailyRevenue 0 (3 * 86400000) Daily sampleOrders !! 4%nat = Some e
       ∧ dr_date e = 86400000 ∧ dr_orders e = 2%nat.
Proof.
  destruct (proj1 (proj2 (proj2 (dailyRevenue_covers_the_trailing_days
                                   0 (3 * 86400000) Daily sampleOrders)))
              4%nat ltac:(simpl; lia))
    as (e & He & Hd & Ho & _).
  exists e. split; [exact He|]. split.
  - rewrite Hd. vm_compute. reflexivity.
  - rewrite Ho. vm_compute. reflexivity.
Defined.

(** ** The order list *)

Lemma insertBy_Permutation {A : Type} (compare : A → A → Q) (x : A) (l : list A) :
  insertBy compare x l ≡ₚ x :: l.
Proof.
  induction l as [|y l IH]; [done|]. simpl.
  destruct (Qle_bool (compare x y) 0); [done|].
  rewrite IH. apply Permutation_swap.
Qed.

Lemma sortBy_Permutation {A : Type} (compare : A → A → Q) (l : list A) :
  sortBy compare l ≡ₚ l.
Proof.
  induction l as [|x l IH]; [done|].
  simpl. by rewrite insertBy_Permutation, IH.
Qed.

Lemma sortBy_ties {A : Type} (compare : A → A → Q) (l : list A) :
  (∀ a b, (compare a b == 0)%Q) → sortBy compare l = l.
Proof.
  intros Hz. induction l as [|x l IH]; [done|].
  simpl. rewrite IH. destruct l as [|y l]; [done|]. simpl.
  assert (Qle_bool (compare x y) 0 = true) as ->; [|done].
  apply Qle_bool_iff. rewrite (Hz x y). apply Qle_refl.
Qed.

Lemma insertBy_Sorted {A : Type} (compare : A → A → Q) (x : A) (l : list A) :
  (∀ a b, (compare a b <= 0)%Q ∨ (compare b a <= 0)%Q) →
  Sorted (λ a b, (compare a b <= 0)%Q) l →
  Sorted (λ a b, (compare a b <= 0)%Q) (insertBy compare x l).
Proof.
  intros Htot. induction 1 as [|y l Hs IH Hhd]; simpl.
  - by repeat constructor.
  - destruct (Qle_bool (compare x y) 0) eqn:Hxy.
    + apply Qle_bool_iff in Hxy. by repeat constructor.
    + assert (compare y x <= 0)%Q as Hyx.
      { destruct (Htot x y) as [H|H]; [|done].
        apply Qle_bool_iff in H. congruence. }
      constructor; [exact IH|].
      destruct l as [|z l]; simpl.
      * by constructor.
      * destruct (Qle_bool (compare x z) 0); constructor; [done|].
        by apply HdRel_inv in Hhd.
Qed.

Lemma sortBy_Sorted {A : Type} (compare : A → A → Q) (l : list A) :
  (∀ a b, (compare a b <= 0)%Q ∨ (compare b a <= 0)%Q) →
  Sorted (λ a b, (compare a b <= 0)%Q) (sortBy compare l).
Proof.
  intros Htot. induction l as [|x l IH]; [constructor|].
  simpl. by apply insertBy_Sorted.
Qed.

Lemma Sorted_weaken {A : Type} (R1 R2 : relation A) (l : list A) :
  (∀ a b, R1 a b → R2 a b) → Sorted R1 l → Sorted R2 l.
Proof.
  intros Himp. induction 1 as [|x l Hs IH Hhd]; constructor; [done|].
  destruct Hhd; constructor. by apply Himp.
Qed.

Lemma inject_Z_nonpos (z : Z) : (inject_Z z <= 0)%Q ↔ z ≤ 0.
Proof. unfold Qle. simpl. lia. Qed.

Lemma opp_inject_Z_nonpos (z : Z) : (- inject_Z z <= 0)%Q ↔ 0 ≤ z.
Proof. unfold Qle. simpl. lia. Qed.

(** X21: the order list shows exactly the paid-or-cash orders that pass the
    search, the tab and the status filter, each as often as it occurs. On
    the orders tab no completed or cancelled order is shown and on the
    history tab no other, so with a terminal status as filter the orders
    tab is empty. Sorted by date the list ascends or descends in creation
    time as chosen; the sort key "status" sorts nothing: the orders keep the
    order in which they were given. *)
Theorem processedOrders_filters_and_sorts
    (matchesSearch : Order.t → bool) (activeTab : AdminTab)
    (statusFilter : option OrderStatus) (sortKey : SortKey)
    (sortDirection : SortOrder) (orders : list Order.t) :
  let shown := processedOrders matchesSearch activeTab statusFilter sortKey
                 sortDirection orders in
  shown ≡ₚ List.filter
             (λ o, isPaid o && matchesSearch o && matchesTab activeTab o
                   && matchesStatus statusFilter o) orders
  ∧ (∀ o, o ∈ shown → activeTab = TabOrders → terminal (Order.status o) = false)
  ∧ (∀ o, o ∈ shown → activeTab = TabHistory → terminal (Order.status o) = true)
  ∧ (∀ s, activeTab = TabOrders → statusFilter = Some s → terminal s = true →
          shown = [])
  ∧ (sortKey = ByDate → sortDirection = Asc →
     Sorted (λ a b, Order.createdAt a ≤ Order.createdAt b) shown)
  ∧ (sortKey = ByDate → sortDirection = Desc →
     Sorted (λ a b, Order.createdAt b ≤ Order.createdAt a) shown)
  ∧ (sortKey = ByStatus →
     shown = List.filter
               (λ o, isPaid o && matchesSearch o && matchesTab activeTab o
                     && matchesStatus statusFilter o) orders).
Proof.
  intros shown.
  assert (List.filter (λ o, matchesSearch o && matchesTab activeTab o
                            && matchesStatus statusFilter o)
            (List.filter isPaid orders)
          = List.filter (λ o, isPaid o && matchesSearch o && matchesTab activeTab o
                              && matchesStatus statusFilter o) orders) as Hff.
  { induction orders as [|o l IH]; [done|]. simpl.
    destruct (isPaid o); simpl; by rewrite IH. }
  assert (shown ≡ₚ List.filter
                     (λ o, isPaid o && matchesSearch o && matchesTab activeTab o
                           && matchesStatus statusFilter o) orders) as Hperm.
  { unfold shown, processedOrders. by rewrite sortBy_Permutation, Hff. }
  assert (∀ o, o ∈ shown →
               matchesTab activeTab o = true ∧ matchesStatus statusFilter o = true)
    as Hin.
  { intros o Ho. rewrite Hperm in Ho.
    apply list_elem_of_In, filter_In in Ho as [_ Ho].
    rewrite !andb_true_iff in Ho. tauto. }
  split; [exact Hperm|]. split; [|split; [|split; [|split; [|split]]]].
  - intros o Ho ->. destruct (Hin o Ho) as [Ht _].
    unfold matchesTab in Ht. simpl in Ht. by destruct (Order.status o).
  - intros o Ho ->. destruct (Hin o Ho) as [Ht _].
    unfold matchesTab in Ht. simpl in Ht. by destruct (Order.status o).
  - intros s -> -> Hs.
    destruct shown as [|o l] eqn:Heq; [done|].
    destruct (Hin o ltac:(left)) as [Ht Hst].
    unfold matchesTab, matchesStatus in Ht, Hst. simpl in Ht.
    apply bool_decide_eq_true in Hst. rewrite Hst in Ht. by destruct s.
  - intros -> ->. unfold shown, processedOrders.
    eapply Sorted_weaken; [|apply sortBy_Sorted].
    + intros a b. unfold compareOrders. simpl. rewrite inject_Z_nonpos. lia.
    + intros a b. unfold compareOrders. simpl. rewrite !inject_Z_nonpos. lia.
  - intros -> ->. unfold shown, processedOrders.
    eapply Sorted_weaken; [|apply sortBy_Sorted].
    + intros a b. unfold compareOrders. simpl. rewrite opp_inject_Z_nonpos. lia.
    + intros a b. unfold compareOrders. simpl. rewrite !opp_inject_Z_nonpos. lia.
  - intros ->. unfold shown, processedOrders. rewrite <- Hff.
    apply sortBy_ties. intros a b. unfold compareOrders.
    by case_bool_decide.
Qed.

Lemma processedOrders_filters_and_sorts_witness :
  processedOrders (λ _, true) TabOrders (Some Completed) ByDate Desc sampleOrders = []
  ∧ Sorted (λ a b, Order.createdAt b ≤ Order.createdAt a)
      (processedOrders (λ _, true) TabHistory None ByDate Desc sampleOrders).
Proof.
  split.
  - exact (proj1 (proj2 (proj2 (proj2 (processedOrders_filters_and_sorts
             (λ _, true) TabOrders (Some Completed) ByDate Desc sampleOrders))))
             Completed eq_refl eq_refl eq_refl).
  - exact (proj1 (proj2 (proj2 (proj2 (proj2 (proj2
             (processedOrders_filters_and_sorts
                (λ _, true) TabHistory None ByDate Desc sampleOrders))))))
             eq_refl eq_refl).
Defined.

Example processedOrders_sample :
  Order.id <$> processedOrders (λ _, true) TabHistory None ByDate Desc sampleOrders
  = ["P3"; "P2"; "P1"]
  ∧ Order.id <$> processedOrders (λ _, true) TabHistory None ByAmount Asc sampleOrders
    = ["P1"; "P3"; "P2"]
  ∧ Order.id <$> processedOrders (λ _, true) TabHistory None ByStatus Desc sampleOrders
    = ["P1"; "P2"; "P3"]
  ∧ Order.id <$> processedOrders (λ _, true) TabOrders None ByDate Desc sampleOrders
    = ["P4"].
Proof. vm_compute. done. Qed.

(** ** The status controls *)



(** ** The customer's view of an order *)

(** X23: the circles of the timeline of the confirmation view are a
    progress bar. For every status and delivery type at most one circle is
    drawn as current, a circle drawn done or current has only done circles
    before it, and all four are done exactly for a completed order. A row
    is dimmed exactly when its circle is grey, but for the preparing row of
    a cancelled order, which is grey and not dimmed. A done circle holds
    the tick, and the only other circle with the tick is the current one
    of a pickup order that is ready. A cancelled order has the circles of
    a pending one (first done, the others not reached) and differs from it
    in its second row alone, which is not dimmed. *)
Theorem timeline_is_a_progress_bar (status : OrderStatus) (type : DeliveryType) :
  let circles := circle <$> timeline status type in
  (length (List.filter (λ c, bool_decide (c = StepCurrent)) circles) ≤ 1)%nat
  ∧ (∀ i j c, (i < j)%nat → circles !! j = Some c → c ≠ StepWaiting →
              circles !! i = Some StepDone)
  ∧ (circles = [StepDone; StepDone; StepDone; StepDone] ↔ status = Completed)
  ∧ (∀ i s, timeline status type !! i = Some s →
       (dimmed s = true → circle s = StepWaiting)
       ∧ (circle s = StepWaiting →
          dimmed s = true ∨ (i = 1%nat ∧ status = Cancelled))
       ∧ (circle s = StepDone → ticked s = true)
       ∧ (ticked s = true →
          circle s = StepDone
          ∨ (i = 2%nat ∧ status = Ready ∧ type = ByPickup)))
  ∧ circle <$> timeline Cancelled type
    = [StepDone; StepWaiting; StepWaiting; StepWaiting]
  ∧ circle <$> timeline Cancelled type = circle <$> timeline Pending type
  ∧ timeline Cancelled type
    = <[1%nat := mkStep false StepWaiting false]> (timeline Pending type)
  ∧ timeline Cancelled type ≠ timeline Pending type.
Proof.
  intros circles. unfold circles.
  split; [by destruct status, type; vm_compute; lia|].
  split.
  { intros i j c Hij Hj Hc.
    destruct j as [|[|[|[|j]]]]; [lia| | | |by destruct status, type];
      destruct i as [|[|[|i]]]; try lia;
      destruct status, type; vm_compute in Hj |- *; congruence. }
  split; [by destruct status, type|].
  split.
  { intros i s Hi.
    destruct i as [|[|[|[|i]]]]; [| | | |by destruct status, type];
      destruct status, type; vm_compute in Hi; injection Hi as <-;
      vm_compute; intuition congruence. }
  by destruct type.
Qed.

Lemma timeline_is_a_progress_bar_witness :
  (circle <$> timeline Delivery ByDelivery) !! 1%nat = Some StepDone
  ∧ circle (stepPreparing Pending) = StepWaiting.
Proof.
  split.
  - apply (proj1 (proj2 (timeline_is_a_progress_bar Delivery ByDelivery))
             1%nat 2%nat StepCurrent); [lia | reflexivity | discriminate].
  - apply (proj1 (proj1 (proj2 (proj2 (proj2
             (timeline_is_a_progress_bar Pending ByPickup))))
             1%nat (stepPreparing Pending) eq_refl)).
    reflexivity.
Defined.

Example timeline_sample :
  timeline Ready ByPickup
  = [mkStep false StepDone true; mkStep false StepDone true;
     mkStep false StepCurrent true; mkStep true StepWaiting false]
  ∧ timeline Delivery ByDelivery
    = [mkStep false StepDone true; mkStep false StepDone true;
       mkStep false StepCurrent false; mkStep true StepWaiting false]
  ∧ timeline Cancelled ByDelivery
    = [mkStep false StepDone true; mkStep false StepWaiting false;
       mkStep true StepWaiting false; mkStep true StepWaiting false].
Proof. done. Qed.





Example followAll_sample :
  followAll "B2" None
    [[sampleView "A1" Completed None];
     [sampleView "B2" Pending None];
     [sampleView "B2" Pending None; sampleView "A1" Completed None];
     [sampleView "A1" Completed None];
     [sampleView "B2" Delivery None];
     [sampleView "B2" Completed None]]
  = (Some (sampleView "B2" Completed None), [Pending; Delivery]).
Proof. reflexivity. Qed.

(** ** Items sold *)

Lemma addTo_keys {V : Type} (plus : V → V → V) (zero : V) key amount
    (obj : list (string * V)) :
  (addTo plus zero key amount obj).*1
  = if bool_decide (key ∈ obj.*1) then obj.*1 else obj.*1 ++ [key].
Proof.
  induction obj as [|[k v] rest IH]; [done|].
  change (addTo plus zero key amount ((k, v) :: rest))
    with (if bool_decide (k = key) then (k, plus v amount) :: rest
          else (k, v) :: addTo plus zero key amount rest).
  destruct (decide (k = key)) as [->|Hk].
  - rewrite (bool_decide_true (key = key)) by done. rewrite !fmap_cons.
    rewrite bool_decide_true by left. done.
  - rewrite (bool_decide_false (k = key)) by done. rewrite !fmap_cons, IH.
    change ((k, v).1) with k.
    destruct (decide (key ∈ rest.*1)) as [Hin|Hnin].
    + rewrite !bool_decide_true; [done | by right | done].
    + rewrite !bool_decide_false; [done | | done].
      intros [->|Hin]%elem_of_cons; done.
Qed.

Lemma addTo_NoDup {V : Type} (plus : V → V → V) (zero : V) key amount
    (obj : list (string * V)) :
  NoDup obj.*1 → NoDup (addTo plus zero key amount obj).*1.
Proof.
  intros Hnd. rewrite addTo_keys. case_bool_decide as Hin; [done|].
  apply NoDup_app. split; [done|]. split.
  - intros k Hk ->%list_elem_of_singleton. done.
  - apply NoDup_singleton.
Qed.

Lemma addTo_keptFor key amount key' (obj : list (string * Z)) :
  keptFor key' (addTo Z.add 0 key amount obj)
  = keptFor key' obj + (if bool_decide (key = key') then amount else 0).
Proof.
  induction obj as [|[k v] rest IH]; simpl.
  - repeat case_bool_decide; lia.
  - destruct (decide (k = key)) as [->|Hk].
    + rewrite (bool_decide_true (key = key)) by done. simpl.
      repeat case_bool_decide; lia.
    + rewrite (bool_decide_false (k = key)) by done. simpl.
      rewrite IH. repeat case_bool_decide; lia.
Qed.

Lemma addTo_total key amount (obj : list (string * Z)) :
  ∀ acc, foldl Z.add acc (addTo Z.add 0 key amount obj).*2
         = foldl Z.add acc obj.*2 + amount.
Proof.
  induction obj as [|[k v] rest IH]; intros acc; simpl; [lia|].
  destruct (bool_decide (k = key)); simpl.
  - assert (∀ l a b, foldl Z.add (a + b) l = foldl Z.add a l + b) as Hshift.
    { induction l as [|x l IHl]; intros a b; simpl; [done|].
      replace (a + b + x) with (a + x + b) by lia. apply IHl. }
    replace (acc + (v + amount)) with (acc + v + amount) by lia. apply Hshift.
  - apply IH.
Qed.

Lemma sumsByName_snoc items i :
  sumsByName (items ++ [i])
  = addTo Z.add 0 (Item.name i) (Item.quantity i) (sumsByName items).
Proof. unfold sumsByName. by rewrite foldl_app. Qed.

Lemma sumsByName_NoDup items : NoDup (sumsByName items).*1.
Proof.
  induction items as [|i items IH] using rev_ind; [constructor|].
  rewrite sumsByName_snoc. by apply addTo_NoDup.
Qed.

Lemma soldOf_snoc name items i :
  soldOf name (items ++ [i])
  = soldOf name items + (if bool_decide (Item.name i = name) then Item.quantity i else 0).
Proof.
  unfold soldOf. induction items as [|j items IH]; simpl.
  - case_bool_decide; lia.
  - rewrite IH. repeat case_bool_decide; lia.
Qed.

Lemma sumsByName_keptFor name items :
  keptFor name (sumsByName items) = soldOf name items.
Proof.
  induction items as [|i items IH] using rev_ind; [done|].
  by rewrite sumsByName_snoc, addTo_keptFor, soldOf_snoc, IH.
Qed.

Lemma keptFor_entry (obj : list (string * Z)) key v :
  NoDup obj.*1 → (key, v) ∈ obj → keptFor key obj = v.
Proof.
  induction obj as [|[k w] rest IH]; intros Hnd Hin; [by apply elem_of_nil in Hin|].
  apply NoDup_cons in Hnd as [Hnotin Hnd]. simpl.
  assert (∀ key', key' ∉ rest.*1 → keptFor key' rest = 0) as Hzero.
  { clear. induction rest as [|[k' w'] rest IH]; intros key' Hn; [done|]. simpl.
    rewrite bool_decide_false by (intros ->; apply Hn; left).
    apply IH. intros Hin. apply Hn. by right. }
  apply elem_of_cons in Hin as [Heq | Hin].
  - injection Heq as -> ->. rewrite bool_decide_true by done.
    rewrite Hzero by done. lia.
  - rewrite bool_decide_false.
    + by apply IH.
    + intros ->. apply Hnotin. apply list_elem_of_fmap. by exists (key, v).
Qed.

Lemma sumsByName_keys items name :
  name ∈ (sumsByName items).*1 ↔ ∃ i, i ∈ items ∧ Item.name i = name.
Proof.
  induction items as [|i items IH] using rev_ind.
  - split; [by intros ?%elem_of_nil | by intros (i & ?%elem_of_nil & _)].
  - rewrite sumsByName_snoc, addTo_keys. case_bool_decide as Hin.
    + rewrite IH. split.
      * intros (j & Hj & Hn). exists j. split; [|done]. apply elem_of_app. by left.
      * intros (j & Hj & Hn). apply elem_of_app in Hj as [Hj | ->%list_elem_of_singleton].
        -- by exists j.
        -- subst name. by apply IH.
    + rewrite elem_of_app, IH, list_elem_of_singleton. split.
      * intros [(j & Hj & Hn) | ->].
        -- exists j. split; [|done]. apply elem_of_app. by left.
        -- exists i. split; [|done]. apply elem_of_app. right. by left.
      * intros (j & Hj & Hn). apply elem_of_app in Hj as [Hj | ->%list_elem_of_singleton].
        -- left. by exists j.
        -- by right.
Qed.

Lemma sumsByName_first_seen items :
  ∀ acc,
    (foldl (λ counts i, addTo Z.add 0 (Item.name i) (Item.quantity i) counts)
       acc items).*1
    = acc.*1 ++ firstSeen acc.*1 (Item.name <$> items).
Proof.
  induction items as [|i items IH]; intros acc; simpl.
  - by rewrite app_nil_r.
  - rewrite IH, addTo_keys.
    destruct (decide (Item.name i ∈ acc.*1)) as [Hin|Hnin].
    + by rewrite !bool_decide_true.
    + rewrite !bool_decide_false by done. by rewrite <- app_assoc.
Qed.

Lemma sumsByName_total items :
  foldl Z.add 0 (sumsByName items).*2
  = foldr (λ i acc, Item.quantity i + acc) 0 items.
Proof.
  induction items as [|i items IH] using rev_ind; [done|].
  rewrite sumsByName_snoc, addTo_total, IH, foldr_app. simpl.
  generalize (Item.quantity i). clear. intros q.
  induction items as [|j items IH]; simpl; lia.
Qed.

#[local] Instance count_desc_trans :
  Transitive (λ a b : string * Z, (inject_Z (b.2 - a.2) <= 0)%Q).
Proof. intros a b c. rewrite !inject_Z_nonpos. lia. Qed.

(** X25: for items with plain names (not written with digits only, and not
    a name every object inherits) the table of items sold has one entry
    per name that occurs, in the order in which the names first occur, and
    the entry of a name holds the sum of the quantities of the items with
    that name; the number of dishes is the sum of all quantities. The top
    list holds at most five entries of the table, the largest count first,
    and no entry left out has a larger count than one that is listed. *)
Theorem itemCounts_sum_quantities_by_name (items : list Item.t)
    (Hplain : ∀ i, i ∈ items → plainName (Item.name i) = true) :
  ∃ counts top,
    itemCounts items = Some counts
    ∧ topItems items = Some top
    ∧ totalDishes items = Some (foldr (λ i acc, Item.quantity i + acc) 0 items)
    ∧ counts.*1 = firstSeen [] (Item.name <$> items)
    ∧ NoDup counts.*1
    ∧ (∀ name, name ∈ counts.*1 ↔ ∃ i, i ∈ items ∧ Item.name i = name)
    ∧ (∀ name n, (name, n) ∈ counts → n = soldOf name items)
    ∧ (length top ≤ 5)%nat
    ∧ Sorted (λ a b, b.2 ≤ a.2) top
    ∧ (∀ e, e ∈ top → e ∈ counts)
    ∧ (∀ e out, e ∈ top → out ∈ counts → out ∉ top → out.2 ≤ e.2).
Proof.
  assert (itemCounts items = Some (sumsByName items)) as Hcounts.
  { unfold itemCounts.
    assert (forallb (λ i, plainName (Item.name i)) items = true) as ->; [|done].
    apply forallb_forall. intros i Hi. apply Hplain. by apply list_elem_of_In. }
  pose proof (sumsByName_NoDup items) as Hnd.
  set (sorted := sortBy (λ a b : string * Z, inject_Z (b.2 - a.2)) (sumsByName items)).
  assert (Sorted (λ a b : string * Z, (inject_Z (b.2 - a.2) <= 0)%Q) sorted) as Hs.
  { apply sortBy_Sorted. intros a b. rewrite !inject_Z_nonpos. lia. }
  assert (sorted ≡ₚ sumsByName items) as Hperm by apply sortBy_Permutation.
  exists (sumsByName items), (take 5 sorted).
  split; [exact Hcounts|].
  split; [unfold topItems; by rewrite Hcounts|].
  split; [unfold totalDishes; rewrite Hcounts; simpl; by rewrite sumsByName_total|].
  split; [apply (sumsByName_first_seen items [])|].
  split; [exact Hnd|]. split; [apply sumsByName_keys|]. split.
  { intros name n Hin. rewrite <- sumsByName_keptFor. symmetry.
    by apply keptFor_entry. }
  split.
  { rewrite length_take. lia. }
  split; [|split].
  - apply (Sorted_weaken (λ a b : string * Z, (inject_Z (b.2 - a.2) <= 0)%Q)).
    + intros a b. rewrite inject_Z_nonpos. lia.
    + apply Sorted_StronglySorted in Hs; [|apply _].
      rewrite <- (take_drop 5 sorted) in Hs.
      apply StronglySorted_app_1_l in Hs. by apply StronglySorted_Sorted.
  - intros e He. rewrite <- Hperm. by apply (subseteq_take 5 sorted).
  - intros e out He Hout Hnot.
    apply Sorted_StronglySorted in Hs; [|apply _].
    rewrite <- Hperm, <- (take_drop 5 sorted) in Hout.
    rewrite <- (take_drop 5 sorted) in Hs.
    apply elem_of_app in Hout as [Hout | Hout]; [done|].
    pose proof (StronglySorted_app_1_elem_of _ _ _ e out Hs He Hout) as Hle.
    cbv beta in Hle. rewrite inject_Z_nonpos in Hle. lia.
Qed.

Lemma itemCounts_sum_quantities_by_name_witness :
  ∃ counts top,
    itemCounts sampleItems = Some counts
    ∧ topItems sampleItems = Some top
    ∧ totalDishes sampleItems = Some 8
    ∧ counts.*1 = ["Gyros"; "Souvlaki"; "Moussaka"].
Proof.
  assert (∀ i, i ∈ sampleItems → plainName (Item.name i) = true) as Hplain.
  { intros i Hi. unfold sampleItems in Hi.
    repeat (apply elem_of_cons in Hi as [-> | Hi]; [reflexivity|]).
    by apply elem_of_nil in Hi. }
  destruct (itemCounts_sum_quantities_by_name sampleItems Hplain)
    as (counts & top & Hc & Ht & Hd & Hk & _).
  exists counts, top. exact (conj Hc (conj Ht (conj Hd Hk))).
Defined.

Example itemCounts_sample :
  itemCounts sampleItems = Some [("Gyros", 3); ("Souvlaki", 1); ("Moussaka", 4)]
  ∧ topItems sampleItems = Some [("Moussaka", 4); ("Gyros", 3); ("Souvlaki", 1)]
  ∧ totalDishes sampleItems = Some 8
  ∧ itemCounts [Item.mk "m7" "12" 9 1] = None
  ∧ itemCounts [Item.mk "m8" "constructor" 9 1] = None.
Proof. vm_compute. done. Qed.

(** ** Revenue per category *)

Lemma addTo_sumQ key amount (obj : list (string * Q)) :
  (sumQ (addTo Qplus 0 key amount obj).*2 == sumQ obj.*2 + amount)%Q.
Proof.
  induction obj as [|[k v] rest IH].
  - unfold sumQ. simpl. ring.
  - change (addTo Qplus 0%Q key amount ((k, v) :: rest))
      with (if bool_decide (k = key) then (k, (v + amount)%Q) :: rest
            else (k, v) :: addTo Qplus 0%Q key amount rest).
    destruct (bool_decide (k = key)); rewrite !fmap_cons.
    + unfold sumQ. simpl. ring.
    + change (sumQ ((k, v).2 :: (addTo Qplus 0%Q key amount rest).*2))
        with ((k, v).2 + sumQ (addTo Qplus 0%Q key amount rest).*2)%Q.
      rewrite IH. unfold sumQ. simpl. ring.
Qed.

Lemma sumQ_snoc (l : list Q) (x : Q) : (sumQ (l ++ [x]) == sumQ l + x)%Q.
Proof.
  induction l as [|y l IH].
  - unfold sumQ. simpl. ring.
  - change (sumQ ((y :: l) ++ [x])) with (y + sumQ (l ++ [x]))%Q.
    rewrite IH. unfold sumQ. simpl. ring.
Qed.

Lemma categoryRevenue_snoc menuItems items i :
  categoryRevenue menuItems (items ++ [i])
  = match List.find (λ m, bool_decide (MenuEntry.id m = Item.id i)) menuItems with
    | Some menuItem =>
        addTo Qplus 0%Q (MenuEntry.category menuItem)
              (Item.price i * inject_Z (Item.quantity i))%Q
              (categoryRevenue menuItems items)
    | None => categoryRevenue menuItems items
    end.
Proof. unfold categoryRevenue. by rewrite foldl_app. Qed.

Lemma find_onMenu menuItems i :
  is_Some (List.find (λ m, bool_decide (MenuEntry.id m = Item.id i)) menuItems)
  ↔ onMenu menuItems i = true.
Proof.
  unfold onMenu. rewrite bool_decide_eq_true, list_elem_of_fmap. split.
  - intros [m Hm]. apply find_some in Hm as [Hin Hid].
    apply bool_decide_eq_true in Hid. exists m. split; [done|].
    by apply list_elem_of_In.
  - intros (m & Hid & Hin).
    destruct (List.find _ menuItems) as [m'|] eqn:Hf; [by eexists|].
    apply list_elem_of_In in Hin.
    pose proof (find_none _ _ Hf m Hin) as Hno. simpl in Hno.
    apply bool_decide_eq_false in Hno. done.
Qed.

(** X26: the revenue per category has one entry per category and adds up
    to the revenue of the items whose id the menu still has: an item whose
    id is no longer on the menu adds nothing to any category, and with an
    empty menu there is no category revenue at all. The category of an
    item is that of the first menu entry with its id. *)
Theorem categoryRevenue_leaves_out_unknown_items
    (menuItems : list MenuEntry.t) (items : list Item.t) :
  NoDup (categoryRevenue menuItems items).*1
  ∧ (sumQ (categoryRevenue menuItems items).*2
     == sumQ ((λ i, Item.price i * inject_Z (Item.quantity i))
              <$> List.filter (onMenu menuItems) items))%Q
  ∧ (∀ i, onMenu menuItems i = false →
          categoryRevenue menuItems (items ++ [i]) = categoryRevenue menuItems items)
  ∧ (∀ i m, List.find (λ m, bool_decide (MenuEntry.id m = Item.id i)) menuItems
            = Some m →
            MenuEntry.category m ∈ (categoryRevenue menuItems (items ++ [i])).*1)
  ∧ ((∀ i, i ∈ items → onMenu menuItems i = false) →
     categoryRevenue menuItems items = []).
Proof.
  split; [|split; [|split; [|split]]].
  - induction items as [|i items IH] using rev_ind; [constructor|].
    rewrite categoryRevenue_snoc. destruct (List.find _ menuItems); [|done].
    by apply addTo_NoDup.
  - induction items as [|i items IH] using rev_ind; [done|].
    rewrite categoryRevenue_snoc, List.filter_app. simpl.
    destruct (List.find _ menuItems) as [m|] eqn:Hf.
    + assert (onMenu menuItems i = true) as -> by (apply find_onMenu; eauto).
      rewrite addTo_sumQ, IH, fmap_app, fmap_cons, fmap_nil, sumQ_snoc. reflexivity.
    + assert (onMenu menuItems i = false) as ->.
      { apply not_true_is_false. rewrite <- find_onMenu, Hf. by intros [? ?]. }
      by rewrite app_nil_r.
  - intros i Hi. rewrite categoryRevenue_snoc.
    destruct (List.find _ menuItems) as [m|] eqn:Hf; [|done].
    assert (onMenu menuItems i = true) by (apply find_onMenu; eauto). congruence.
  - intros i m Hf. rewrite categoryRevenue_snoc, Hf, addTo_keys.
    case_bool_decide; [done|]. apply elem_of_app. right. left.
  - induction items as [|i items IH] using rev_ind; intros Hnone; [done|].
    rewrite categoryRevenue_snoc.
    destruct (List.find _ menuItems) as [m|] eqn:Hf.
    + assert (onMenu menuItems i = true) as Hon by (apply find_onMenu; eauto).
      rewrite Hnone in Hon; [done|]. apply elem_of_app. right. left.
    + apply IH. intros j Hj. apply Hnone. apply elem_of_app. by left.
Qed.

Lemma categoryRevenue_leaves_out_unknown_items_witness :
  categoryRevenue sampleMenu
    ([Item.mk "m1" "Gyros" (25 # 2) 2] ++ [Item.mk "gone" "Moussaka" 16 4])
  = categoryRevenue sampleMenu [Item.mk "m1" "Gyros" (25 # 2) 2].
Proof.
  apply (proj1 (proj2 (proj2 (categoryRevenue_leaves_out_unknown_items sampleMenu
                                [Item.mk "m1" "Gyros" (25 # 2) 2])))).
  vm_compute. reflexivity.
Defined.

Example categoryRevenue_sample :
  (categoryRevenue sampleMenu sampleItems).*1 = ["grill"]
  ∧ (sumQ (categoryRevenue sampleMenu sampleItems).*2 == 103 # 2)%Q.
Proof. vm_compute. done. Qed.

(** ** Contact messages *)

Lemma countIf_Permutation {A : Type} (f : A → bool) (l l' : list A) :
  l ≡ₚ l' → countIf f l = countIf f l'.
Proof.
  unfold countIf. induction 1 as [|x l l' Hp IH|x y l|l l' l'' Hp IH Hp' IH'];
    simpl; [done| |  |congruence].
  - destruct (f x); simpl; by rewrite IH.
  - by destruct (f x), (f y).
Qed.

Lemma countIf_rows_insert_fresh {Row : Type} (f : Row → bool)
    (tbl : gmap string Row) (id : string) (r : Row) :
  tbl !! id = None →
  countIf f (rows (<[id := r]> tbl))
  = ((if f r then 1 else 0) + countIf f (rows tbl))%nat.
Proof.
  intros Hfresh.
  rewrite (countIf_Permutation f (rows (<[id := r]> tbl)) (r :: rows tbl)).
  - unfold countIf. simpl. by destruct (f r).
  - unfold rows. by rewrite (map_to_list_insert tbl id r Hfresh).
Qed.

Lemma countIf_rows_delete {Row : Type} (f : Row → bool)
    (tbl : gmap string Row) (id : string) (r : Row) :
  tbl !! id = Some r →
  countIf f (rows tbl)
  = ((if f r then 1 else 0) + countIf f (rows (base.delete id tbl)))%nat.
Proof.
  intros Hr. rewrite <- (countIf_rows_insert_fresh f (base.delete id tbl) id r)
    by apply lookup_delete_eq.
  by rewrite insert_delete_id.
Qed.

Lemma countIf_rows_replace {Row : Type} (f : Row → bool)
    (tbl : gmap string Row) (id : string) (r r' : Row) :
  tbl !! id = Some r →
  (countIf f (rows (<[id := r']> tbl)) + (if f r then 1 else 0)
   = countIf f (rows tbl) + (if f r' then 1 else 0))%nat.
Proof.
  intros Hr. rewrite (countIf_rows_delete f tbl id r Hr).
  rewrite <- (insert_delete_eq tbl id r').
  rewrite (countIf_rows_insert_fresh f (base.delete id tbl) id r')
    by apply lookup_delete_eq.
  lia.
Qed.

(** X27: the count of unread messages follows the operations. A message
    that is submitted is unread and raises the count by one; marking an
    unread message read, replied or archived lowers it by one, marking a
    message unread that was not raises it by one, and any other change of
    status leaves it; adding notes leaves it; deleting an unread message
    lowers it by one. *)
Theorem unread_count_follows_the_operations
    (tbl : gmap string ContactMessage.t) (id fresh : string) (m : ContactMessage.t)
    (name email message notes : string) (status : MessageStatus) (now : Z)
    (Hm : tbl !! id = Some m) (Hfresh : tbl !! fresh = None) :
  let unread (s : MessageStatus) : nat := if bool_decide (s = Unread) then 1%nat else 0%nat in
  contactService.getUnreadCount (contactService.submit fresh name email message now tbl).1
  = S (contactService.getUnreadCount tbl)
  ∧ (contactService.getUnreadCount (contactService.updateStatus id status now tbl).1
     + unread (ContactMessage.status m)
     = contactService.getUnreadCount tbl + unread status)%nat
  ∧ contactService.getUnreadCount (contactService.addNotes id notes now tbl).1
    = contactService.getUnreadCount tbl
  ∧ (contactService.getUnreadCount (contactService.delete id tbl)
     + unread (ContactMessage.status m)
     = contactService.getUnreadCount tbl)%nat.
Proof.
  intros unread.
  set (f := λ m : ContactMessage.t, bool_decide (ContactMessage.status m = Unread)).
  assert (∀ t, contactService.getUnreadCount t = countIf f (rows t)) as Hc by done.
  rewrite !Hc.
  unfold contactService.submit, contactService.updateStatus,
    contactService.addNotes, contactService.delete.
  rewrite Hfresh, !(update_single_hit _ _ _ _ Hm). simpl.
  split; [|split; [|split]].
  - by rewrite (countIf_rows_insert_fresh f tbl fresh _ Hfresh).
  - pose proof (countIf_rows_replace f tbl id m
                  (ContactMessage.mk (ContactMessage.id m) (ContactMessage.name m)
                     (ContactMessage.email m) (ContactMessage.message m)
                     status (ContactMessage.admin_notes m)
                     (ContactMessage.created_at m) now) Hm) as Hrep.
    subst unread. cbv beta. exact Hrep.
  - pose proof (countIf_rows_replace f tbl id m
                  (ContactMessage.mk (ContactMessage.id m) (ContactMessage.name m)
                     (ContactMessage.email m) (ContactMessage.message m)
                     (ContactMessage.status m) (Some notes)
                     (ContactMessage.created_at m) now) Hm) as Hrep.
    change (f (ContactMessage.mk _ _ _ _ (ContactMessage.status m) _ _ _))
      with (f m) in Hrep.
    lia.
  - pose proof (countIf_rows_delete f tbl id m Hm) as Hdel.
    subst unread. cbv beta. fold (f m). lia.
Qed.

Lemma unread_count_follows_the_operations_witness :
  contactService.getUnreadCount
    (contactService.submit "c3" "Eva" "eva@example.org" "Table for 8?" 30
       sampleMessages).1
  = S (contactService.getUnreadCount sampleMessages).
Proof.
  exact (proj1 (unread_count_follows_the_operations sampleMessages "c1" "c3"
                  (ContactMessage.mk "c1" "Anna" "anna@example.org" "Open on Monday?"
                     Unread None 10 10)
                  "Eva" "eva@example.org" "Table for 8?" "" Read 30
                  eq_refl eq_refl)).
Defined.
